(** * Bunny CDN DRM video downloader: a shallow embedding

    This development embeds the session protocol of the downloader
    (src/src/config.py, src/src/headers.py, src/src/downloader.py and the
    composition in src/main.py) and proves properties of it.

    Conventions.
    - A Python [str] is a Rocq [string] whose characters are code points
      below 256; text with a code point from 256 on is outside the model.
      On that range the character predicates are Python's: [\s] is the
      white space of a [str] pattern (the code points 133 and 160
      included), [.] is every character but the newline, [repr] escapes
      what is not printable, and [s.encode(utf8)] writes a code point from
      128 on as two bytes.
    - Calls that leave the process (HTTP requests, the terminal, yt-dlp, the
      thread scheduler, the random generator) are answered by an [Env] of
      oracles and recorded, in order, in a trace of events.  An oracle
      always answers: a request that blocks for ever (the source sets no
      timeout) and a transfer that never ends (yt-dlp retries without
      bound) are outside the model, so that a statement on how a run ends
      is a statement on the runs in which every call returns or raises.
    - Library calls whose result the source only passes on ([str] of a
      float, [int], [re.search] on the pattern of the user, [urlparse],
      [html.unescape]) are the parameters of [PyLib], with the exceptions
      they raise.
    - The command line ([parse_args], which ends the process on its own for
      a missing argument or a request for help) and the set-up of logging
      come before the code embedded here; logging calls have no influence
      on control flow and are left out. *)

From Stdlib Require Import ZArith List String Ascii Bool Lia Arith.
From Stdlib Require Import DecimalString DecimalZ DecimalPos.
Import ListNotations.

Local Open Scope string_scope.
Local Open Scope list_scope.

(* ================================================================== *)
(** * Python strings *)
(* ================================================================== *)

Module PyStr.

(** [s.startswith(p)] *)
Fixpoint startswith (p s : string) : bool :=
  match p, s with
  | EmptyString, _ => true
  | String a p', String b s' => Ascii.eqb a b && startswith p' s'
  | String _ _, EmptyString => false
  end.

(** [p in s] for strings: some suffix of [s] starts with [p]. *)
Fixpoint contains (p s : string) : bool :=
  startswith p s ||
  match s with
  | EmptyString => false
  | String _ s' => contains p s'
  end.

(** [s.endswith(p)] *)
Definition endswith (p s : string) : bool :=
  (String.length p <=? String.length s)%nat &&
  String.eqb (substring (String.length s - String.length p) (String.length p) s) p.

(** [s.split(sep)[-1]] for a one-character separator: the part of [s] after
    the last occurrence of [sep], the whole of [s] when there is none. *)
Fixpoint split_last_aux (sep : ascii) (s acc : string) : string :=
  match s with
  | EmptyString => acc
  | String c s' =>
      if Ascii.eqb c sep then split_last_aux sep s' s'
      else split_last_aux sep s' acc
  end.

Definition split_last (sep : ascii) (s : string) : string :=
  split_last_aux sep s s.

(** [str(n)] for a Python [int]. *)
Definition str_of_int (z : Z) : string :=
  NilZero.string_of_int (Z.to_int z).

(** [sep.join(l)] *)
Fixpoint join (sep : string) (l : list string) : string :=
  match l with
  | [] => ""
  | [x] => x
  | x :: rest => x ++ sep ++ join sep rest
  end.

Definition str_forallb (p : ascii -> bool) (s : string) : bool :=
  forallb p (list_ascii_of_string s).

Definition str_existsb (p : ascii -> bool) (s : string) : bool :=
  existsb p (list_ascii_of_string s).

Definition code (c : ascii) : nat := nat_of_ascii c.

Definition in_range (lo hi : nat) (c : ascii) : bool :=
  (lo <=? code c)%nat && (code c <=? hi)%nat.

Definition hexdigit (n : nat) : ascii :=
  match (n mod 16)%nat with
  | 0 => "0" | 1 => "1" | 2 => "2" | 3 => "3" | 4 => "4" | 5 => "5"
  | 6 => "6" | 7 => "7" | 8 => "8" | 9 => "9" | 10 => "a" | 11 => "b"
  | 12 => "c" | 13 => "d" | 14 => "e" | _ => "f"
  end%char%nat.

Definition is_lower_hex (c : ascii) : bool :=
  in_range 48 57 c || in_range 97 102 c.

Definition bslash : ascii := "092"%char.
Definition squote : ascii := "039"%char.
Definition dquote : ascii := "034"%char.
Definition newline : ascii := "010"%char.

(** [repr(s)] for a [str] of code points below 256.  The quote is the
    single quote, unless the string holds a single quote and no double
    quote.  The backslash and the chosen quote are escaped with a backslash;
    newline, carriage return and tab are written with their letter; the
    other characters that are not printable are written in hexadecimal: the
    control characters, DEL, the code points from 128 to 160 and the soft
    hyphen, 173. *)
Definition repr_char (quote : ascii) (c : ascii) : string :=
  if Ascii.eqb c bslash then String bslash (String bslash "")
  else if Ascii.eqb c quote then String bslash (String quote "")
  else if Ascii.eqb c newline then String bslash "n"
  else if Ascii.eqb c "013"%char then String bslash "r"
  else if Ascii.eqb c "009"%char then String bslash "t"
  else if (code c <? 32)%nat || (code c =? 127)%nat
          || in_range 128 160 c || (code c =? 173)%nat then
    String bslash (String "x"%char
      (String (hexdigit (code c / 16)) (String (hexdigit (code c)) "")))
  else String c "".

Fixpoint repr_body (quote : ascii) (s : string) : string :=
  match s with
  | EmptyString => ""
  | String c s' => repr_char quote c ++ repr_body quote s'
  end.

Definition repr_quote (s : string) : ascii :=
  if str_existsb (Ascii.eqb squote) s && negb (str_existsb (Ascii.eqb dquote) s)
  then dquote else squote.

Definition repr (s : string) : string :=
  let q := repr_quote s in
  String q (repr_body q s ++ String q "").

(** [str(l)] for a list of [str]: the [repr] of the items, separated by a
    comma and a space, between square brackets. *)
Definition list_repr (l : list string) : string :=
  "[" ++ join ", " (map repr l) ++ "]".

End PyStr.

Import PyStr.

(* ================================================================== *)
(** * MD5 (hashlib.md5), on 32-bit words written as [Z] with wrap-around *)
(* ================================================================== *)

Module MD5.

Local Open Scope Z_scope.

Definition mask32 : Z := 0xffffffff.
Definition wrap (x : Z) : Z := x mod 2 ^ 32.
Definition add32 (x y : Z) : Z := wrap (x + y).
Definition not32 (x : Z) : Z := Z.lxor (wrap x) mask32.
Definition rotl32 (x : Z) (c : Z) : Z :=
  wrap (Z.lor (Z.shiftl (wrap x) c) (Z.shiftr (wrap x) (32 - c))).

(** Per-round shift amounts. *)
Definition SHIFT : list Z :=
  [ 7; 12; 17; 22;  7; 12; 17; 22;  7; 12; 17; 22;  7; 12; 17; 22;
    5;  9; 14; 20;  5;  9; 14; 20;  5;  9; 14; 20;  5;  9; 14; 20;
    4; 11; 16; 23;  4; 11; 16; 23;  4; 11; 16; 23;  4; 11; 16; 23;
    6; 10; 15; 21;  6; 10; 15; 21;  6; 10; 15; 21;  6; 10; 15; 21 ].

(** K[i] = floor(2^32 * abs(sin(i + 1))). *)
Definition K : list Z :=
  [ 0xd76aa478; 0xe8c7b756; 0x242070db; 0xc1bdceee;
    0xf57c0faf; 0x4787c62a; 0xa8304613; 0xfd469501;
    0x698098d8; 0x8b44f7af; 0xffff5bb1; 0x895cd7be;
    0x6b901122; 0xfd987193; 0xa679438e; 0x49b40821;
    0xf61e2562; 0xc040b340; 0x265e5a51; 0xe9b6c7aa;
    0xd62f105d; 0x02441453; 0xd8a1e681; 0xe7d3fbc8;
    0x21e1cde6; 0xc33707d6; 0xf4d50d87; 0x455a14ed;
    0xa9e3e905; 0xfcefa3f8; 0x676f02d9; 0x8d2a4c8a;
    0xfffa3942; 0x8771f681; 0x6d9d6122; 0xfde5380c;
    0xa4beea44; 0x4bdecfa9; 0xf6bb4b60; 0xbebfbc70;
    0x289b7ec6; 0xeaa127fa; 0xd4ef3085; 0x04881d05;
    0xd9d4d039; 0xe6db99e5; 0x1fa27cf8; 0xc4ac5665;
    0xf4292244; 0x432aff97; 0xab9423a7; 0xfc93a039;
    0x655b59c3; 0x8f0ccc92; 0xffeff47d; 0x85845dd1;
    0x6fa87e4f; 0xfe2ce6e0; 0xa3014314; 0x4e0811a1;
    0xf7537e82; 0xbd3af235; 0x2ad7d2bb; 0xeb86d391 ].

Record state := mkState { sA : Z; sB : Z; sC : Z; sD : Z }.

Definition init : state :=
  mkState 0x67452301 0xefcdab89 0x98badcfe 0x10325476.

(** [s.encode("utf8")]: a character is a code point below 256; one from
    128 on takes two bytes. *)
Definition utf8 (c : ascii) : list Z :=
  let n := Z.of_nat (nat_of_ascii c) in
  if n <? 128 then [n] else [192 + n / 64; 128 + n mod 64].

Definition bytes_of_string (s : string) : list Z :=
  flat_map utf8 (list_ascii_of_string s).

(** The message padded: one 0x80 byte, zero bytes up to 56 modulo 64, and
    the length in bits as 8 little-endian bytes. *)

Definition le_bytes (n : nat) (x : Z) : list Z :=
  map (fun i => Z.shiftr x (8 * Z.of_nat i) mod 256) (seq 0 n).

Definition pad (msg : list Z) : list Z :=
  let len := Z.of_nat (List.length msg) in
  let zeros := Z.to_nat ((55 - len) mod 64) in
  msg ++ [0x80] ++ repeat 0 zeros ++ le_bytes 8 ((8 * len) mod 2 ^ 64).

Definition le_word (b0 b1 b2 b3 : Z) : Z :=
  b0 + Z.shiftl b1 8 + Z.shiftl b2 16 + Z.shiftl b3 24.

Fixpoint words (bs : list Z) : list Z :=
  match bs with
  | b0 :: b1 :: b2 :: b3 :: rest => le_word b0 b1 b2 b3 :: words rest
  | _ => []
  end.

Fixpoint chunks (fuel : nat) (ws : list Z) : list (list Z) :=
  match fuel, ws with
  | _, [] => []
  | O, _ => []
  | S f, _ => firstn 16 ws :: chunks f (skipn 16 ws)
  end.

Definition round (M : list Z) (st : state) (i : nat) : state :=
  let '(mkState a b c d) := st in
  let zi := Z.of_nat i in
  let '(f, g) :=
    if (i <? 16)%nat then (Z.lor (Z.land b c) (Z.land (not32 b) d), zi)
    else if (i <? 32)%nat then
      (Z.lor (Z.land d b) (Z.land (not32 d) c), (5 * zi + 1) mod 16)
    else if (i <? 48)%nat then (Z.lxor (Z.lxor b c) d, (3 * zi + 5) mod 16)
    else (Z.lxor c (Z.lor b (not32 d)), (7 * zi) mod 16) in
  let f' := add32 (add32 (add32 f a) (nth i K 0)) (nth (Z.to_nat g) M 0) in
  mkState d (add32 b (rotl32 f' (nth i SHIFT 0))) b c.

Definition process (st : state) (M : list Z) : state :=
  let '(mkState a b c d) := fold_left (round M) (seq 0 64) st in
  mkState (add32 (sA st) a) (add32 (sB st) b) (add32 (sC st) c)
          (add32 (sD st) d).

Definition digest_state (msg : list Z) : state :=
  let ws := words (pad msg) in
  fold_left process (chunks (List.length ws) ws) init.

(** [md5(msg).digest()]: the four state words, little-endian. *)
Definition digest (msg : list Z) : list Z :=
  let st := digest_state msg in
  le_bytes 4 (sA st) ++ le_bytes 4 (sB st) ++ le_bytes 4 (sC st)
    ++ le_bytes 4 (sD st).

Definition hex_of_byte (b : Z) : string :=
  String (hexdigit (Z.to_nat (b / 16))) (String (hexdigit (Z.to_nat b)) "").

Fixpoint hex_of_bytes (bs : list Z) : string :=
  match bs with
  | [] => ""
  | b :: rest => (hex_of_byte b ++ hex_of_bytes rest)%string
  end.

(** [md5(s.encode(utf8)).hexdigest()] *)
Definition hexdigest (s : string) : string :=
  hex_of_bytes (digest (bytes_of_string s)).

End MD5.

(* ================================================================== *)
(** * Regular expressions (the fragment of [re] the source uses) *)
(* ================================================================== *)

Module Re.

(** Abstract syntax.  [Star true r] is the greedy [r*], [Star false r] the
    lazy [r*?]; [Group n r] is the capturing group number [n]; [Bol] is the
    start anchor. *)
Inductive regex : Type :=
| Eps : regex
| Chr : ascii -> regex
| Cls : (ascii -> bool) -> regex
| Bol : regex
| Seq : regex -> regex -> regex
| Alt : regex -> regex -> regex
| Star : bool -> regex -> regex
| Group : nat -> regex -> regex.

Fixpoint lit (s : string) : regex :=
  match s with
  | EmptyString => Eps
  | String c s' => Seq (Chr c) (lit s')
  end.

Definition Plus (greedy : bool) (r : regex) : regex := Seq r (Star greedy r).
Definition Opt (r : regex) : regex := Alt r Eps.
Definition AtLeast2 (r : regex) : regex := Seq r (Seq r (Star true r)).

(** Character classes.  A character is a code point below 256; [\s] is the
    white space of a [str] pattern on that range: the ASCII one, and the
    code points 133 (next line) and 160 (no-break space). *)
Definition dot (c : ascii) : bool := negb (Ascii.eqb c newline).
Definition space (c : ascii) : bool :=
  in_range 9 13 c || in_range 28 32 c
  || (code c =? 133)%nat || (code c =? 160)%nat.
Definition alpha (c : ascii) : bool :=
  in_range 97 122 c || in_range 65 90 c.
Definition alnum_dash (c : ascii) : bool :=
  alpha c || in_range 48 57 c || Ascii.eqb c "-"%char.

(** Captures: the most recent binding of a group comes first. *)
Definition caps := list (nat * string).

Fixpoint group (n : nat) (cs : caps) : option string :=
  match cs with
  | [] => None
  | (m, v) :: rest => if (m =? n)%nat then Some v else group n rest
  end.

Fixpoint take (n : nat) (s : string) : string :=
  match n, s with
  | S n', String c s' => String c (take n' s')
  | _, _ => ""
  end.

(** A successful match: the position after it, the text after it, and the
    captures. *)
Definition result : Type := nat * string * caps.
Definition cont : Type := nat -> string -> caps -> option result.

Definition orelse (a b : option result) : option result :=
  match a with
  | Some x => Some x
  | None => b
  end.

(** The backtracking matcher, in continuation-passing style: [run fuel r pos
    s cs k] matches [r] at position [pos], where the remaining text is [s],
    and hands what is left to [k]; alternatives are tried in the order of the
    [re] module (left branch first; a greedy star tries one more iteration
    first, a lazy one tries to stop first).  An iteration of a star has to
    consume a character, so [fuel] above the length of [s] is never used
    up. *)
Fixpoint run (fuel : nat) : regex -> nat -> string -> caps -> cont -> option result :=
  fix go (r : regex) (pos : nat) (s : string) (cs : caps) (k : cont)
      {struct r} : option result :=
    match r with
    | Eps => k pos s cs
    | Chr c =>
        match s with
        | String d s' => if Ascii.eqb c d then k (S pos) s' cs else None
        | EmptyString => None
        end
    | Cls p =>
        match s with
        | String d s' => if p d then k (S pos) s' cs else None
        | EmptyString => None
        end
    | Bol => if (pos =? 0)%nat then k pos s cs else None
    | Seq a b => go a pos s cs (fun pos' s' cs' => go b pos' s' cs' k)
    | Alt a b => orelse (go a pos s cs k) (go b pos s cs k)
    | Group n a =>
        go a pos s cs
           (fun pos' s' cs' => k pos' s' ((n, take (pos' - pos) s) :: cs'))
    | Star greedy a =>
        match fuel with
        | O => k pos s cs
        | S fuel' =>
            let more :=
              go a pos s cs
                 (fun pos' s' cs' =>
                    if (pos <? pos')%nat
                    then run fuel' (Star greedy a) pos' s' cs' k
                    else None) in
            if greedy then orelse more (k pos s cs)
            else orelse (k pos s cs) more
        end
    end.

Definition accept : cont := fun pos s cs => Some (pos, s, cs).

(** A match of [r] starting exactly at [pos]. *)
Definition match_at (r : regex) (pos : nat) (s : string) : option result :=
  run (S (String.length s)) r pos s [] accept.

(** [re.match(r, s)]: a match at the start of [s]. *)
Definition re_match (r : regex) (s : string) : option result :=
  match_at r 0 s.

(** The leftmost match at or after [pos]: its start and its result. *)
Fixpoint search_from (r : regex) (pos : nat) (s : string)
  : option (nat * result) :=
  match match_at r pos s with
  | Some m => Some (pos, m)
  | None =>
      match s with
      | EmptyString => None
      | String _ s' => search_from r (S pos) s'
      end
  end.

(** [re.search(r, s)] *)
Definition search (r : regex) (s : string) : option result :=
  option_map snd (search_from r 0 s).

(** [re.findall(r, s)] for a pattern with exactly one group: the text of
    group 1 of the successive non-overlapping matches, left to right.  After
    an empty match the scan moves on by one character. *)
Fixpoint findall_from (fuel : nat) (r : regex) (pos : nat) (s : string)
  : list string :=
  match fuel with
  | O => []
  | S fuel' =>
      match search_from r pos s with
      | None => []
      | Some (start, (stop, rest, cs)) =>
          let g := match group 1 cs with Some v => v | None => "" end in
          if (start <? stop)%nat then g :: findall_from fuel' r stop rest
          else
            match rest with
            | EmptyString => [g]
            | String _ rest' => g :: findall_from fuel' r (S stop) rest'
            end
      end
  end.

Definition findall (r : regex) (s : string) : list string :=
  findall_from (S (String.length s)) r 0 s.

End Re.

Import Re.

(* ================================================================== *)
(** * Exceptions (src/src/exceptions.py and the library ones in play) *)
(* ================================================================== *)

Inductive exn : Type :=
| ConfigurationError (msg : string)
| NetworkError (msg : string)
| ExtractionError (msg : string)
| PlaylistError (msg : string)
| RequestException (msg : string)   (* requests.RequestException, any subclass *)
| ValueError (msg : string)
| EOFError                          (* input() at end of input *)
| RuntimeError (msg : string)       (* join() on a thread never started;
                                       expanduser() without a home *)
| OtherError (cls msg : string)     (* a built-in class no handler names:
                                       OverflowError, RecursionError, ... *)
| ExternalError (msg : string).     (* whatever yt-dlp raises *)

(** The classes derived from [BunnyVideoError]. *)
Definition is_BunnyVideoError (e : exn) : bool :=
  match e with
  | ConfigurationError _ | NetworkError _ | ExtractionError _
  | PlaylistError _ => true
  | _ => false
  end.

Definition is_ConfigurationError (e : exn) : bool :=
  match e with ConfigurationError _ => true | _ => false end.

(** Truth value of an [Optional[str]]: [None] and the empty string are
    false. *)
Definition truthy (s : string) : bool := negb (String.eqb s "").
Definition truthy_opt (o : option string) : bool :=
  match o with
  | Some s => truthy s
  | None => false
  end.

(* ================================================================== *)
(** * Configuration (src/src/config.py) *)
(* ================================================================== *)

Module Config.

Record DownloadConfig : Type := mkConfig {
  referer : string;
  embed_url : string;
  name : option string;
  path : option string;
  interactive : bool;
  resolution : option string;
  log_file : option string
}.

(** [^https?://(?:[a-zA-Z0-9-]+\.)+[a-zA-Z]{2,}/] *)
Definition REFERER_RE : regex :=
  Seq Bol
   (Seq (lit "http")
    (Seq (Opt (Chr "s"))
     (Seq (lit "://")
      (Seq (Plus true (Seq (Plus true (Cls alnum_dash)) (Chr ".")))
       (Seq (AtLeast2 (Cls alpha)) (Chr "/")))))).

Definition with_referer (c : DownloadConfig) (r : string) : DownloadConfig :=
  mkConfig r (embed_url c) (name c) (path c) (interactive c) (resolution c)
           (log_file c).

(** The referer after the trailing-slash step. *)
Definition normalized_referer (r : string) : string :=
  if endswith "/" r then r else r ++ "/".

(** [DownloadConfig.__post_init__]: the exception it raises, or the
    configuration as it stands after the call. *)
Definition __post_init__ (c : DownloadConfig) : exn + DownloadConfig :=
  if negb (truthy (referer c)) || negb (truthy (embed_url c)) then
    inl (ConfigurationError "Referer and Embed URL are required.")
  else
    let c := if negb (endswith "/" (referer c))
             then with_referer c (referer c ++ "/") else c in
    match re_match REFERER_RE (referer c) with
    | None =>
        inl (ConfigurationError
               ("Invalid referer URL: " ++ referer c
                ++ ". Must be http(s)://domain.tld/"))
    | Some _ => inr c
    end.

End Config.

Import Config.

(* ================================================================== *)
(** * Library functions taken as given *)
(* ================================================================== *)

(** What [re.search] raises that is not [re.error]: [ValueError] (flags
    that exclude each other), or an exception of another built-in class
    ([OverflowError] for a repetition count too large, [RecursionError]),
    named by its class. *)
Inductive re_raised : Type :=
| ReValueError (msg : string)
| ReOtherError (cls msg : string).

Definition exn_of_re (e : re_raised) : exn :=
  match e with
  | ReValueError msg => ValueError msg
  | ReOtherError cls msg => OtherError cls msg
  end.

(** Outcome of [re.search(pattern, s)] for a pattern supplied by the user at
    run time: a match, no match, [re.error] from compiling the pattern, or
    another exception. *)
Inductive re_outcome : Type :=
| ReMatch
| ReNoMatch
| ReError
| ReRaise (e : re_raised).

(** Python floats with the operations the source applies to them, and the
    other library functions whose results the source only passes on. *)
Class PyLib : Type := {
  pyfloat : Type;
  float_zero : pyfloat;                        (* 0.0 *)
  float_one : pyfloat;                         (* 1.0 *)
  float_add : pyfloat -> pyfloat -> pyfloat;
  float_round6 : pyfloat -> pyfloat;           (* round(x, 6) *)
  float_str : pyfloat -> string;               (* str(x) *)
  re_search : string -> string -> re_outcome;  (* re.search(pattern, s) *)
  parse_int : string -> option Z;              (* int(s); None: ValueError *)
  int_error : string -> string;                (* the text of that ValueError *)
  unescape : string -> string;                 (* html.unescape *)
  urlparse_path : string -> string;            (* urlparse(u).path *)
  urlparse_error : string -> option string     (* the text of the ValueError
                                                  that urlparse(u) raises,
                                                  when it does *)
}.

(* ================================================================== *)
(** * Header bundles (src/src/headers.py) *)
(* ================================================================== *)

Module Headers.

Definition dict : Type := list (string * string).

Fixpoint get (k : string) (d : dict) : option string :=
  match d with
  | [] => None
  | (k', v) :: rest => if String.eqb k k' then Some v else get k rest
  end.

(** [d[k] = v]: the value is replaced in place, a new key goes last. *)
Fixpoint set (k v : string) (d : dict) : dict :=
  match d with
  | [] => [(k, v)]
  | (k', v') :: rest =>
      if String.eqb k k' then (k, v) :: rest else (k', v') :: set k v rest
  end.

(** The random browser identity of [__post_init__] is drawn outside: its two
    results are fields here. *)
Record BunnyHeaders : Type := mkHeaders {
  h_referer : string;
  h_embed_url : string;
  h_server_id : string;
  _ua_headers : dict;
  _accept_language : string
}.

Definition user_agent (h : BunnyHeaders) : dict := _ua_headers h.

Definition embed (h : BunnyHeaders) : dict :=
  [ ("authority", "iframe.mediadelivery.net");
    ("accept", "*/*");
    ("accept-language", _accept_language h);
    ("cache-control", "no-cache");
    ("pragma", "no-cache");
    ("referer", h_referer h);
    ("sec-fetch-dest", "iframe");
    ("sec-fetch-mode", "navigate");
    ("sec-fetch-site", "cross-site");
    ("upgrade-insecure-requests", "1") ].

Definition ping_activate (h : BunnyHeaders) : dict :=
  let headers :=
    [ ("accept", "*/*");
      ("accept-language", _accept_language h);
      ("cache-control", "no-cache");
      ("origin", "https://iframe.mediadelivery.net");
      ("pragma", "no-cache");
      ("referer", "https://iframe.mediadelivery.net/");
      ("sec-fetch-dest", "empty");
      ("sec-fetch-mode", "cors");
      ("sec-fetch-site", "same-site") ] in
  if truthy (h_server_id h)
  then headers
       ++ [("authority",
            ("video-" ++ h_server_id h ++ ".mediadelivery.net")%string)]
  else headers.

Definition playlist (h : BunnyHeaders) : dict :=
  [ ("authority", "iframe.mediadelivery.net");
    ("accept", "*/*");
    ("accept-language", _accept_language h);
    ("cache-control", "no-cache");
    ("pragma", "no-cache");
    ("referer", h_embed_url h);
    ("sec-fetch-dest", "empty");
    ("sec-fetch-mode", "cors");
    ("sec-fetch-site", "same-origin") ].

Definition with_server_id (h : BunnyHeaders) (sid : string) : BunnyHeaders :=
  mkHeaders (h_referer h) (h_embed_url h) sid (_ua_headers h)
            (_accept_language h).

End Headers.

Import Headers.

(* ================================================================== *)
(** * The world: events, oracles, state and the monad of the methods *)
(* ================================================================== *)

Inductive thread : Type := MainThread | PingThread.

Record request : Type := mkRequest {
  url : string;
  params : dict;
  headers : dict
}.

Inductive http_result : Type :=
| Response (status : Z) (text : string)
| Failure (msg : string).            (* session.get raised RequestException *)

(** The options handed to yt-dlp that vary from run to run; the others are
    constants of the source. *)
Record ydl_opts : Type := mkYdlOpts {
  http_headers : dict;
  outtmpl : string;
  paths_home : string;
  paths_temp : string
}.

Inductive event : Type :=
| Get (t : thread) (r : request)       (* session.get(url, params, headers) *)
| Print (line : string)
| Input (prompt : string)
| ThreadStart (resolution : string)    (* ping_thread.start() *)
| IsSet (b : bool)                     (* the ping thread read stop_event.is_set() *)
| Sleep                                (* time.sleep(1) in the ping thread *)
| YdlDownload (urls : list string) (opts : ydl_opts)
| YdlDone (raised : option exn)
| StopSet                              (* stop_event.set() *)
| Join                                 (* ping_thread.join() returned *)
| SessionClose.                        (* session.close() *)

Definition trace : Type := list event.

(** Result of a call: a value, an exception, or a call that never returns
    (a [join] on a thread that does not finish). *)
Inductive outcome (A : Type) : Type :=
| Ok (a : A)
| Raise (e : exn)
| Hang.

Arguments Ok {A} a.
Arguments Raise {A} e.
Arguments Hang {A}.

Section Downloader.

Local Open Scope string_scope.

Context {L : PyLib}.

(** The time position of a ping is the [int] 0 of the priming ping or a
    [float] of the ping thread; both are formatted by [str]. *)
Inductive pynum : Type :=
| PyInt (z : Z)
| PyFloat (x : pyfloat).

Definition py_str (n : pynum) : string :=
  match n with
  | PyInt z => str_of_int z
  | PyFloat x => float_str x
  end.

(** Where the ping thread stands in [_background_ping]. *)
Inductive ping_thread_state : Type :=
| NotStarted
| AtLoopTest (res_val : string) (time_pos : pyfloat)
| AtPing (res_val : string) (time_pos : pyfloat)
| AtSleep (res_val : string) (time_pos : pyfloat)
| Finished.

(** The oracles.  Each one is asked with the events so far, and each one
    answers: the network with a response or a [RequestException], yt-dlp by
    returning or raising.  A call that blocks for ever is not among the
    answers. *)
Record Env : Type := mkEnv {
  net : trace -> request -> http_result;
  stdin : trace -> option string;          (* input(); None: no line read *)
  stdin_error : trace -> option string;    (* when no line is read: the text
                                              of the UnicodeDecodeError of
                                              input(), a ValueError; None:
                                              the end of the input *)
  ydl : trace -> option exn;               (* how the yt-dlp block ends *)
  sched : trace -> nat;                    (* steps granted to the ping thread *)
  random : trace -> pyfloat;               (* random() *)
  identity : dict * string;                (* ua headers, accept-language *)
  identity_error : option (string * string);
                                           (* class and text of the exception
                                              of the generator of the
                                              identity, when it refuses
                                              what was drawn *)
  cwd : string;                            (* Path.cwd() *)
  cwd_error : option string;               (* the text of the
                                              FileNotFoundError of
                                              Path.cwd(), when the working
                                              directory is gone *)
  expanduser : string -> string;           (* str(Path(p).expanduser()) *)
  expanduser_error : string -> option string;
                                           (* the text of the RuntimeError
                                              that expanduser raises, when
                                              it does *)
  http_error : trace -> request -> string  (* the text of the HTTPError that
                                              raise_for_status raises for
                                              the response to a request *)
}.

Record State : Type := mkSt {
  events : trace;
  stop_event : bool;
  ping_thread : ping_thread_state;
  session_closed : bool
}.

Definition initial : State := mkSt [] false NotStarted false.

Definition M (A : Type) : Type := State -> outcome A * State.

Definition ret {A} (a : A) : M A := fun st => (Ok a, st).

Definition bind {A B} (m : M A) (k : A -> M B) : M B :=
  fun st =>
    match m st with
    | (Ok a, st') => k a st'
    | (Raise e, st') => (Raise e, st')
    | (Hang, st') => (Hang, st')
    end.

Definition raise {A} (e : exn) : M A := fun st => (Raise e, st).

(** [try: m  except <class>: handler]; [catches] says which exceptions the
    clause catches. *)
Definition try_except {A} (m : M A) (catches : exn -> bool)
           (handler : exn -> M A) : M A :=
  fun st =>
    match m st with
    | (Raise e, st') => if catches e then handler e st' else (Raise e, st')
    | r => r
    end.

(** [try: m  finally: cleanup] *)
Definition try_finally {A} (m : M A) (cleanup : M unit) : M A :=
  fun st =>
    match m st with
    | (Hang, st') => (Hang, st')
    | (r, st') =>
        match cleanup st' with
        | (Ok _, st'') => (r, st'')
        | (Raise e, st'') => (Raise e, st'')
        | (Hang, st'') => (Hang, st'')
        end
    end.

Notation "x <- c1 ;; c2" := (bind c1 (fun x => c2))
  (at level 61, c1 at next level, right associativity).
Notation "c1 ;;; c2" := (bind c1 (fun _ => c2))
  (at level 61, right associativity).

Definition log (e : event) (st : State) : State :=
  mkSt (events st ++ [e])%list (stop_event st) (ping_thread st) (session_closed st).

Definition set_thread (p : ping_thread_state) (st : State) : State :=
  mkSt (events st) (stop_event st) p (session_closed st).

Definition emit (e : event) : M unit := fun st => (Ok tt, log e st).

Definition is_RequestException (e : exn) : bool :=
  match e with RequestException _ => true | _ => false end.
Definition is_ValueError (e : exn) : bool :=
  match e with ValueError _ => true | _ => false end.
Definition any_Exception (e : exn) : bool := true.

Definition exn_str (e : exn) : string :=
  match e with
  | ConfigurationError m | NetworkError m | ExtractionError m
  | PlaylistError m | RequestException m | ValueError m
  | RuntimeError m | OtherError _ m | ExternalError m => m
  | EOFError => "EOF when reading a line"
  end.

Variable env : Env.

(** [self.session.get(url, params=..., headers=...)], issued by thread [t]:
    the response, or [RequestException].  The event holds the arguments of
    the call; the headers that the session adds to every request (the user
    agent set by the constructor) are not repeated in it. *)
Definition session_get (t : thread) (r : request) : M (Z * string) :=
  fun st =>
    match net env (events st) r with
    | Response status text => (Ok (status, text), log (Get t r) st)
    | Failure msg => (Raise (RequestException msg), log (Get t r) st)
    end.

(** [response.raise_for_status()] on the response to [r]: [HTTPError], a
    [RequestException], for a status from 400 to 599.  Its text names the
    status, the reason the server gave and the URL of the response; it is
    the library's. *)
Definition raise_for_status (r : request) (status : Z) : M unit :=
  fun st =>
    if ((400 <=? status) && (status <? 600))%Z
    then (Raise (RequestException (http_error env (events st) r)), st)
    else (Ok tt, st).

Definition print (line : string) : M unit := emit (Print line).

Definition input (prompt : string) : M string :=
  fun st =>
    match stdin env (events st) with
    | Some line => (Ok line, log (Input prompt) st)
    | None =>
        match stdin_error env (events st) with
        | Some msg => (Raise (ValueError msg), log (Input prompt) st)
        | None => (Raise EOFError, log (Input prompt) st)
        end
    end.

(* ------------------------------------------------------------------ *)
(** ** The downloader object (src/src/downloader.py) *)
(* ------------------------------------------------------------------ *)

Record BunnyVideoDRM : Type := mkDRM {
  config : DownloadConfig;
  headers_manager : BunnyHeaders;
  guid : string;
  server_id : string;
  context_id : string;
  secret : string;
  file_name : string;
  path : string
}.

(** [https://video-(.*?)\.mediadelivery\.net] *)
Definition SERVER_ID_RE : regex :=
  Seq (lit "https://video-")
      (Seq (Group 1 (Star false (Cls dot))) (lit ".mediadelivery.net")).

(** [contextId=(.*?)&secret=(.*?)] followed by a double quote *)
Definition CONTEXT_RE : regex :=
  Seq (lit "contextId=")
   (Seq (Group 1 (Star false (Cls dot)))
    (Seq (lit "&secret=")
     (Seq (Group 2 (Star false (Cls dot))) (Chr dquote)))).

(** [og:title], a double quote, [ content=], a double quote, [(.*?)], a
    double quote *)
Definition TITLE_RE : regex :=
  Seq (lit "og:title")
   (Seq (Chr dquote)
    (Seq (lit " content=")
     (Seq (Chr dquote)
      (Seq (Group 1 (Star false (Cls dot))) (Chr dquote))))).

(** [\s*(.*?)\s*/video\.drm] *)
Definition RESOLUTION_RE : regex :=
  Seq (Star true (Cls space))
   (Seq (Group 1 (Star false (Cls dot)))
    (Seq (Star true (Cls space)) (lit "/video.drm"))).

(** [m.group(n)] of a match; a group that took no part gives the empty
    string here (the groups of the patterns above always take part). *)
Definition group_of (n : nat) (m : result) : string :=
  match group n (snd m) with
  | Some v => v
  | None => ""
  end.

(** What [_parse_embed_page] stores on the object. *)
Record embed_data : Type := mkEmbed {
  e_server_id : string;
  e_context_id : string;
  e_secret : string;
  e_file_name : string
}.

Definition extract_server_id (embed_page : string) : M string :=
  try_except
    (match search SERVER_ID_RE embed_page with
     | None => raise (ValueError "Could not find server ID")
     | Some m => ret (group_of 1 m)
     end)
    is_ValueError
    (fun _ => raise (ExtractionError "Could not extract server ID.")).

Definition extract_context (embed_page : string) : M (string * string) :=
  try_except
    (match search CONTEXT_RE embed_page with
     | None => raise (ValueError "Could not find context ID or secret")
     | Some m => ret (group_of 1 m, group_of 2 m)
     end)
    is_ValueError
    (fun _ => raise (ExtractionError "Could not extract context ID and secret.")).

Definition extract_file_name (cfg : DownloadConfig) (embed_page : string)
  : M string :=
  if truthy_opt (Config.name cfg) then
    ret (match Config.name cfg with Some n => n | None => "" end ++ ".mp4")
  else
    try_except
      (match search TITLE_RE embed_page with
       | Some m =>
           let file_name := unescape (group_of 1 m) in
           ret (if endswith ".mp4" file_name then file_name
                else file_name ++ ".mp4")
       | None => raise (ValueError "Could not find og:title")
       end)
      any_Exception
      (fun _ => raise (ExtractionError "Could not extract video title.")).

Definition embed_request (cfg : DownloadConfig) (hm : BunnyHeaders)
  : request :=
  mkRequest (embed_url cfg) [] (Headers.embed hm).

(** [_parse_embed_page]: one GET of the embed page, then the three
    extractions in the order of the source. *)
Definition _parse_embed_page (cfg : DownloadConfig) (hm : BunnyHeaders)
  : M embed_data :=
  embed_page <-
    try_except
      (resp <- session_get MainThread (embed_request cfg hm) ;;
       raise_for_status (embed_request cfg hm) (fst resp) ;;;
       ret (snd resp))
      is_RequestException
      (fun e => raise (NetworkError ("Error fetching embed page: " ++ exn_str e))) ;;
  sid <- extract_server_id embed_page ;;
  cs <- extract_context embed_page ;;
  fname <- extract_file_name cfg embed_page ;;
  ret (mkEmbed sid (fst cs) (snd cs) fname).

(** [BunnyHeaders(referer=..., embed_url=...)], with the identity drawn
    at random by its [__post_init__]. *)
Definition new_headers (cfg : DownloadConfig) : BunnyHeaders :=
  mkHeaders (referer cfg) (embed_url cfg) ""
            (fst (identity env)) (snd (identity env)).

(** What the last statement of the constructor raises: the [RuntimeError]
    of [expanduser] on the configured path, or, without a path, the
    [FileNotFoundError] of [Path.cwd()]. *)
Definition path_error (cfg : DownloadConfig) : option exn :=
  if truthy_opt (Config.path cfg)
  then option_map RuntimeError
         (expanduser_error env
            (match Config.path cfg with Some p => p | None => "" end))
  else option_map (OtherError "FileNotFoundError") (cwd_error env).

(** [BunnyVideoDRM.__init__].  The fields that [_parse_embed_page] sets on
    the object, and the server id it sets on the headers manager, are put in
    place here, from what [_parse_embed_page] returns.  The library calls of
    the constructor that may raise do so where they stand: the generator of
    the identity and [urlparse] before the embed page is asked for,
    [expanduser] and [Path.cwd()] after it was read. *)
Definition __init__ (cfg : DownloadConfig) : M BunnyVideoDRM :=
  if negb (truthy (referer cfg)) || negb (truthy (embed_url cfg)) then
    raise (ConfigurationError "Referer and Embed URL are required.")
  else
    match identity_error env with
    | Some (cls, msg) => raise (OtherError cls msg)
    | None =>
        let hm := new_headers cfg in
        match urlparse_error (embed_url cfg) with
        | Some msg => raise (ValueError msg)
        | None =>
            let guid := split_last "/" (urlparse_path (embed_url cfg)) in
            d <- _parse_embed_page cfg hm ;;
            match path_error cfg with
            | Some e => raise e
            | None =>
                let path :=
                  if truthy_opt (Config.path cfg)
                  then expanduser env
                         (match Config.path cfg with
                          | Some p => p
                          | None => ""
                          end)
                  else cwd env in
                ret (mkDRM cfg (with_server_id hm (e_server_id d)) guid
                           (e_server_id d) (e_context_id d) (e_secret d)
                           (e_file_name d) path)
            end
        end
    end.

(** [_ping], called from thread [t]. *)
Definition ping_message (self : BunnyVideoDRM) (time_pos : pynum)
           (paused res : string) : string :=
  secret self ++ "_" ++ context_id self ++ "_" ++ py_str time_pos ++ "_"
    ++ paused ++ "_" ++ res.

Definition ping_url (self : BunnyVideoDRM) : string :=
  "https://video-" ++ server_id self ++ ".mediadelivery.net/.drm/"
    ++ context_id self ++ "/ping".

Definition activate_url (self : BunnyVideoDRM) : string :=
  "https://video-" ++ server_id self ++ ".mediadelivery.net/.drm/"
    ++ context_id self ++ "/activate".

Definition playlist_url (self : BunnyVideoDRM) : string :=
  "https://iframe.mediadelivery.net/" ++ guid self ++ "/playlist.drm".

Definition video_url (self : BunnyVideoDRM) (resolution : string) : string :=
  "https://iframe.mediadelivery.net/" ++ guid self ++ "/" ++ resolution
    ++ "/video.drm".

Definition ping_request (self : BunnyVideoDRM) (time_pos : pynum)
           (paused res : string) : request :=
  let md5_hash := MD5.hexdigest (ping_message self time_pos paused res) in
  let params :=
    [ ("hash", md5_hash);
      ("time", py_str time_pos);
      ("paused", paused);
      ("chosen_res", res) ] in
  mkRequest (ping_url self) params (ping_activate (headers_manager self)).

Definition _ping (t : thread) (self : BunnyVideoDRM) (time_pos : pynum)
           (paused res : string) : M unit :=
  try_except
    (session_get t (ping_request self time_pos paused res) ;;; ret tt)
    is_RequestException
    (fun _ => ret tt).

Definition activate_request (self : BunnyVideoDRM) : request :=
  mkRequest (activate_url self) [] (ping_activate (headers_manager self)).

Definition _activate (self : BunnyVideoDRM) : M unit :=
  try_except
    (session_get MainThread (activate_request self) ;;; ret tt)
    is_RequestException
    (fun _ => ret tt).

(** How the loop over the renditions ends: it returns a label, an
    exception leaves it, or it runs to its end. *)
Inductive loop_end : Type :=
| Returned (res : string)
| Escaped (e : exn)
| RanOut.

(** The loop over the renditions for a configured target: it returns the
    first label that equals the target or that the target, as a pattern,
    matches.  [re.error] is caught and the loop goes on; any other exception
    of [re.search] leaves the loop. *)
Fixpoint select_target (target : string) (resolutions : list string)
  : loop_end :=
  match resolutions with
  | [] => RanOut
  | res :: rest =>
      if String.eqb target res then Returned res
      else
        match re_search target res with
        | ReMatch => Returned res
        | ReNoMatch | ReError => select_target target rest
        | ReRaise e => Escaped (exn_of_re e)
        end
  end.

Definition not_found_message (target : string) (resolutions : list string)
  : string :=
  "Requested resolution '" ++ target
    ++ "' not found in available resolutions: " ++ list_repr resolutions.

Fixpoint print_resolutions (idx : Z) (resolutions : list string) : M unit :=
  match resolutions with
  | [] => ret tt
  | res :: rest =>
      print (str_of_int idx ++ ". " ++ res) ;;;
      print_resolutions (idx + 1) rest
  end.

Definition select_interactive (resolutions : list string) : M string :=
  let n := Z.of_nat (List.length resolutions) in
  print (String newline "Available resolutions:") ;;;
  print_resolutions 1 resolutions ;;;
  try_except
    (choice <- input (String newline "Select resolution (1-"
                        ++ str_of_int n ++ "): ") ;;
     match parse_int choice with
     | None => raise (ValueError (int_error choice))
     | Some c =>
         let choice_idx := (c - 1)%Z in
         if ((0 <=? choice_idx) && (choice_idx <? n))%Z
         then ret (nth (Z.to_nat choice_idx) resolutions "")
         else raise (ValueError "Invalid selection index.")
     end)
    is_ValueError
    (fun e => raise (PlaylistError ("Invalid resolution selection: "
                                    ++ exn_str e))).

(** The renditions of a manifest body, highest quality first. *)
Definition parse_resolutions (text : string) : list string :=
  rev (findall RESOLUTION_RE text).

(** The selection policy of [_get_main_playlist], applied to a non-empty
    list. *)
Definition select_resolution (cfg : DownloadConfig)
           (resolutions : list string) : M string :=
  if truthy_opt (Config.resolution cfg) then
    let target := match Config.resolution cfg with
                  | Some t => t | None => "" end in
    match select_target target resolutions with
    | Returned res => ret res
    | Escaped e => raise e
    | RanOut => raise (PlaylistError (not_found_message target resolutions))
    end
  else if Config.interactive cfg then select_interactive resolutions
  else ret (nth 0 resolutions "").

Definition playlist_request (self : BunnyVideoDRM) : request :=
  mkRequest (playlist_url self)
            [("contextId", context_id self); ("secret", secret self)]
            (Headers.playlist (headers_manager self)).

Definition _get_main_playlist (self : BunnyVideoDRM) : M string :=
  try_except
    (resp <- session_get MainThread (playlist_request self) ;;
     raise_for_status (playlist_request self) (fst resp) ;;;
     let resolutions := parse_resolutions (snd resp) in
     match resolutions with
     | [] => raise (PlaylistError "No resolutions found.")
     | _ :: _ => select_resolution (config self) resolutions
     end)
    is_RequestException
    (fun e => raise (NetworkError ("Error fetching playlist: " ++ exn_str e))).

Definition video_playlist_request (self : BunnyVideoDRM)
           (resolution : string) : request :=
  mkRequest (video_url self resolution)
            [("contextId", context_id self)]
            (Headers.playlist (headers_manager self)).

Definition _video_playlist (self : BunnyVideoDRM) (resolution : string)
  : M unit :=
  try_except
    (session_get MainThread (video_playlist_request self resolution) ;;; ret tt)
    is_RequestException
    (fun _ => ret tt).

(* ------------------------------------------------------------------ *)
(** ** The ping thread and [download] *)
(* ------------------------------------------------------------------ *)

(** [_background_ping] as it is written, run with nothing else touching the
    flag: the loop test, and for each turn the ping, the increment and the
    sleep.  [turns] bounds the turns; a loop that has not seen the flag set
    by then has not returned. *)
Fixpoint _background_ping_loop (turns : nat) (self : BunnyVideoDRM)
         (res_val : string) (time_pos : pyfloat) : M unit :=
  fun st =>
    if stop_event st then (Ok tt, log (IsSet true) st)
    else
      match turns with
      | O => (Hang, st)
      | S turns' =>
          ((fun st' =>
              _ping PingThread self
                    (PyFloat (float_add time_pos
                                (float_round6 (random env (events st')))))
                    "false" res_val st') ;;;
           emit Sleep ;;;
           _background_ping_loop turns' self res_val
                                 (float_add time_pos float_one))
            (log (IsSet false) st)
      end.

Definition _background_ping (turns : nat) (self : BunnyVideoDRM)
           (resolution : string) : M unit :=
  let res_val := split_last "x" resolution in
  let time_pos := float_zero in
  _background_ping_loop turns self res_val time_pos.

(** The same thread, run next to the main thread, a step at a time: the loop
    test (a read of the stop flag), the ping of the loop body, or the
    increment and the sleep that end the body.  A thread that is not running
    does not move. *)
Definition ping_thread_step (self : BunnyVideoDRM) (st : State) : State :=
  match ping_thread st with
  | NotStarted | Finished => st
  | AtLoopTest res_val time_pos =>
      if stop_event st
      then set_thread Finished (log (IsSet true) st)
      else set_thread (AtPing res_val time_pos) (log (IsSet false) st)
  | AtPing res_val time_pos =>
      let jitter := float_round6 (random env (events st)) in
      match _ping PingThread self (PyFloat (float_add time_pos jitter))
                  "false" res_val st with
      | (Ok _, st') => set_thread (AtSleep res_val time_pos) st'
      | (_, st') => set_thread Finished st'
      end
  | AtSleep res_val time_pos =>
      set_thread (AtLoopTest res_val (float_add time_pos float_one))
                 (log Sleep st)
  end.

Fixpoint ping_thread_steps (n : nat) (self : BunnyVideoDRM) (st : State)
  : State :=
  match n with
  | O => st
  | S n' => ping_thread_steps n' self (ping_thread_step self st)
  end.

(** A point where the main thread may lose the processor: the scheduler
    grants the ping thread some steps. *)
Definition yield_ (self : BunnyVideoDRM) : M unit :=
  fun st => (Ok tt, ping_thread_steps (sched env (events st)) self st).

(** [stop_event = threading.Event()], [ping_thread = threading.Thread(...)],
    [ping_thread.start()]: the thread has run the two assignments that
    precede its loop. *)
Definition start_ping_thread (self : BunnyVideoDRM) (resolution : string)
  : M unit :=
  fun st =>
    (Ok tt,
     mkSt (events st ++ [ThreadStart resolution])%list false
          (AtLoopTest (split_last "x" resolution) float_zero)
          (session_closed st)).

Definition stop_event_set : M unit :=
  fun st =>
    (Ok tt, mkSt (events st ++ [StopSet])%list true (ping_thread st)
                 (session_closed st)).

Definition is_finished (p : ping_thread_state) : bool :=
  match p with
  | Finished => true
  | _ => false
  end.

(** [ping_thread.join()]: the thread runs on its own until it has finished;
    with [fuel] steps.  Once the flag is set three steps finish it, and while
    the flag is unset no number of steps does. *)
Definition join_with (fuel : nat) (self : BunnyVideoDRM) : M unit :=
  fun st =>
    match ping_thread st with
    | NotStarted =>
        (Raise (RuntimeError "cannot join thread before it is started"), st)
    | _ =>
        let st' := ping_thread_steps fuel self st in
        if is_finished (ping_thread st') then (Ok tt, log Join st')
        else (Hang, st')
    end.

Definition ping_thread_join (self : BunnyVideoDRM) : M unit :=
  join_with 3 self.

Definition session_close : M unit :=
  fun st =>
    (Ok tt, mkSt (events st ++ [SessionClose])%list (stop_event st)
                 (ping_thread st) true).

(** [with yt_dlp.YoutubeDL(params) as ydl: ydl.download(url)]: the ping
    thread runs while the block does. *)
Definition ydl_download (self : BunnyVideoDRM) (urls : list string)
           (opts : ydl_opts) : M unit :=
  emit (YdlDownload urls opts) ;;;
  yield_ self ;;;
  (fun st =>
     match ydl env (events st) with
     | None => (Ok tt, log (YdlDone None) st)
     | Some e => (Raise e, log (YdlDone (Some e)) st)
     end).

Definition download_url (self : BunnyVideoDRM) (resolution : string)
  : string :=
  video_url self resolution ++ "?contextId=" ++ context_id self.

Definition download_opts (self : BunnyVideoDRM) : ydl_opts :=
  mkYdlOpts
    (Headers.set "Referer" (embed_url (config self))
                 (user_agent (headers_manager self)))
    (file_name self)
    (path self)
    ("." ++ file_name self ++ "/").

(** The [finally] block of [download]. *)
Definition cleanup (self : BunnyVideoDRM) : M unit :=
  yield_ self ;;;
  stop_event_set ;;;
  ping_thread_join self ;;;
  session_close.

(** [BunnyVideoDRM.download] *)
Definition download (self : BunnyVideoDRM) : M unit :=
  _ping MainThread self (PyInt 0) "true" "0" ;;;
  _activate self ;;;
  resolution <- _get_main_playlist self ;;
  _video_playlist self resolution ;;;
  start_ping_thread self resolution ;;;
  yield_ self ;;;
  try_finally
    (ydl_download self [download_url self resolution] (download_opts self))
    (cleanup self).

(** The body of the [try] in [main] (src/main.py): configuration,
    construction, download. *)
Definition main_flow (args : DownloadConfig) : M unit :=
  match Config.__post_init__ args with
  | inl e => raise e
  | inr cfg =>
      video <- __init__ cfg ;;
      download video
  end.

End Downloader.

(* ================================================================== *)
(** * Vocabulary of the properties *)
(* ================================================================== *)

Local Open Scope string_scope.

(** A label of printable ASCII characters, without backslash and without
    single quote. *)
Definition plain_char (c : ascii) : bool :=
  in_range 32 126 c && negb (Ascii.eqb c bslash) && negb (Ascii.eqb c squote).

Definition plain_label (s : string) : bool := str_forallb plain_char s.

Definition is_NetworkError (e : exn) : bool :=
  match e with NetworkError _ => true | _ => false end.

(** The outcome is an exception of the class [p]. *)
Definition raises {A : Type} (p : exn -> bool) (o : outcome A) : bool :=
  match o with
  | Raise e => p e
  | Ok _ | Hang => false
  end.

(** A status for which [raise_for_status] raises. *)
Definition error_status (status : Z) : bool :=
  ((400 <=? status) && (status <? 600))%Z.

(** The manifest call failed: no response, or an error status. *)
Definition http_failed (a : http_result) : bool :=
  match a with
  | Failure _ => true
  | Response status _ => error_status status
  end.

(** [re.match(r, s)] found a match. *)
Definition matches (r : regex) (s : string) : bool :=
  match re_match r s with
  | Some _ => true
  | None => false
  end.

Definition is_match (o : re_outcome) : bool :=
  match o with
  | ReMatch => true
  | ReNoMatch | ReError | ReRaise _ => false
  end.

(** [re.search] raised an exception that is not [re.error]. *)
Definition is_raise (o : re_outcome) : bool :=
  match o with
  | ReRaise _ => true
  | ReMatch | ReNoMatch | ReError => false
  end.

(** The language of a pattern, read at position [pos] of the text: the usual
    semantics of regular expressions.  A turn of a star consumes at least
    one character; groups and the greedy flag do not change the language. *)
Inductive lang : regex -> nat -> string -> Prop :=
| lang_eps (pos : nat) : lang Eps pos ""
| lang_chr (c : ascii) (pos : nat) : lang (Chr c) pos (String c "")
| lang_cls (p : ascii -> bool) (c : ascii) (pos : nat) :
    p c = true -> lang (Cls p) pos (String c "")
| lang_bol : lang Bol 0 ""
| lang_seq (a b : regex) (pos : nat) (w1 w2 : string) :
    lang a pos w1 -> lang b (String.length w1 + pos) w2 ->
    lang (Seq a b) pos (w1 ++ w2)
| lang_alt_l (a b : regex) (pos : nat) (w : string) :
    lang a pos w -> lang (Alt a b) pos w
| lang_alt_r (a b : regex) (pos : nat) (w : string) :
    lang b pos w -> lang (Alt a b) pos w
| lang_star_stop (g : bool) (a : regex) (pos : nat) : lang (Star g a) pos ""
| lang_star_more (g : bool) (a : regex) (pos : nat) (w1 w2 : string) :
    w1 <> "" -> lang a pos w1 ->
    lang (Star g a) (String.length w1 + pos) w2 ->
    lang (Star g a) pos (w1 ++ w2)
| lang_group (n : nat) (a : regex) (pos : nat) (w : string) :
    lang a pos w -> lang (Group n a) pos w.

(** A text that does not begin with a character of class [p]. *)
Definition head_not (p : ascii -> bool) (t : string) : Prop :=
  match t with
  | EmptyString => True
  | String c _ => p c = false
  end.

(** The continuation [k] fails at every position along [l], before the text
    [t] that follows it. *)
Fixpoint fails_along (k : cont) (pos : nat) (l t : string) (cs : caps) : Prop :=
  match l with
  | EmptyString => True
  | String c l' =>
      k pos (String c l' ++ t) cs = None /\ fails_along k (S pos) l' t cs
  end.

(** A clean label has no white space and no slash; a manifest in the plain
    layout lists one label a line, each followed by the marker. *)
Definition label_char (c : ascii) : bool :=
  negb (space c) && negb (Ascii.eqb c "/").
Definition clean_label (l : string) : bool := str_forallb label_char l.

Definition manifest_line (label : string) : string :=
  label ++ "/video.drm" ++ String newline "".

Fixpoint manifest_of (labels : list string) : string :=
  match labels with
  | [] => ""
  | l :: rest => manifest_line l ++ manifest_of rest
  end.

(** The end of the rendition pattern: [\s*/video\.drm]. *)
Definition TAIL : regex := Seq (Star true (Cls space)) (lit "/video.drm").

Section Vocabulary.

Context {L : PyLib}.

(** A rendition label is hit by a target when it equals the target or the
    target, read as a pattern, matches it. *)
Definition hits (target res : string) : bool :=
  String.eqb target res || is_match (re_search target res).

(** The loop over the renditions stops at a label that the target hits, or
    on which [re.search] raises; there it returns the label, or lets the
    exception pass when the label is not the target itself. *)
Definition stops (target res : string) : bool :=
  hits target res || is_raise (re_search target res).

Definition stop_outcome (target res : string) : outcome string :=
  if String.eqb target res then Ok res
  else
    match re_search target res with
    | ReRaise e => Raise (exn_of_re e)
    | ReMatch | ReNoMatch | ReError => Ok res
    end.

(** The selection policy in the words of the specification: an exact match
    anywhere in the list comes first, and only when there is none the first
    label the pattern matches. *)
Definition select_exact_first (target : string) (resolutions : list string)
  : option string :=
  match find (String.eqb target) resolutions with
  | Some res => Some res
  | None => find (fun res => is_match (re_search target res)) resolutions
  end.

(** How the yt-dlp block ends, as an outcome. *)
Definition outcome_of (r : option exn) : outcome unit :=
  match r with
  | None => Ok tt
  | Some e => Raise e
  end.

(** The resolution token a running ping thread holds. *)
Definition thread_res (p : ping_thread_state) : option string :=
  match p with
  | AtLoopTest res_val _ | AtPing res_val _ | AtSleep res_val _ =>
      Some res_val
  | NotStarted | Finished => None
  end.

(** What a ping thread that has not seen the flag set leaves in the trace:
    a loop test that read the flag unset, a ping of [self] with paused
    [false] and the token [res_val] at some float time, or a sleep. *)
Definition tick_event (self : BunnyVideoDRM) (res_val : string) (e : event)
  : Prop :=
  match e with
  | IsSet false => True
  | Sleep => True
  | Get PingThread r =>
      exists x : pyfloat, r = ping_request self (PyFloat x) "false" res_val
  | _ => False
  end.

(** A request of the ping thread is a ping of [self] with paused [false]
    and the token [res_val]. *)
Definition heartbeat_ping_ok (self : BunnyVideoDRM) (res_val : string)
           (e : event) : Prop :=
  match e with
  | Get PingThread r =>
      exists x : pyfloat, r = ping_request self (PyFloat x) "false" res_val
  | _ => True
  end.

End Vocabulary.

(** Events of the ping thread, and the trace of the main thread alone. *)
Definition is_ping_thread_event (e : event) : bool :=
  match e with
  | Get PingThread _ | IsSet _ | Sleep => true
  | _ => false
  end.

Definition main_events (tr : trace) : trace :=
  filter (fun e => negb (is_ping_thread_event e)) tr.

(** Print and input events, which interactive selection leaves. *)
Definition is_console_event (e : event) : bool :=
  match e with
  | Print _ | Input _ => true
  | _ => false
  end.

(** The ping thread read the flag set. *)
Definition saw_stop (e : event) : bool :=
  match e with
  | IsSet true => true
  | _ => false
  end.

Definition is_thread_start (e : event) : bool :=
  match e with
  | ThreadStart _ => true
  | _ => false
  end.


(* ================================================================== *)
(** * Vocabulary of the further properties *)
(* ================================================================== *)

(** The numbered lines that interactive selection prints, from number
    [idx] on. *)
Fixpoint numbered_lines (idx : Z) (rs : list string) : trace :=
  match rs with
  | [] => []
  | r :: rest =>
      Print (str_of_int idx ++ ". " ++ r) :: numbered_lines (idx + 1) rest
  end.

(** What interactive selection has printed when it asks, and its prompt. *)
Definition menu (rs : list string) : trace :=
  Print (String newline "Available resolutions:") :: numbered_lines 1 rs.

Definition prompt (rs : list string) : string :=
  String newline "Select resolution (1-"
    ++ str_of_int (Z.of_nat (List.length rs)) ++ "): ".

(** Record updates of the configuration, and the configuration with every
    empty optional text taken as absent. *)
Definition with_interactive (c : DownloadConfig) (b : bool) : DownloadConfig :=
  mkConfig (referer c) (embed_url c) (name c) (Config.path c) b
           (resolution c) (log_file c).

Definition absent_if_empty (o : option string) : option string :=
  if truthy_opt o then o else None.

Definition without_empty_options (c : DownloadConfig) : DownloadConfig :=
  mkConfig (referer c) (embed_url c) (absent_if_empty (name c))
           (absent_if_empty (Config.path c)) (interactive c)
           (absent_if_empty (resolution c)) (log_file c).

(** The fragments that construction looks for in the embed page: the text
    between the fixed parts holds no newline. *)
Definition has_server_fragment (page : string) : Prop :=
  exists pre sid rest : string,
    page = pre ++ "https://video-" ++ sid ++ ".mediadelivery.net" ++ rest
    /\ str_forallb dot sid = true.

Definition has_context_fragment (page : string) : Prop :=
  exists pre ctx sec rest : string,
    page = pre ++ "contextId=" ++ ctx ++ "&secret=" ++ sec
               ++ String dquote rest
    /\ str_forallb dot ctx = true /\ str_forallb dot sec = true.

Definition has_title_fragment (page : string) : Prop :=
  exists pre title rest : string,
    page = pre ++ "og:title"
               ++ String dquote
                    (" content=" ++ String dquote (title ++ String dquote rest))
    /\ str_forallb dot title = true.

(** Where the text [p] first occurs in [s]. *)
Fixpoint find_sub (p s : string) : option nat :=
  if startswith p s then Some O
  else
    match s with
    | EmptyString => None
    | String _ s' => option_map S (find_sub p s')
    end.

(** A text without the character [c] and without a newline. *)
Definition free_of (c : ascii) (s : string) : bool :=
  str_forallb (fun d => negb (Ascii.eqb c d) && dot d) s.

(** Host labels, each followed by its dot. *)
Fixpoint dotted (labels : list string) : string :=
  match labels with
  | [] => ""
  | l :: rest => l ++ "." ++ dotted rest
  end.

(** A host label: one or more letters, digits or hyphens. *)
Definition host_label (l : string) : Prop :=
  l <> "" /\ str_forallb alnum_dash l = true.

(** The referers that validation accepts, spelled out: the scheme http or
    https, a host of one or more labels each followed by a dot, a last label
    of two or more letters, a slash, and anything after it. *)
Definition referer_shape (r : string) : Prop :=
  exists (scheme : string) (labels : list string) (tld rest : string),
    r = scheme ++ "://" ++ dotted labels ++ tld ++ "/" ++ rest
    /\ (scheme = "http" \/ scheme = "https")
    /\ labels <> []
    /\ Forall host_label labels
    /\ (2 <= String.length tld)%nat
    /\ str_forallb alpha tld = true.

Section MoreVocabulary.

Context {L : PyLib}.

(** Two states with the same stop flag, ping thread and session. *)
Definition same_controls (st st' : State) : Prop :=
  stop_event st' = stop_event st
  /\ ping_thread st' = ping_thread st
  /\ session_closed st' = session_closed st.

(** The time position of the ping thread after [n] turns of its loop,
    from [t]: one is added a turn. *)
Fixpoint time_after (n : nat) (t : pyfloat) : pyfloat :=
  match n with
  | O => t
  | S n' => time_after n' (float_add t float_one)
  end.

End MoreVocabulary.

(* ================================================================== *)
(** * A small concrete runtime, for running the model on examples *)
(* ================================================================== *)

Module Example.

(** The characters with a meaning of their own in a pattern. *)
Definition special (c : ascii) : bool :=
  existsb (Ascii.eqb c) (list_ascii_of_string ".^$+?{}[]|()" ++ [bslash; "*"%char]).

(** [re.search] on the patterns that hold no special character, where it is
    the substring test.  Of the other patterns this runtime knows two on
    which [re.search] raises, a [ValueError] and an [OverflowError]; the
    rest is outside it and is answered [ReError]. *)
Definition plain_search (pattern s : string) : re_outcome :=
  if String.eqb pattern "(?a)(?u)x" then
    ReRaise (ReValueError "ASCII and UNICODE flags are incompatible")
  else if String.eqb pattern "a{4294967296}" then
    ReRaise (ReOtherError "OverflowError" "the repetition number is too large")
  else if str_existsb special pattern then ReError
  else if contains pattern s then ReMatch
  else ReNoMatch.

(** Times as whole numbers of microseconds, written with up to six decimals
    and at least one, which is how Python writes the float of such a time
    from one ten-thousandth of a second up. *)
Fixpoint strip_zeros (fuel : nat) (frac : Z) : Z * nat :=
  match fuel with
  | O => (frac, O)
  | S fuel' =>
      if (frac mod 10 =? 0)%Z then strip_zeros fuel' (frac / 10)
      else (frac, S fuel')
  end.

Fixpoint zero_pad (width : nat) (s : string) : string :=
  if (width <=? String.length s)%nat then s
  else match width with
       | O => s
       | S w => String "0" (zero_pad w s)
       end.

Definition micro_str (us : Z) : string :=
  let '(frac, digits) := strip_zeros 5 (us mod 1000000) in
  str_of_int (us / 1000000) ++ "." ++ zero_pad (S digits) (str_of_int frac).

(** The path of a URL: what follows the host, up to a question mark or a
    hash sign. *)
Fixpoint drop_until (c : ascii) (s : string) : string :=
  match s with
  | EmptyString => ""
  | String d s' => if Ascii.eqb c d then s else drop_until c s'
  end.

Fixpoint take_until (p : ascii -> bool) (s : string) : string :=
  match s with
  | EmptyString => ""
  | String d s' => if p d then "" else String d (take_until p s')
  end.

Definition url_path (u : string) : string :=
  let after_scheme :=
    match drop_until ":" u with
    | String _ (String _ (String _ rest)) => rest
    | _ => ""
    end in
  take_until (fun c => Ascii.eqb c "?" || Ascii.eqb c "#")
             (drop_until "/" after_scheme).

(** [urlparse] refuses a URL with an opening square bracket and no closing
    one. *)
Definition bracket_error (u : string) : option string :=
  if contains "[" u && negb (contains "]" u) then Some "Invalid IPv6 URL"
  else None.

(** [expanduser] finds no home for the user of this name. *)
Definition no_home (p : string) : option string :=
  if startswith "~nosuchuser" p
  then Some "Could not determine home directory."
  else None.

(** The text of the error for a page that is not there. *)
Definition not_found (r : request) : string :=
  "404 Client Error: Not Found for url: " ++ url r.

#[local] Instance lib : PyLib := {
  pyfloat := Z;
  float_zero := 0%Z;
  float_one := 1000000%Z;
  float_add := Z.add;
  float_round6 := fun x => x;
  float_str := micro_str;
  re_search := plain_search;
  parse_int := fun s => option_map Z.of_int (NilZero.int_of_string s);
  int_error := fun s => "invalid literal for int() with base 10: " ++ repr s;
  unescape := fun s => s;
  urlparse_path := url_path;
  urlparse_error := bracket_error
}.

(** A server that answers the embed URL with [embed_page], the manifest URL
    with [manifest] and everything else with an empty page; yt-dlp ends as
    [ydl_result] says, and the scheduler grants [steps] steps at each
    point. *)
Definition server (embed_page manifest : string) (ydl_result : option exn)
           (steps : nat) : Env :=
  mkEnv
    (fun _ r =>
       if endswith "/playlist.drm" (url r) then Response 200 manifest
       else if contains "/embed/" (url r) then Response 200 embed_page
       else Response 200 "")
    (fun _ => Some "1")
    (fun _ => None)
    (fun _ => ydl_result)
    (fun _ => steps)
    (fun _ => 500000%Z)
    ([("user-agent", "Mozilla/5.0")], "en-US,en;q=0.9")
    None
    "/tmp"
    None
    (fun p => p)
    no_home
    (fun _ => not_found).

(** A server whose network is down. *)
Definition offline : Env :=
  mkEnv (fun _ _ => Failure "connection refused") (fun _ => None)
        (fun _ => None) (fun _ => None) (fun _ => O) (fun _ => 0%Z)
        ([("user-agent", "Mozilla/5.0")], "en-US,en;q=0.9") None "/tmp"
        None (fun p => p) no_home (fun _ => not_found).

Definition cfg (target : option string) : DownloadConfig :=
  mkConfig "https://example.com/"
           "https://iframe.mediadelivery.net/embed/1234/abcd"
           None None false target None.

Definition video (target : option string) : BunnyVideoDRM :=
  mkDRM (cfg target)
        (mkHeaders "https://example.com/"
                   "https://iframe.mediadelivery.net/embed/1234/abcd"
                   "srv1" [("user-agent", "Mozilla/5.0")] "en-US,en;q=0.9")
        "abcd" "srv1" "ctx" "s3cr3t" "video.mp4" "/tmp".

Definition three : list string := ["1920x1080"; "1280x720"; "640x480"].

(** The server of a manifest, with a user who types [line] at the prompt. *)
Definition typist (manifest line : string) : Env :=
  mkEnv
    (fun _ r =>
       if endswith "/playlist.drm" (url r) then Response 200 manifest
       else Response 200 "")
    (fun _ => Some line)
    (fun _ => None)
    (fun _ => None)
    (fun _ => O)
    (fun _ => 0%Z)
    ([("user-agent", "Mozilla/5.0")], "en-US,en;q=0.9")
    None
    "/tmp"
    None
    (fun p => p)
    no_home
    (fun _ => not_found).

(** A configuration that asks for interactive selection. *)
Definition ask : DownloadConfig :=
  mkConfig "https://example.com/"
           "https://iframe.mediadelivery.net/embed/1234/abcd"
           None None true None None.

(** An embed page with the three fragments the constructor looks for. *)
Definition q : string := String dquote "".

Definition embed_page : string :=
  ("<meta property=" ++ q ++ "og:title" ++ q ++ " content=" ++ q
   ++ "My Video" ++ q ++ ">"
   ++ "<link href=" ++ q ++ "https://video-srv1.mediadelivery.net/" ++ q
   ++ ">"
   ++ "<script src=" ++ q
   ++ "https://x.test/p.js?contextId=ctx&secret=s3cr3t" ++ q
   ++ "></script>")%string.

(** What a trace is about, event by event. *)
Definition label_of {L : PyLib} (e : event) : string :=
  match e with
  | Get MainThread r => "main GET " ++ url r
  | Get PingThread r =>
      "ping-thread GET " ++ url r ++ " time="
        ++ match Headers.get "time" (params r) with
           | Some t => t
           | None => ""
           end
  | Print _ => "print"
  | Input _ => "input"
  | ThreadStart res => "start ping thread for " ++ res
  | IsSet true => "ping thread reads flag: set"
  | IsSet false => "ping thread reads flag: unset"
  | Sleep => "ping thread sleeps"
  | YdlDownload _ _ => "yt-dlp starts"
  | YdlDone None => "yt-dlp returns"
  | YdlDone (Some _) => "yt-dlp raises"
  | StopSet => "set stop flag"
  | Join => "join returns"
  | SessionClose => "close session"
  end%string.

(** A manifest that lists the three renditions lowest first. *)
Definition manifest3 : string :=
  manifest_of ["640x480"; "1280x720"; "1920x1080"].

End Example.

(* ================================================================== *)
(** * Facts about the string and digest functions *)
(* ================================================================== *)

Lemma hexdigit_lower_hex (n : nat) : is_lower_hex (hexdigit n) = true.
Proof.
  unfold hexdigit.
  destruct (n mod 16)%nat as [|k]; [reflexivity|].
  do 14 (destruct k as [|k]; [reflexivity|]).
  reflexivity.
Qed.

Lemma str_length_app (a b : string) :
  String.length (a ++ b) = String.length a + String.length b.
Proof.
  induction a as [|c a IH]; simpl; [reflexivity | now rewrite IH].
Qed.

Lemma str_forallb_app (p : ascii -> bool) (a b : string) :
  str_forallb p (a ++ b) = str_forallb p a && str_forallb p b.
Proof.
  unfold str_forallb.
  induction a as [|c a IH]; simpl; [reflexivity|].
  now rewrite IH, andb_assoc.
Qed.

Lemma hex_of_bytes_length (bs : list Z) :
  String.length (MD5.hex_of_bytes bs) = 2 * List.length bs.
Proof.
  induction bs as [|b bs IH]; simpl; [reflexivity | rewrite IH; lia].
Qed.

Lemma hex_of_bytes_lower_hex (bs : list Z) :
  str_forallb is_lower_hex (MD5.hex_of_bytes bs) = true.
Proof.
  induction bs as [|b bs IH]; [reflexivity|].
  unfold str_forallb in *; simpl.
  now rewrite !hexdigit_lower_hex, IH.
Qed.

Lemma digest_length (msg : list Z) : List.length (MD5.digest msg) = 16.
Proof.
  unfold MD5.digest, MD5.le_bytes.
  now rewrite !List.length_app, !List.length_map, !List.length_seq.
Qed.

(** A hexadecimal digest is 32 characters long, each a digit or a letter
    from a to f. *)
Lemma hexdigest_shape (s : string) :
  String.length (MD5.hexdigest s) = 32
  /\ str_forallb is_lower_hex (MD5.hexdigest s) = true.
Proof.
  unfold MD5.hexdigest; split.
  - now rewrite hex_of_bytes_length, digest_length.
  - apply hex_of_bytes_lower_hex.
Qed.

(** [str] of an [int] is its decimal numeral: reading it back gives the
    number. *)
Lemma str_of_int_decimal (z : Z) :
  option_map Z.of_int (NilZero.int_of_string (str_of_int z)) = Some z.
Proof.
  unfold str_of_int.
  rewrite NilZero.isi.
  - simpl. now rewrite DecimalZ.of_to.
  - destruct z; simpl; try discriminate.
    intros [= H]. now apply DecimalPos.Unsigned.to_uint_nonnil in H.
  - destruct z; simpl; try discriminate.
    intros [= H]. now apply DecimalPos.Unsigned.to_uint_nonnil in H.
Qed.

Local Open Scope string_scope.

(** Substrings. *)
Lemma startswith_app (p s : string) : startswith p (p ++ s) = true.
Proof.
  induction p as [|c p IH]; simpl; [reflexivity|].
  now rewrite Ascii.eqb_refl, IH.
Qed.

Lemma startswith_app_l (p a b : string) :
  startswith p a = true -> startswith p (a ++ b) = true.
Proof.
  revert a; induction p as [|c p IH]; intros a H; [reflexivity|].
  destruct a as [|d a]; simpl in *; [discriminate|].
  apply andb_true_iff in H as [H1 H2].
  now rewrite H1, (IH _ H2).
Qed.

Lemma contains_cons (p : string) (c : ascii) (s : string) :
  contains p s = true -> contains p (String c s) = true.
Proof.
  intro H. simpl. rewrite H. apply orb_true_r.
Qed.

Lemma contains_app_r (p a b : string) :
  contains p b = true -> contains p (a ++ b) = true.
Proof.
  intro H. induction a as [|c a IH]; [exact H|].
  simpl String.append. now apply contains_cons.
Qed.

Lemma contains_app_l (p a b : string) :
  contains p a = true -> contains p (a ++ b) = true.
Proof.
  induction a as [|c a IH]; intro H.
  - simpl in H. rewrite orb_false_r in H.
    destruct p; [destruct b; reflexivity | discriminate].
  - simpl in H. apply orb_true_iff in H as [H|H].
    + change (contains p (String c a ++ b))
        with (startswith p (String c a ++ b)
              || contains p (a ++ b)).
      now rewrite (startswith_app_l _ _ _ H).
    + simpl String.append. apply contains_cons. now apply IH.
Qed.

Lemma startswith_refl (p : string) : startswith p p = true.
Proof.
  induction p as [|c p IH]; simpl; [reflexivity|].
  now rewrite Ascii.eqb_refl, IH.
Qed.

Lemma startswith_contains (p s : string) :
  startswith p s = true -> contains p s = true.
Proof.
  intro H. destruct s; simpl; now rewrite H.
Qed.

Lemma startswith_app_inv (p t s : string) :
  startswith (p ++ t) s = true -> startswith p s = true.
Proof.
  revert s; induction p as [|c p IH]; intros s H; [reflexivity|].
  destruct s as [|d s]; simpl in *; [discriminate|].
  apply andb_true_iff in H as [H1 H2].
  now rewrite H1, (IH _ H2).
Qed.

Lemma contains_refl (p : string) : contains p p = true.
Proof.
  apply startswith_contains, startswith_refl.
Qed.

Lemma contains_join (sep r : string) (l : list string) :
  In r l -> contains r (join sep l) = true.
Proof.
  induction l as [|x rest IH]; intros Hin; [destruct Hin|].
  destruct rest as [|y rest].
  - destruct Hin as [<-|[]]. apply contains_refl.
  - change (join sep (x :: y :: rest))
      with (x ++ sep ++ join sep (y :: rest)).
    destruct Hin as [<-|Hin].
    + apply contains_app_l, contains_refl.
    + apply contains_app_r, contains_app_r. now apply IH.
Qed.

(** A plain label is written as it is by [repr], between single quotes. *)
Lemma repr_char_plain (c : ascii) :
  plain_char c = true -> repr_char squote c = String c "".
Proof.
  destruct c as [[] [] [] [] [] [] [] []]; intro H;
    solve [discriminate H | reflexivity].
Qed.

Lemma repr_body_plain (s : string) :
  plain_label s = true -> repr_body squote s = s.
Proof.
  unfold plain_label, str_forallb.
  induction s as [|c s IH]; simpl; intro H; [reflexivity|].
  apply andb_true_iff in H as [Hc Hs].
  now rewrite (repr_char_plain _ Hc), (IH Hs).
Qed.

Lemma plain_no_squote (s : string) :
  plain_label s = true -> str_existsb (Ascii.eqb squote) s = false.
Proof.
  unfold plain_label, str_forallb, str_existsb.
  induction s as [|c s IH]; cbn [list_ascii_of_string forallb existsb];
    intro H; [reflexivity|].
  apply andb_true_iff in H as [Hc Hs].
  rewrite (IH Hs), orb_false_r.
  unfold plain_char in Hc.
  apply andb_true_iff in Hc as [_ Hq].
  rewrite Ascii.eqb_sym. now destruct (Ascii.eqb c squote).
Qed.

Lemma repr_quote_plain (s : string) :
  plain_label s = true -> repr_quote s = squote.
Proof.
  intro H. unfold repr_quote. now rewrite (plain_no_squote _ H).
Qed.

Lemma repr_plain (s : string) :
  plain_label s = true -> repr s = String squote (s ++ String squote "").
Proof.
  intro H. unfold repr.
  now rewrite (repr_quote_plain _ H), (repr_body_plain _ H).
Qed.

Lemma contains_repr_plain (s : string) :
  plain_label s = true -> contains s (repr s) = true.
Proof.
  intro H. rewrite (repr_plain _ H).
  apply contains_cons, contains_app_l, contains_refl.
Qed.

Lemma contains_trans_repr (r msg : string) :
  plain_label r = true -> contains (repr r) msg = true ->
  contains r msg = true.
Proof.
  intros Hp. rewrite (repr_plain _ Hp).
  induction msg as [|c msg IH]; intro H.
  - discriminate H.
  - simpl in H. apply orb_true_iff in H as [H|H].
    + apply andb_true_iff in H as [_ H].
      apply contains_cons, startswith_contains.
      now apply startswith_app_inv in H.
    + apply contains_cons. now apply IH.
Qed.

(* ================================================================== *)
(** * The handshake calls *)
(* ================================================================== *)

Section Handshake.

Local Open Scope string_scope.

Context {L : PyLib}.
Variable env : Env.

(** A ping adds exactly its request to the trace and returns, whatever the
    network answers. *)
Lemma ping_run (t : thread) (self : BunnyVideoDRM) (time_pos : pynum)
      (paused res : string) (st : State) :
  _ping env t self time_pos paused res st
  = (Ok tt, log (Get t (ping_request self time_pos paused res)) st).
Proof.
  unfold _ping, try_except, bind, session_get.
  destruct (net env (events st) _); reflexivity.
Qed.

Lemma activate_run (self : BunnyVideoDRM) (st : State) :
  _activate env self st
  = (Ok tt, log (Get MainThread (activate_request self)) st).
Proof.
  unfold _activate, try_except, bind, session_get.
  destruct (net env (events st) _); reflexivity.
Qed.

Lemma video_playlist_run (self : BunnyVideoDRM) (resolution : string)
      (st : State) :
  _video_playlist env self resolution st
  = (Ok tt, log (Get MainThread (video_playlist_request self resolution)) st).
Proof.
  unfold _video_playlist, try_except, bind, session_get.
  destruct (net env (events st) _); reflexivity.
Qed.

(** C1. The ping operation sends one request whose [hash] parameter is the
    lowercase hexadecimal MD5 digest of
    secret_contextId_time_paused_resolutionToken, the five fields joined by
    single underscores with the time written by [str] (for an [int] its
    decimal numeral, so 0 for the priming ping); the digest mentions nothing
    but these five inputs, so equal inputs give equal tokens in every state,
    thread and environment. *)
Theorem ping_token_is_md5 (t : thread) (self : BunnyVideoDRM)
        (time_pos : pynum) (paused res : string) (st : State) :
  let token :=
    MD5.hexdigest (secret self ++ "_" ++ context_id self ++ "_"
                     ++ py_str time_pos ++ "_" ++ paused ++ "_" ++ res) in
  let r := ping_request self time_pos paused res in
  _ping env t self time_pos paused res st = (Ok tt, log (Get t r) st)
  /\ url r = ping_url self
  /\ Headers.get "hash" (params r) = Some token
  /\ Headers.get "time" (params r) = Some (py_str time_pos)
  /\ Headers.get "paused" (params r) = Some paused
  /\ Headers.get "chosen_res" (params r) = Some res
  /\ String.length token = 32
  /\ str_forallb is_lower_hex token = true
  /\ (forall z : Z,
        option_map Z.of_int (NilZero.int_of_string (py_str (PyInt z)))
        = Some z)
  /\ py_str (PyInt 0) = "0".
Proof.
  cbv zeta.
  split; [apply ping_run|].
  do 5 (split; [reflexivity|]).
  split; [apply hexdigest_shape|].
  split; [apply hexdigest_shape|].
  split; [intro z; apply str_of_int_decimal | reflexivity].
Qed.

(** C6. Ping, activate and video-playlist confirmation return normally for
    every answer of the network: the request is recorded and, when the HTTP
    call raises a transport exception (as [session_get] does on a failure
    of the network), the exception goes no further. *)
Theorem best_effort_calls_never_raise (t : thread) (self : BunnyVideoDRM)
        (time_pos : pynum) (paused res resolution : string) (st : State) :
  fst (_ping env t self time_pos paused res st) = Ok tt
  /\ fst (_activate env self st) = Ok tt
  /\ fst (_video_playlist env self resolution st) = Ok tt
  /\ events (snd (_ping env t self time_pos paused res st))
     = (events st ++ [Get t (ping_request self time_pos paused res)])%list
  /\ events (snd (_activate env self st))
     = (events st ++ [Get MainThread (activate_request self)])%list
  /\ events (snd (_video_playlist env self resolution st))
     = (events st
          ++ [Get MainThread (video_playlist_request self resolution)])%list
  /\ (forall (r : request),
        match net env (events st) r with
        | Failure msg =>
            fst (session_get env t r st) = Raise (RequestException msg)
        | Response status text =>
            fst (session_get env t r st) = Ok (status, text)
        end).
Proof.
  rewrite ping_run, activate_run, video_playlist_run.
  do 6 (split; [reflexivity|]).
  intro r. unfold session_get.
  destruct (net env (events st) r); reflexivity.
Qed.

End Handshake.

(* ================================================================== *)
(** * The matcher on the rendition pattern *)
(* ================================================================== *)

Lemma run_eps fuel pos s cs k : run fuel Eps pos s cs k = k pos s cs.
Proof. destruct fuel; reflexivity. Qed.

Lemma run_seq fuel a b pos s cs k :
  run fuel (Seq a b) pos s cs k
  = run fuel a pos s cs (fun pos' s' cs' => run fuel b pos' s' cs' k).
Proof. destruct fuel; reflexivity. Qed.

Lemma run_chr fuel c d s pos cs k :
  run fuel (Chr c) pos (String d s) cs k
  = if Ascii.eqb c d then k (S pos) s cs else None.
Proof. destruct fuel; reflexivity. Qed.

Lemma run_cls fuel p d s pos cs k :
  run fuel (Cls p) pos (String d s) cs k
  = if p d then k (S pos) s cs else None.
Proof. destruct fuel; reflexivity. Qed.

Lemma run_cls_nil fuel p pos cs k :
  run fuel (Cls p) pos "" cs k = None.
Proof. destruct fuel; reflexivity. Qed.

Lemma run_group fuel n a pos s cs k :
  run fuel (Group n a) pos s cs k
  = run fuel a pos s cs
        (fun pos' s' cs' => k pos' s' ((n, take (pos' - pos) s) :: cs')).
Proof. destruct fuel; reflexivity. Qed.

Lemma run_star fuel g a pos s cs k :
  run (S fuel) (Star g a) pos s cs k
  = let more :=
      run (S fuel) a pos s cs
          (fun pos' s' cs' =>
             if (pos <? pos')%nat
             then run fuel (Star g a) pos' s' cs' k
             else None) in
    if g then orelse more (k pos s cs) else orelse (k pos s cs) more.
Proof. reflexivity. Qed.

Lemma ltb_succ (n : nat) : (n <? S n)%nat = true.
Proof. apply Nat.ltb_lt. lia. Qed.

Lemma greedy_star_exact (p : ascii -> bool) (ws : string) :
  forall fuel pos t cs k x,
    str_forallb p ws = true -> head_not p t ->
    (String.length ws < fuel)%nat ->
    k (String.length ws + pos)%nat t cs = Some x ->
    run fuel (Star true (Cls p)) pos (ws ++ t) cs k = Some x.
Proof.
  unfold str_forallb.
  induction ws as [|c ws IH]; intros fuel pos t cs k x Hp Ht Hf Hk;
    (destruct fuel as [|fuel]; [cbn [String.length] in Hf; lia|]); rewrite run_star; cbv zeta.
  - cbn [String.append String.length Nat.add] in *. destruct t as [|d t].
    + now rewrite run_cls_nil.
    + rewrite run_cls. cbn [head_not] in Ht. now rewrite Ht.
  - cbn [list_ascii_of_string forallb] in Hp.
    apply andb_true_iff in Hp as [Hc Hws].
    cbn [String.append]. rewrite run_cls, Hc, ltb_succ.
    rewrite (IH fuel (S pos) t cs k x); auto.
    + cbn [String.length] in Hf. lia.
    + rewrite Nat.add_succ_r. exact Hk.
Qed.

Lemma lazy_star_first (p : ascii -> bool) (l : string) :
  forall fuel pos t cs k x,
    str_forallb p l = true -> (String.length l < fuel)%nat ->
    fails_along k pos l t cs ->
    k (String.length l + pos)%nat t cs = Some x ->
    run fuel (Star false (Cls p)) pos (l ++ t) cs k = Some x.
Proof.
  unfold str_forallb.
  induction l as [|c l IH]; intros fuel pos t cs k x Hp Hf Hfail Hk;
    (destruct fuel as [|fuel]; [cbn [String.length] in Hf; lia|]); rewrite run_star; cbv zeta.
  - cbn [String.append String.length Nat.add] in *. now rewrite Hk.
  - cbn [list_ascii_of_string forallb] in Hp.
    apply andb_true_iff in Hp as [Hc Hl].
    destruct Hfail as [H0 Hrest].
    rewrite H0. cbn [orelse String.append].
    rewrite run_cls, Hc, ltb_succ.
    apply IH; auto.
    + cbn [String.length] in Hf. lia.
    + rewrite Nat.add_succ_r. exact Hk.
Qed.

Lemma label_char_facts (c : ascii) :
  label_char c = true ->
  space c = false /\ dot c = true /\ Ascii.eqb "/" c = false.
Proof.
  destruct c as [[] [] [] [] [] [] [] []]; intro H;
    solve [discriminate H | repeat split].
Qed.

Lemma clean_label_dot (l : string) :
  clean_label l = true -> str_forallb dot l = true.
Proof.
  unfold clean_label, str_forallb.
  induction l as [|c l IH]; cbn [list_ascii_of_string forallb]; intro H;
    [reflexivity|].
  apply andb_true_iff in H as [Hc Hl].
  destruct (label_char_facts c Hc) as (_ & Hd & _).
  now rewrite Hd, IH.
Qed.

Lemma tail_fails (fuel pos : nat) (c : ascii) (s : string) (cs : caps)
      (k : cont) :
  label_char c = true ->
  run (S fuel) TAIL pos (String c s) cs k = None.
Proof.
  intro Hc. destruct (label_char_facts c Hc) as (Hs & _ & Hslash).
  unfold TAIL. rewrite run_seq, run_star. cbv zeta.
  rewrite run_cls, Hs. cbn [orelse lit].
  now rewrite run_seq, run_chr, Hslash.
Qed.

Lemma tail_matches (fuel pos : nat) (t : string) (cs : caps) (k : cont) :
  run (S fuel) TAIL pos ("/video.drm" ++ t) cs k
  = k (10 + pos)%nat t cs.
Proof.
  unfold TAIL. rewrite run_seq, run_star. cbv zeta.
  cbn [String.append]. rewrite run_cls.
  change (space "/") with false. cbn [orelse lit].
  repeat (rewrite run_seq, run_chr, Ascii.eqb_refl).
  rewrite run_eps.
  reflexivity.
Qed.

Lemma take_app (l u : string) (p : nat) :
  take (String.length l + p - p) (l ++ u) = l.
Proof.
  replace (String.length l + p - p)%nat with (String.length l) by lia.
  induction l as [|c l IH]; cbn [String.length String.append take].
  - now destruct u.
  - now rewrite IH.
Qed.

Lemma head_not_space_line (l t : string) :
  clean_label l = true -> head_not space (l ++ "/video.drm" ++ t).
Proof.
  destruct l as [|c l]; [intros _; reflexivity|].
  unfold clean_label, str_forallb.
  cbn [list_ascii_of_string forallb String.append head_not]. intro H.
  apply andb_true_iff in H as [Hc _].
  now destruct (label_char_facts c Hc).
Qed.

Lemma tail_fails_along (l : string) :
  clean_label l = true ->
  forall (fuel p0 : nat) (s0 : string) (p : nat) (t : string),
    fails_along
      (fun pos' s' cs' =>
         run (S fuel) TAIL pos' s' ((1%nat, take (pos' - p0) s0) :: cs')
             accept)
      p l t [].
Proof.
  unfold clean_label, str_forallb.
  induction l as [|c l IH]; intros Hl fuel p0 s0 p t; cbn [fails_along];
    [exact I|].
  cbn [list_ascii_of_string forallb] in Hl.
  apply andb_true_iff in Hl as [Hc Hl].
  split; [|now apply IH].
  cbn [String.append]. now apply tail_fails.
Qed.

(** A line is matched where it stands: the group holds the label. *)
Lemma match_at_line (ws l t : string) (pos : nat) :
  str_forallb space ws = true -> clean_label l = true ->
  match_at RESOLUTION_RE pos (ws ++ l ++ "/video.drm" ++ t)
  = Some ((10 + (String.length l + (String.length ws + pos)))%nat, t,
          [(1%nat, l)]).
Proof.
  intros Hws Hl. unfold match_at, RESOLUTION_RE.
  set (fuel := String.length (ws ++ l ++ "/video.drm" ++ t)).
  assert (Hfuel : (String.length ws + String.length l < S fuel)%nat).
  { unfold fuel. rewrite !str_length_app. lia. }
  rewrite run_seq.
  apply greedy_star_exact; auto; [now apply head_not_space_line | lia |].
  rewrite run_seq, run_group.
  apply lazy_star_first; [now apply clean_label_dot | lia | |].
  - fold TAIL. now apply tail_fails_along.
  - fold TAIL. rewrite tail_matches. unfold accept.
    now rewrite take_app.
Qed.

Lemma search_from_eq (r : regex) (pos : nat) (s : string) :
  search_from r pos s
  = match match_at r pos s with
    | Some m => Some (pos, m)
    | None =>
        match s with
        | EmptyString => None
        | String _ s' => search_from r (S pos) s'
        end
    end.
Proof. destruct s; reflexivity. Qed.

Lemma search_from_blank (pos : nat) :
  search_from RESOLUTION_RE pos "" = None
  /\ search_from RESOLUTION_RE pos (String newline "") = None.
Proof.
  split.
  - reflexivity.
  - unfold search_from, match_at. cbn. rewrite !Nat.leb_refl. reflexivity.
Qed.

Lemma str_app_assoc (a b c : string) : (a ++ b) ++ c = a ++ (b ++ c).
Proof.
  induction a as [|x a IH]; cbn [String.append]; [reflexivity | now rewrite IH].
Qed.

Lemma findall_manifest (labels : list string) :
  forall (fuel pos : nat) (ws : string),
    ws = "" \/ ws = String newline "" ->
    Forall (fun l => clean_label l = true) labels ->
    (List.length labels < fuel)%nat ->
    findall_from fuel RESOLUTION_RE pos (ws ++ manifest_of labels) = labels.
Proof.
  induction labels as [|l rest IH]; intros fuel pos ws Hws Hclean Hfuel;
    (destruct fuel as [|fuel]; [cbn [List.length] in Hfuel; lia|]);
    cbn [findall_from manifest_of].
  - destruct (search_from_blank pos) as [H0 H1].
    destruct Hws as [-> | ->]; cbn [String.append];
      [now rewrite H0 | now rewrite H1].
  - inversion Hclean as [|? ? Hl Hrest]; subst.
    unfold manifest_line. rewrite !str_app_assoc.
    rewrite search_from_eq, match_at_line; auto.
    + cbn [group Nat.eqb].
      replace (pos <? _)%nat with true by (symmetry; apply Nat.ltb_lt; lia).
      f_equal. apply IH; auto.
      cbn [List.length] in Hfuel. lia.
    + destruct Hws as [-> | ->]; reflexivity.
Qed.

Lemma manifest_of_length (labels : list string) :
  (List.length labels <= String.length (manifest_of labels))%nat.
Proof.
  induction labels as [|l rest IH]; cbn [manifest_of List.length]; [lia|].
  unfold manifest_line. rewrite !str_length_app. cbn [String.length]. lia.
Qed.

Lemma parse_manifest_of (labels : list string) :
  Forall (fun l => clean_label l = true) labels ->
  parse_resolutions (manifest_of labels) = rev labels.
Proof.
  intro H. unfold parse_resolutions, findall. f_equal.
  apply (findall_manifest labels _ 0%nat ""); auto.
  pose proof (manifest_of_length labels). lia.
Qed.

(* ------------------------------------------------------------------ *)
(** ** The matcher and the language of a pattern *)
(* ------------------------------------------------------------------ *)

Lemma orelse_some (a b : option result) (x : result) :
  orelse a b = Some x -> a = Some x \/ (a = None /\ b = Some x).
Proof. destruct a; cbn; intro H; [left | right]; auto. Qed.

Lemma run_bol fuel pos s cs k :
  run fuel Bol pos s cs k = if (pos =? 0)%nat then k pos s cs else None.
Proof. destruct fuel; reflexivity. Qed.

Lemma run_alt fuel a b pos s cs k :
  run fuel (Alt a b) pos s cs k
  = orelse (run fuel a pos s cs k) (run fuel b pos s cs k).
Proof. destruct fuel; reflexivity. Qed.

(** Soundness: a result of the matcher comes from a word of the language
    followed by a text the continuation accepts. *)
Lemma run_sound (fuel : nat) :
  forall (r : regex) (pos : nat) (s : string) (cs : caps) (k : cont)
         (x : result),
    run fuel r pos s cs k = Some x ->
    exists (w s' : string) (cs' : caps),
      s = w ++ s' /\ lang r pos w
      /\ k (String.length w + pos)%nat s' cs' = Some x.
Proof.
  induction fuel as [|fuel IHf];
    induction r as [|c|p| |a IHa b IHb|a IHa b IHb|g a IHa|n a IHa];
    intros pos s cs k x H.
  1,9: rewrite run_eps in H; exists "", s, cs;
       repeat split; [constructor | exact H].
  1,8: destruct s as [|d s];
       [ match type of H with run ?f _ _ _ _ _ = _ => destruct f end;
         discriminate H |];
       rewrite run_chr in H; destruct (Ascii.eqb_spec c d); [|discriminate];
       subst; exists (String d ""), s, cs; repeat split;
       [constructor | exact H].
  1,7: destruct s as [|d s]; [now rewrite run_cls_nil in H|];
       rewrite run_cls in H; destruct (p d) eqn:E; [|discriminate];
       exists (String d ""), s, cs; repeat split;
       [now constructor | exact H].
  1,6: rewrite run_bol in H; destruct (Nat.eqb_spec pos 0); [|discriminate];
       subst; exists "", s, cs; repeat split; [constructor | exact H].
  1,5: rewrite run_seq in H;
       apply IHa in H as (w1 & s1 & cs1 & -> & L1 & H);
       apply IHb in H as (w2 & s2 & cs2 & -> & L2 & H);
       exists (w1 ++ w2), s2, cs2; rewrite str_app_assoc;
       repeat split; [now constructor|];
       rewrite str_length_app, (Nat.add_comm (String.length w1)),
         <- Nat.add_assoc; exact H.
  1,4: rewrite run_alt in H; apply orelse_some in H as [H|[_ H]];
       [ apply IHa in H as (w & s' & cs' & -> & Lw & H);
         exists w, s', cs'; repeat split; [now apply lang_alt_l | exact H]
       | apply IHb in H as (w & s' & cs' & -> & Lw & H);
         exists w, s', cs'; repeat split; [now apply lang_alt_r | exact H] ].
  2,4: rewrite run_group in H;
       apply IHa in H as (w1 & s1 & cs1 & -> & L1 & H);
       eexists w1, s1, _; repeat split; [now constructor | exact H].
  - exists "", s, cs. repeat split; [constructor | exact H].
  - rewrite run_star in H. cbv zeta in H.
    assert (Hmore : forall y,
               run (S fuel) a pos s cs
                   (fun pos' s' cs' =>
                      if (pos <? pos')%nat
                      then run fuel (Star g a) pos' s' cs' k else None)
               = Some y ->
               exists (w s' : string) (cs' : caps),
                 s = w ++ s' /\ lang (Star g a) pos w
                 /\ k (String.length w + pos)%nat s' cs' = Some y).
    { intros y Hy.
      apply IHa in Hy as (w1 & s1 & cs1 & -> & L1 & Hy).
      destruct (Nat.ltb_spec pos (String.length w1 + pos)) as [Hlt|];
        [|discriminate].
      apply IHf in Hy as (w2 & s2 & cs2 & -> & L2 & Hy).
      exists (w1 ++ w2), s2, cs2. rewrite str_app_assoc.
      repeat split.
      - apply lang_star_more; auto. intros ->. cbn in Hlt. lia.
      - rewrite str_length_app, (Nat.add_comm (String.length w1)),
          <- Nat.add_assoc. exact Hy. }
    assert (Hstop : forall y,
               k pos s cs = Some y ->
               exists (w s' : string) (cs' : caps),
                 s = w ++ s' /\ lang (Star g a) pos w
                 /\ k (String.length w + pos)%nat s' cs' = Some y).
    { intros y Hy. exists "", s, cs. repeat split; [constructor | exact Hy]. }
    destruct g; apply orelse_some in H as [H|[_ H]]; auto.
Qed.

Lemma orelse_exists (a b : option result) :
  (exists y, a = Some y) \/ (exists y, b = Some y) ->
  exists y, orelse a b = Some y.
Proof.
  intros [[y ->]|[y ->]]; [now exists y|].
  destruct a as [z|]; [now exists z | now exists y].
Qed.

(** Completeness: on a word of the language followed by a text that the
    continuation accepts, the matcher finds a result. *)
Lemma run_complete (r : regex) (pos : nat) (w : string) :
  lang r pos w ->
  forall (fuel : nat) (s' : string) (cs : caps) (k : cont),
    (String.length (w ++ s') < fuel)%nat ->
    (forall cs' : caps,
        exists x, k (String.length w + pos)%nat s' cs' = Some x) ->
    exists y, run fuel r pos (w ++ s') cs k = Some y.
Proof.
  induction 1 as [pos|c pos|p c pos Hp| |a b pos w1 w2 _ IH1 _ IH2
                 |a b pos w _ IH|a b pos w _ IH|g a pos
                 |g a pos w1 w2 Hne _ IHa _ IHs|n a pos w _ IH];
    intros fuel s' cs k Hfuel Hk.
  - rewrite run_eps. apply Hk.
  - cbn [String.append]. rewrite run_chr, Ascii.eqb_refl. apply Hk.
  - cbn [String.append]. rewrite run_cls, Hp. apply Hk.
  - rewrite run_bol. apply Hk.
  - rewrite run_seq, str_app_assoc.
    rewrite str_app_assoc in Hfuel.
    apply IH1; [exact Hfuel|].
    intro cs'. apply IH2.
    + rewrite !str_length_app in *. lia.
    + intro cs''. destruct (Hk cs'') as [x Hx]. exists x.
      rewrite str_length_app, (Nat.add_comm (String.length w1)),
        <- Nat.add_assoc in Hx. exact Hx.
  - rewrite run_alt. apply orelse_exists. left. now apply IH.
  - rewrite run_alt. apply orelse_exists. right. now apply IH.
  - destruct fuel as [|fuel]; [lia|]. rewrite run_star. cbv zeta.
    destruct g; apply orelse_exists; [right | left]; apply Hk.
  - destruct fuel as [|fuel]; [lia|]. rewrite run_star. cbv zeta.
    rewrite str_app_assoc in *.
    assert (Hlen : (0 < String.length w1)%nat).
    { destruct w1; [contradiction | cbn; lia]. }
    assert (Hmore :
              exists y,
                run (S fuel) a pos (w1 ++ w2 ++ s') cs
                    (fun pos' s'' cs' =>
                       if (pos <? pos')%nat
                       then run fuel (Star g a) pos' s'' cs' k else None)
                = Some y).
    { apply IHa; [exact Hfuel|].
      intro cs'.
      replace (pos <? String.length w1 + pos)%nat with true
        by (symmetry; apply Nat.ltb_lt; lia).
      apply IHs.
      - rewrite !str_length_app in *. lia.
      - intro cs''. destruct (Hk cs'') as [x Hx]. exists x.
        rewrite str_length_app, (Nat.add_comm (String.length w1)),
          <- Nat.add_assoc in Hx. exact Hx. }
    destruct g; apply orelse_exists; [left | right]; exact Hmore.
  - rewrite run_group. apply IH; [exact Hfuel|].
    intro cs'. apply Hk.
Qed.

(** The matcher decides the language: [re.match] succeeds exactly on the
    texts that begin with a word of the pattern. *)
Lemma matches_lang (r : regex) (s : string) :
  matches r s = true
  <-> exists w s' : string, s = w ++ s' /\ lang r 0 w.
Proof.
  unfold matches, re_match, match_at. split.
  - destruct (run _ r 0 s [] accept) as [x|] eqn:E; [|discriminate].
    intros _. apply run_sound in E as (w & s' & _ & -> & Hl & _).
    now exists w, s'.
  - intros (w & s' & -> & Hl).
    destruct (run_complete r 0 w Hl (S (String.length (w ++ s'))) s' []
                accept) as [y ->]; [lia | | reflexivity].
    intro cs'. eexists. reflexivity.
Qed.

(* ================================================================== *)
(** * Rendition selection *)
(* ================================================================== *)

Section Selection.

Context {L : PyLib}.
Variable env : Env.

Lemma select_target_stops (target : string) (rs : list string) :
  select_target target rs
  = match find (stops target) rs with
    | Some r =>
        match stop_outcome target r with
        | Raise e => Escaped e
        | Ok _ | Hang => Returned r
        end
    | None => RanOut
    end.
Proof.
  induction rs as [|r rs IH]; [reflexivity|].
  cbn [select_target find]. unfold stops at 1, hits.
  destruct (String.eqb target r) eqn:E.
  - cbn [orb]. unfold stop_outcome. now rewrite E.
  - destruct (re_search target r) eqn:Er; cbn [is_match is_raise orb];
      try exact IH; unfold stop_outcome; now rewrite E, Er.
Qed.

Lemma truthy_neq (s : string) : s <> "" -> truthy s = true.
Proof.
  intro H. unfold truthy.
  destruct (String.eqb_spec s ""); [contradiction | reflexivity].
Qed.

(** With a target configured, selection is the loop and nothing else. *)
Lemma select_resolution_target (cfg : DownloadConfig) (target : string)
      (rs : list string) (st : State) :
  Config.resolution cfg = Some target -> target <> "" ->
  select_resolution env cfg rs st
  = (match find (stops target) rs with
     | Some r => stop_outcome target r
     | None => Raise (PlaylistError (not_found_message target rs))
     end, st).
Proof.
  intros Hres Hne. unfold select_resolution.
  rewrite Hres. cbn [truthy_opt]. rewrite (truthy_neq _ Hne).
  rewrite select_target_stops.
  destruct (find (stops target) rs) as [r|]; [|reflexivity].
  unfold stop_outcome.
  destruct (String.eqb target r); [reflexivity|].
  destruct (re_search target r); reflexivity.
Qed.

(** Where [re.search] raises on no label, the loop stops at the first
    hit. *)
Lemma find_stops_no_raise (target : string) (rs : list string) :
  Forall (fun r => is_raise (re_search target r) = false) rs ->
  match find (stops target) rs with
  | Some r => find (hits target) rs = Some r /\ stop_outcome target r = Ok r
  | None => find (hits target) rs = None
  end.
Proof.
  induction 1 as [|r rs Hr _ IH]; [reflexivity|].
  cbn [find]. unfold stops at 1. rewrite Hr, orb_false_r.
  destruct (hits target r) eqn:Eh; [|exact IH].
  split; [reflexivity|].
  unfold stop_outcome. destruct (String.eqb target r); [reflexivity|].
  destruct (re_search target r); try reflexivity. discriminate.
Qed.

(** When no label equals the target, the first hit is the first label the
    pattern matches. *)
Lemma find_hits_no_exact (target : string) (rs : list string) :
  find (String.eqb target) rs = None ->
  find (hits target) rs
  = find (fun r => is_match (re_search target r)) rs.
Proof.
  induction rs as [|r rs IH]; [reflexivity|].
  unfold hits in *; simpl.
  destruct (String.eqb target r); [discriminate|]. simpl.
  destruct (is_match (re_search target r)); auto.
Qed.

(** C2, as the code has it.  With a target configured, selection goes
    through the renditions once, highest quality first, and stops at the
    first label that equals the target, or that the target, read as a
    pattern, matches, or on which [re.search] raises an exception that is
    not [re.error]: it returns that label, or, in the last case, lets the
    exception pass.  A pattern that does not compile, [re.error], counts as
    no match.  So where [re.search] raises nothing else, selection returns
    the first label that equals the target or that the pattern matches, and
    fails with [PlaylistError] when there is none; and when no label equals
    the target, that is the first label the pattern matches.  On the runtime
    of the examples, target 720 against 1920x1080, 1280x720, 640x480 gives
    1280x720. *)
Theorem explicit_selection_first_hit (cfg : DownloadConfig)
        (target : string) (rs : list string) (st : State) :
  Config.resolution cfg = Some target -> target <> "" ->
  select_resolution env cfg rs st
  = (match find (stops target) rs with
     | Some r => stop_outcome target r
     | None => Raise (PlaylistError (not_found_message target rs))
     end, st)
  /\ (Forall (fun r => is_raise (re_search target r) = false) rs ->
      select_resolution env cfg rs st
      = (match find (hits target) rs with
         | Some r => Ok r
         | None => Raise (PlaylistError (not_found_message target rs))
         end, st))
  /\ match find (String.eqb target) rs with
     | None => find (hits target) rs
               = find (fun r => is_match (re_search target r)) rs
     | Some _ => True
     end
  /\ Forall (fun r => match re_search target r with
                      | ReMatch => hits target r = true
                      | ReNoMatch | ReError | ReRaise _ =>
                          hits target r = String.eqb target r
                      end) rs
  /\ select_target (L:=Example.lib) "720" Example.three
     = Returned "1280x720".
Proof.
  intros Hres Hne.
  split; [now apply select_resolution_target|].
  split.
  { intro Hno. rewrite (select_resolution_target _ _ _ _ Hres Hne).
    pose proof (find_stops_no_raise _ _ Hno) as H.
    destruct (find (stops target) rs) as [r|].
    - destruct H as [-> ->]. reflexivity.
    - now rewrite H. }
  split.
  - destruct (find (String.eqb target) rs) eqn:E; [exact I|].
    now apply find_hits_no_exact.
  - split; [|reflexivity].
    apply Forall_forall. intros r _. unfold hits.
    destruct (re_search target r); simpl;
      solve [apply orb_true_r | apply orb_false_r].
Qed.

(** C8, as the code has it.  With a target configured at which the loop
    stops on no label (no label equals it, the pattern matches none, and
    [re.search] raises nothing but [re.error]), selection raises
    [PlaylistError]; its message ends with the list of the available labels
    as Python writes a list of strings, so it holds the [repr] of every
    label, and every plain label as it is.  For the three labels 1920x1080,
    1280x720, 640x480 and target 4K the message holds all three. *)
Theorem unmatched_target_raises (cfg : DownloadConfig) (target : string)
        (rs : list string) (st : State) :
  Config.resolution cfg = Some target -> target <> "" ->
  find (stops target) rs = None ->
  let msg := not_found_message target rs in
  select_resolution env cfg rs st = (Raise (PlaylistError msg), st)
  /\ contains (list_repr rs) msg = true
  /\ Forall (fun r => contains (repr r) msg = true) rs
  /\ Forall (fun r => contains r msg = true) (filter plain_label rs)
  /\ Forall (fun r => contains r (not_found_message "4K" Example.three) = true)
            Example.three
  /\ find (stops (L:=Example.lib) "4K") Example.three = None.
Proof.
  intros Hres Hne Hnone msg.
  assert (Hlist : contains (list_repr rs) msg = true).
  { unfold msg, not_found_message.
    do 3 apply contains_app_r. apply contains_refl. }
  assert (Hrepr : forall r, In r rs -> contains (repr r) msg = true).
  { intros r Hin. unfold msg, not_found_message, list_repr.
    do 3 apply contains_app_r. apply contains_cons, contains_app_l.
    apply contains_join. now apply in_map. }
  split.
  { rewrite (select_resolution_target _ _ _ _ Hres Hne). now rewrite Hnone. }
  split; [exact Hlist|].
  split; [now apply Forall_forall|].
  split.
  { apply Forall_forall. intros r Hin.
    apply filter_In in Hin as [Hin Hp].
    apply contains_trans_repr; auto. }
  split; [|reflexivity].
  repeat constructor.
Qed.

End Selection.

(* ================================================================== *)
(** * The manifest fetch *)
(* ================================================================== *)

Section Manifest.

Context {L : PyLib}.
Variable env : Env.

Lemma print_resolutions_ok (rs : list string) :
  forall (idx : Z) (st : State),
    fst (print_resolutions idx rs st) = Ok tt.
Proof.
  induction rs as [|r rs IH]; intros idx st; [reflexivity|].
  cbn [print_resolutions]. unfold bind, print, emit. apply IH.
Qed.

(** Selection on a non-empty list returns one of its labels, or raises
    something that is neither a transport error nor a [NetworkError]. *)
Lemma select_resolution_outcome (cfg : DownloadConfig) (rs : list string)
      (st : State) :
  rs <> [] ->
  match fst (select_resolution env cfg rs st) with
  | Ok r => In r rs
  | Raise e => is_RequestException e = false /\ is_NetworkError e = false
  | Hang => False
  end.
Proof.
  intro Hne. unfold select_resolution.
  destruct (truthy_opt (Config.resolution cfg)).
  - rewrite select_target_stops.
    destruct (find _ rs) as [r|] eqn:E; cbn; [|now split].
    apply find_some in E as [Hin _]. unfold stop_outcome.
    destruct (String.eqb _ r); [exact Hin|].
    destruct (re_search _ r) as [| | |e]; cbn; try exact Hin.
    destruct e; now split.
  - destruct (Config.interactive cfg).
    + unfold select_interactive, bind, print, emit.
      destruct (print_resolutions 1 rs _) as [o st1] eqn:Ep.
      pose proof (print_resolutions_ok rs 1
                    (log (Print (String newline "Available resolutions:")) st))
        as Hp.
      rewrite Ep in Hp. cbn in Hp. subst o.
      unfold try_except, bind, input.
      destruct (stdin env (events st1)) as [choice|];
        [|destruct (stdin_error env (events st1)); now split].
      destruct (parse_int choice) as [c|]; cbn; [|now split].
      destruct ((0 <=? c - 1)%Z && (c - 1 <? Z.of_nat (List.length rs))%Z)
        eqn:Er; cbn; [|now split].
      apply andb_true_iff in Er as [H0 H1].
      apply nth_In. lia.
    + destruct rs as [|r rs]; [contradiction|]. now left.
Qed.

(** What the manifest fetch does, case by case on the answer of the
    network. *)
Lemma get_main_playlist_cases (self : BunnyVideoDRM) (st : State) :
  let st' := log (Get MainThread (playlist_request self)) st in
  _get_main_playlist env self st
  = match net env (events st) (playlist_request self) with
    | Failure msg =>
        (Raise (NetworkError ("Error fetching playlist: " ++ msg)), st')
    | Response status text =>
        if error_status status then
          (Raise (NetworkError
                    ("Error fetching playlist: "
                       ++ http_error env (events st') (playlist_request self))),
           st')
        else
          match parse_resolutions text with
          | [] => (Raise (PlaylistError "No resolutions found."), st')
          | r :: rs => select_resolution env (config self) (r :: rs) st'
          end
    end.
Proof.
  cbv zeta.
  unfold _get_main_playlist, try_except, bind, session_get, raise_for_status,
    error_status.
  destruct (net env (events st) (playlist_request self)) as [status text|msg];
    [|reflexivity].
  cbn [fst snd].
  destruct ((400 <=? status)%Z && (status <? 600)%Z); [reflexivity|].
  cbn [ret].
  destruct (parse_resolutions text) as [|r rs]; [reflexivity|].
  pose proof (select_resolution_outcome (config self) (r :: rs)
                (log (Get MainThread (playlist_request self)) st)) as H.
  destruct (select_resolution env (config self) (r :: rs) _) as [[x|e|] st1];
    try reflexivity.
  cbn [fst] in H. destruct H as [H _]; [discriminate|].
  now rewrite H.
Qed.

Lemma rev_head_last (l : list string) (r : string) (rs : list string) :
  rev l = r :: rs -> last l "" = r.
Proof.
  intro H. rewrite <- (rev_involutive l), H. cbn [rev]. apply last_last.
Qed.

(** C7. The manifest fetch raises [NetworkError] exactly when the HTTP call
    fails (the request raises, or the response has an error status); on a
    good response whose body yields no rendition it raises [PlaylistError];
    and it returns a label only on a good response, the label being one of
    the renditions of the body, so an empty manifest is never a success. *)
Theorem manifest_fetch_errors (self : BunnyVideoDRM) (st : State) :
  let answer := net env (events st) (playlist_request self) in
  let out := fst (_get_main_playlist env self st) in
  raises is_NetworkError out = http_failed answer
  /\ match answer with
     | Failure _ => True
     | Response status text =>
         if error_status status then True
         else
           match parse_resolutions text with
           | [] => out = Raise (PlaylistError "No resolutions found.")
           | _ :: _ => True
           end
     end
  /\ match out with
     | Ok r =>
         exists status text,
           answer = Response status text
           /\ error_status status = false
           /\ In r (parse_resolutions text)
     | Raise _ | Hang => True
     end.
Proof.
  cbv zeta. rewrite get_main_playlist_cases. cbv zeta.
  destruct (net env (events st) (playlist_request self)) as [status text|msg];
    cbn [http_failed]; [|repeat split].
  destruct (error_status status) eqn:Es; [repeat split|].
  destruct (parse_resolutions text) as [|r rs] eqn:Ep; [repeat split|].
  pose proof (select_resolution_outcome (config self) (r :: rs)
                (log (Get MainThread (playlist_request self)) st)) as H.
  destruct (select_resolution env (config self) (r :: rs) _) as [[x|e|] st1];
    cbn [fst raises] in *.
  - repeat split. exists status, text. rewrite Ep. repeat split; auto.
    apply H. discriminate.
  - destruct H as [_ H]; [discriminate|]. now rewrite H.
  - destruct H. discriminate.
Qed.

(** C3. The renditions of a body are the labels found before the markers,
    in document order, reversed; a body that lists clean labels A, B, C one
    a line yields C, B, A; and with no target and no interactive mode a good
    response selects the first entry of the reversed list, which is the
    label found last in the document. *)
Theorem manifest_order_and_default (self : BunnyVideoDRM) (st : State)
        (status : Z) (text : string) :
  truthy_opt (Config.resolution (config self)) = false ->
  Config.interactive (config self) = false ->
  net env (events st) (playlist_request self) = Response status text ->
  error_status status = false ->
  parse_resolutions text = rev (findall RESOLUTION_RE text)
  /\ (forall labels : list string,
        parse_resolutions (manifest_of (filter clean_label labels))
        = rev (filter clean_label labels))
  /\ parse_resolutions (manifest_of ["A"; "B"; "C"]) = ["C"; "B"; "A"]
  /\ fst (_get_main_playlist env self st)
     = match parse_resolutions text with
       | [] => Raise (PlaylistError "No resolutions found.")
       | r :: _ => Ok r
       end
  /\ match parse_resolutions text with
     | [] => findall RESOLUTION_RE text = []
     | r :: _ => r = last (findall RESOLUTION_RE text) ""
     end.
Proof.
  intros Hres Hint Hnet Hstatus.
  split; [reflexivity|].
  split.
  { intro labels. apply parse_manifest_of.
    apply Forall_forall. intros l Hl. now apply filter_In in Hl. }
  split; [reflexivity|].
  split.
  { rewrite get_main_playlist_cases. cbv zeta. rewrite Hnet, Hstatus.
    destruct (parse_resolutions text) as [|r rs]; [reflexivity|].
    unfold select_resolution. now rewrite Hres, Hint. }
  unfold parse_resolutions.
  destruct (rev (findall RESOLUTION_RE text)) as [|r rs] eqn:E.
  - apply (f_equal (@rev string)) in E. now rewrite rev_involutive in E.
  - symmetry. now apply (rev_head_last _ _ rs).
Qed.

End Manifest.

(* ================================================================== *)
(** * Selection on concrete manifests *)
(* ================================================================== *)

Local Open Scope string_scope.

Lemma explicit_selection_first_hit_witness :
  Config.resolution (Example.cfg (Some "720")) = Some "720"
  /\ "720" <> ""
  /\ select_resolution (L:=Example.lib)
       (Example.server "" Example.manifest3 None 0)
       (Example.cfg (Some "720")) Example.three initial
     = (Ok "1280x720", initial).
Proof.
  split; [reflexivity|].
  split; [discriminate|].
  refine (proj1 (explicit_selection_first_hit (L:=Example.lib)
                   (Example.server "" Example.manifest3 None 0)
                   (Example.cfg (Some "720")) "720" Example.three initial
                   eq_refl _)).
  discriminate.
Defined.

(** A manifest that lists 720 and then 1280x720: the renditions are
    1280x720, 720; with target 720 the code returns 1280x720, the first hit,
    although the label 720 is in the list, which an exact match tried first
    over the whole list would return. *)
Lemma exact_match_not_tried_first :
  let manifest := manifest_line "720" ++ manifest_line "1280x720" in
  parse_resolutions manifest = ["1280x720"; "720"]
  /\ fst (_get_main_playlist (L:=Example.lib)
            (Example.server "" manifest None 0)
            (Example.video (Some "720")) initial)
     = Ok "1280x720"
  /\ select_exact_first (L:=Example.lib) "720" ["1280x720"; "720"]
     = Some "720".
Proof.
  cbv zeta. repeat split; vm_compute; reflexivity.
Qed.

Lemma unmatched_target_raises_witness :
  Config.resolution (Example.cfg (Some "4K")) = Some "4K"
  /\ "4K" <> ""
  /\ find (stops (L:=Example.lib) "4K") Example.three = None
  /\ select_resolution (L:=Example.lib)
       (Example.server "" Example.manifest3 None 0)
       (Example.cfg (Some "4K")) Example.three initial
     = (Raise (PlaylistError (not_found_message "4K" Example.three)), initial).
Proof.
  split; [reflexivity|].
  split; [discriminate|].
  split; [reflexivity|].
  refine (proj1 (unmatched_target_raises (L:=Example.lib)
                   (Example.server "" Example.manifest3 None 0)
                   (Example.cfg (Some "4K")) "4K" Example.three initial
                   eq_refl _ eq_refl)).
  discriminate.
Defined.

(** A manifest whose only label is a, backslash, b: the message of the
    error writes the backslash twice, so the label is not part of it. *)
Lemma label_with_backslash_not_in_message :
  let label := String "a" (String bslash "b") in
  parse_resolutions (manifest_line label) = [label]
  /\ fst (_get_main_playlist (L:=Example.lib)
            (Example.server "" (manifest_line label) None 0)
            (Example.video (Some "4K")) initial)
     = Raise (PlaylistError (not_found_message "4K" [label]))
  /\ contains label (not_found_message "4K" [label]) = false.
Proof.
  cbv zeta. repeat split; vm_compute; reflexivity.
Qed.

(* ================================================================== *)
(** * The ping thread *)
(* ================================================================== *)

Section PingThread.

Context {L : PyLib}.
Variable env : Env.
Variable self : BunnyVideoDRM.

Lemma step_at_ping (tr : trace) (flag closed : bool) (r : string)
      (t : pyfloat) :
  ping_thread_step env self (mkSt tr flag (AtPing r t) closed)
  = mkSt (tr ++ [Get PingThread
                     (ping_request self
                        (PyFloat (float_add t (float_round6 (random env tr))))
                        "false" r)])%list
         flag (AtSleep r t) closed.
Proof.
  unfold ping_thread_step. cbn [ping_thread]. now rewrite ping_run.
Qed.

Lemma steps_add (a b : nat) (st : State) :
  ping_thread_steps env (a + b) self st
  = ping_thread_steps env b self (ping_thread_steps env a self st).
Proof.
  revert st. induction a as [|a IH]; intro st; [reflexivity|].
  cbn [Nat.add ping_thread_steps]. apply IH.
Qed.

(** The steps are the loop of [_background_ping] cut in three: while the
    flag is unset, [n] turns of the loop leave the events of [3 * n]
    steps; with the flag set, the loop returns after the one event that a
    step leaves. *)
Lemma background_ping_refines (n : nat) (res_val : string) :
  forall (time_pos : pyfloat) (tr : trace) (closed : bool)
         (p : ping_thread_state),
    events (snd (_background_ping_loop env n self res_val time_pos
                   (mkSt tr false p closed)))
    = events (ping_thread_steps env (3 * n) self
                (mkSt tr false (AtLoopTest res_val time_pos) closed))
    /\ _background_ping_loop env n self res_val time_pos
         (mkSt tr true p closed)
       = (Ok tt, mkSt (tr ++ [IsSet true])%list true p closed)
    /\ ping_thread_step env self
         (mkSt tr true (AtLoopTest res_val time_pos) closed)
       = mkSt (tr ++ [IsSet true])%list true Finished closed.
Proof.
  induction n as [|n IH]; intros t tr closed p.
  - repeat split.
  - split; [|split; reflexivity].
    replace (3 * S n)%nat with (3 + 3 * n)%nat by lia.
    rewrite steps_add.
    cbn [ping_thread_steps Nat.add].
    unfold ping_thread_step at 3. cbn [ping_thread stop_event].
    unfold set_thread, log at 1. cbn [events stop_event session_closed].
    rewrite step_at_ping.
    unfold ping_thread_step at 1.
    cbn [ping_thread set_thread log events stop_event session_closed].
    cbn [_background_ping_loop stop_event]. unfold bind, emit.
    rewrite ping_run.
    cbn [log events stop_event ping_thread session_closed].
    destruct (IH (float_add t float_one)
                 ((tr ++ [IsSet false])
                    ++ [Get PingThread
                          (ping_request self
                             (PyFloat
                                (float_add t
                                   (float_round6
                                      (random env (tr ++ [IsSet false])))))
                             "false" res_val)] ++ [Sleep])%list
                 closed p) as [E _].
    unfold log, set_thread.
    cbn [events stop_event ping_thread session_closed].
    rewrite <- !app_assoc in *. cbn [app] in *.
    exact E.
Qed.

(** One step of a thread that runs while the flag is unset. *)
Lemma step_unset (st : State) (res_val : string) :
  stop_event st = false ->
  thread_res (ping_thread st) = Some res_val ->
  exists e : event,
    events (ping_thread_step env self st) = (events st ++ [e])%list
    /\ tick_event self res_val e
    /\ stop_event (ping_thread_step env self st) = false
    /\ thread_res (ping_thread (ping_thread_step env self st)) = Some res_val
    /\ session_closed (ping_thread_step env self st) = session_closed st.
Proof.
  intros Hflag Hres. unfold ping_thread_step.
  destruct (ping_thread st) as [|r t|r t|r t|]; try discriminate;
    injection Hres as ->.
  - rewrite Hflag. exists (IsSet false). now repeat split.
  - rewrite ping_run. eexists. repeat split; cbn; eauto.
  - exists Sleep. now repeat split.
Qed.

Lemma steps_unset (n : nat) (res_val : string) :
  forall st : State,
    stop_event st = false ->
    thread_res (ping_thread st) = Some res_val ->
    exists d : trace,
      events (ping_thread_steps env n self st) = (events st ++ d)%list
      /\ Forall (tick_event self res_val) d
      /\ stop_event (ping_thread_steps env n self st) = false
      /\ thread_res (ping_thread (ping_thread_steps env n self st))
         = Some res_val
      /\ session_closed (ping_thread_steps env n self st)
         = session_closed st.
Proof.
  induction n as [|n IH]; intros st Hflag Hres.
  - exists []. cbn. rewrite app_nil_r. now repeat split.
  - cbn [ping_thread_steps].
    destruct (step_unset st res_val Hflag Hres) as (e & E & T & F & R & C).
    destruct (IH _ F R) as (d & E' & T' & F' & R' & C').
    exists (e :: d). rewrite E', E, <- app_assoc. cbn.
    repeat split; auto. congruence.
Qed.

(** A finished thread does not move. *)
Lemma steps_finished (n : nat) (st : State) :
  ping_thread st = Finished -> ping_thread_steps env n self st = st.
Proof.
  revert st. induction n as [|n IH]; intros st H; [reflexivity|].
  cbn [ping_thread_steps]. unfold ping_thread_step. rewrite H.
  now apply IH.
Qed.

(** Once the flag is set, three steps finish the thread: what is left of the
    turn of the loop in flight, at most a ping and a sleep, and then the
    loop test that reads the flag set. *)
Lemma steps_set (st : State) (res_val : string) :
  stop_event st = true ->
  thread_res (ping_thread st) = Some res_val ->
  exists T : trace,
    events (ping_thread_steps env 3 self st)
    = (events st ++ T ++ [IsSet true])%list
    /\ Forall (tick_event self res_val) T
    /\ (List.length T <= 2)%nat
    /\ T = filter (fun e => negb (match e with IsSet _ => true | _ => false end)) T
    /\ stop_event (ping_thread_steps env 3 self st) = true
    /\ ping_thread (ping_thread_steps env 3 self st) = Finished
    /\ session_closed (ping_thread_steps env 3 self st) = session_closed st.
Proof.
  intros Hflag Hres.
  destruct st as [tr flag p closed]. cbn in Hflag, Hres. subst flag.
  destruct p as [|r t|r t|r t|]; try discriminate; injection Hres as ->.
  - exists []. cbn. repeat split; auto.
  - exists [Get PingThread
               (ping_request self
                  (PyFloat (float_add t (float_round6 (random env tr))))
                  "false" res_val); Sleep].
    cbn [ping_thread_steps]. rewrite step_at_ping. cbn.
    rewrite <- !app_assoc. cbn.
    repeat split; auto.
    repeat constructor. eexists; reflexivity.
  - exists [Sleep]. cbn. rewrite <- !app_assoc. cbn.
    repeat split; auto.
    repeat constructor.
Qed.

(** The three steps of [join] are enough: with the flag set, more steps
    change nothing. *)
Lemma join_fuel_enough (n : nat) (st : State) :
  stop_event st = true ->
  join_with env (3 + n) self st = join_with env 3 self st.
Proof.
  intro Hflag. unfold join_with.
  destruct (ping_thread st) eqn:Ep; try reflexivity.
  1-3: rewrite steps_add;
       destruct (steps_set st res_val Hflag) as (T & _ & _ & _ & _ & _ & P & _);
       [now rewrite Ep|];
       now rewrite (steps_finished n _ P).
  rewrite steps_add.
  now rewrite (steps_finished n _ (eq_trans
                 (f_equal ping_thread (steps_finished 3 st Ep)) Ep)).
Qed.

(** The yt-dlp block: its two events, with ticks of the thread between
    them; the flag is still unset and the thread still runs after it. *)
Lemma ydl_download_run (st : State) (res_val : string) (urls : list string)
      (opts : ydl_opts) :
  stop_event st = false ->
  thread_res (ping_thread st) = Some res_val ->
  exists (d : trace) (r : option exn) (st' : State),
    ydl_download env self urls opts st = (outcome_of r, st')
    /\ r = ydl env (events st ++ [YdlDownload urls opts] ++ d)%list
    /\ events st'
       = (events st ++ [YdlDownload urls opts] ++ d ++ [YdlDone r])%list
    /\ Forall (tick_event self res_val) d
    /\ stop_event st' = false
    /\ thread_res (ping_thread st') = Some res_val
    /\ session_closed st' = session_closed st.
Proof.
  intros Hflag Hres.
  unfold ydl_download, bind, emit, yield_.
  set (st1 := log (YdlDownload urls opts) st).
  destruct (steps_unset (sched env (events st1)) res_val st1 Hflag Hres)
    as (d & E & T & F & R & C).
  set (st2 := ping_thread_steps env (sched env (events st1)) self st1) in *.
  exists d, (ydl env (events st2)).
  assert (E2 : events st2
               = (events st ++ [YdlDownload urls opts] ++ d)%list).
  { rewrite E. cbn. now rewrite <- app_assoc. }
  destruct (ydl env (events st2)) as [e|] eqn:Ey; eexists;
    (split; [reflexivity|]); (split; [now rewrite <- E2, Ey|]);
    cbn; rewrite E; cbn; rewrite <- !app_assoc; cbn; repeat split; auto.
Qed.

(** The [finally] block: it returns, having set the flag, waited for the
    thread, which reads the flag set as its last step, and closed the
    session. *)
Lemma cleanup_run (st : State) (res_val : string) :
  stop_event st = false ->
  thread_res (ping_thread st) = Some res_val ->
  exists (d T : trace) (st' : State),
    cleanup env self st = (Ok tt, st')
    /\ events st'
       = (events st ++ d ++ [StopSet] ++ T
            ++ [IsSet true; Join; SessionClose])%list
    /\ Forall (tick_event self res_val) d
    /\ Forall (tick_event self res_val) T
    /\ (List.length T <= 2)%nat
    /\ stop_event st' = true
    /\ ping_thread st' = Finished
    /\ session_closed st' = true.
Proof.
  intros Hflag Hres.
  unfold cleanup, bind, yield_, stop_event_set, ping_thread_join, join_with,
    session_close.
  destruct (steps_unset (sched env (events st)) res_val st Hflag Hres)
    as (d & E & T & F & R & C).
  set (st1 := ping_thread_steps env (sched env (events st)) self st) in *.
  set (st2 := mkSt (events st1 ++ [StopSet])%list true (ping_thread st1)
                   (session_closed st1)).
  destruct (steps_set st2 res_val eq_refl R)
    as (T2 & E2 & TT & Hlen & _ & F2 & P2 & C2).
  exists d, T2.
  cbn [ping_thread] in *.
  destruct (ping_thread st1) eqn:Ep; try discriminate;
    fold st2; rewrite P2; cbn [is_finished];
    eexists; (split; [reflexivity|]); cbn [events stop_event ping_thread
      session_closed log]; rewrite E2; cbn [events st2]; rewrite E;
    rewrite <- !app_assoc; cbn; repeat split; auto.
Qed.

(** A run of [download], event by event.  The three first requests are
    fixed; when the manifest fetch fails its exception ends the run; when it
    returns a rendition the run goes on to the end of the [finally] block,
    with ticks of the ping thread between the steps of the main thread. *)
Lemma download_run (st : State) :
  let ping0 := Get MainThread (ping_request self (PyInt 0) "true" "0") in
  let st2 := log (Get MainThread (activate_request self)) (log ping0 st) in
  match _get_main_playlist env self st2 with
  | (Ok res, st3) =>
      exists (d1 d2 d3 T : trace) (r : option exn) (st' : State),
        download env self st = (outcome_of r, st')
        /\ r = ydl env
                 (events st3
                    ++ [Get MainThread (video_playlist_request self res);
                        ThreadStart res]
                    ++ d1
                    ++ [YdlDownload [download_url self res]
                                    (download_opts self)]
                    ++ d2)%list
        /\ events st'
           = (events st3
                ++ [Get MainThread (video_playlist_request self res);
                    ThreadStart res]
                ++ d1
                ++ [YdlDownload [download_url self res] (download_opts self)]
                ++ d2 ++ [YdlDone r] ++ d3 ++ [StopSet] ++ T
                ++ [IsSet true; Join; SessionClose])%list
        /\ Forall (tick_event self (split_last "x" res))
                  (d1 ++ d2 ++ d3 ++ T)%list
        /\ (List.length T <= 2)%nat
        /\ stop_event st' = true
        /\ ping_thread st' = Finished
        /\ session_closed st' = true
  | (Raise e, st3) => download env self st = (Raise e, st3)
  | (Hang, st3) => download env self st = (Hang, st3)
  end.
Proof.
  cbv zeta. unfold download, bind.
  rewrite ping_run, activate_run.
  destruct (_get_main_playlist env self _) as [[res|e|] st3]; try reflexivity.
  rewrite video_playlist_run.
  unfold start_ping_thread, yield_, try_finally.
  set (st4 := log (Get MainThread (video_playlist_request self res)) st3).
  set (st5 := mkSt (events st4 ++ [ThreadStart res])%list false
                   (AtLoopTest (split_last "x" res) float_zero)
                   (session_closed st4)).
  destruct (steps_unset (sched env (events st5)) (split_last "x" res) st5
              eq_refl eq_refl) as (d1 & E1 & T1 & F1 & R1 & C1).
  set (st6 := ping_thread_steps env (sched env (events st5)) self st5) in *.
  destruct (ydl_download_run st6 (split_last "x" res)
              [download_url self res] (download_opts self) F1 R1)
    as (d2 & r & st7 & Ey & Er & E7 & T7 & F7 & R7 & C7).
  destruct (cleanup_run st7 (split_last "x" res) F7 R7)
    as (d3 & T & st8 & Ec & E8 & T8 & TT & Hlen & F8 & P8 & C8).
  exists d1, d2, d3, T, r, st8.
  rewrite Ey.
  split.
  { destruct r as [e|]; cbn [outcome_of]; now rewrite Ec. }
  split.
  { rewrite Er, E1. cbn [events st5 st4 log].
    rewrite <- !app_assoc. reflexivity. }
  split.
  { rewrite E8, E7, E1. cbn [events st5 st4 log].
    rewrite <- !app_assoc. reflexivity. }
  split.
  { repeat (apply Forall_app; split); auto. }
  auto.
Qed.

End PingThread.

(* ================================================================== *)
(** * Construction and the order of the protocol *)
(* ================================================================== *)

Section Protocol.

Context {L : PyLib}.
Variable env : Env.

Lemma print_resolutions_events (rs : list string) :
  forall (idx : Z) (st : State),
    exists console : trace,
      events (snd (print_resolutions idx rs st))
      = (events st ++ console)%list
      /\ forallb is_console_event console = true.
Proof.
  induction rs as [|r rs IH]; intros idx st.
  - exists []. cbn. now rewrite app_nil_r.
  - cbn [print_resolutions]. unfold bind, print, emit.
    destruct (IH (idx + 1)%Z
                 (log (Print (str_of_int idx ++ ". " ++ r)) st))
      as (c & E & F).
    exists (Print (str_of_int idx ++ ". " ++ r) :: c).
    rewrite E. cbn. now rewrite <- app_assoc.
Qed.

(** Selection leaves print and input events only. *)
Lemma select_resolution_events (cfg : DownloadConfig) (rs : list string)
      (st : State) :
  exists console : trace,
    events (snd (select_resolution env cfg rs st))
    = (events st ++ console)%list
    /\ forallb is_console_event console = true.
Proof.
  unfold select_resolution.
  destruct (truthy_opt (Config.resolution cfg)).
  - exists []. rewrite app_nil_r.
    destruct (select_target _ rs); now split.
  - destruct (Config.interactive cfg).
    + unfold select_interactive, bind, print, emit.
      set (st0 := log (Print (String newline "Available resolutions:")) st).
      destruct (print_resolutions_events rs 1 st0) as (c & E & F).
      pose proof (print_resolutions_ok rs 1 st0) as Hok.
      destruct (print_resolutions 1 rs st0) as [o st1].
      cbn [fst snd] in *. subst o.
      unfold try_except, bind, input.
      set (prompt := String newline "Select resolution (1-"
                       ++ str_of_int (Z.of_nat (List.length rs)) ++ "): ").
      exists (Print (String newline "Available resolutions:")
                :: c ++ [Input prompt])%list.
      split.
      * destruct (stdin env (events st1)) as [choice|];
          [destruct (parse_int choice) as [n|];
           [destruct ((0 <=? n - 1)%Z
                      && (n - 1 <? Z.of_nat (List.length rs))%Z)|]
          |destruct (stdin_error env (events st1))];
          cbn; rewrite E; cbn; now rewrite <- !app_assoc.
      * cbn. rewrite forallb_app, F. reflexivity.
    + exists []. now rewrite app_nil_r.
Qed.

(** The manifest fetch leaves its request, then print and input events; it
    always returns or raises. *)
Lemma get_main_playlist_events (self : BunnyVideoDRM) (st : State) :
  exists console : trace,
    events (snd (_get_main_playlist env self st))
    = (events st ++ Get MainThread (playlist_request self) :: console)%list
    /\ forallb is_console_event console = true
    /\ fst (_get_main_playlist env self st) <> Hang.
Proof.
  rewrite get_main_playlist_cases. cbv zeta.
  set (st' := log (Get MainThread (playlist_request self)) st).
  destruct (net env (events st) (playlist_request self)) as [status text|msg];
    [|exists []; repeat split; discriminate].
  destruct (error_status status); [exists []; repeat split; discriminate|].
  destruct (parse_resolutions text) as [|r rs];
    [exists []; repeat split; discriminate|].
  destruct (select_resolution_events (config self) (r :: rs) st')
    as (c & E & F).
  exists c. rewrite E. cbn. rewrite <- app_assoc. repeat split; auto.
  pose proof (select_resolution_outcome env (config self) (r :: rs) st') as H.
  intro Hh. rewrite Hh in H. apply H. discriminate.
Qed.

Lemma main_events_app (a b : trace) :
  main_events (a ++ b)%list = (main_events a ++ main_events b)%list.
Proof. apply filter_app. Qed.

Lemma main_events_ticks (self : BunnyVideoDRM) (res_val : string)
      (d : trace) :
  Forall (tick_event self res_val) d -> main_events d = [].
Proof.
  unfold main_events.
  induction 1 as [|e d He _ IH]; [reflexivity|].
  cbn [filter]. destruct e as [[] ?| | | |[]| | | | | |]; cbn in *;
    try contradiction; exact IH.
Qed.

Lemma main_events_console (c : trace) :
  forallb is_console_event c = true -> main_events c = c.
Proof.
  unfold main_events.
  induction c as [|e c IH]; [reflexivity|]. cbn [forallb filter]. intro H.
  apply andb_true_iff in H as [He Hc].
  destruct e; try discriminate; cbn; now rewrite (IH Hc).
Qed.

(** Construction: the configuration test, then one GET of the embed page;
    an object comes out only when the page was fetched and the three
    session fields were found in it. *)
Lemma init_cases (cfg : DownloadConfig) (st : State) :
  let req := embed_request cfg (new_headers env cfg) in
  match __init__ env cfg st with
  | (Ok video, st') =>
      events st' = (events st ++ [Get MainThread req])%list
      /\ config video = cfg
      /\ exists (status : Z) (page : string) (m1 m2 : result),
           net env (events st) req = Response status page
           /\ error_status status = false
           /\ search SERVER_ID_RE page = Some m1
           /\ search CONTEXT_RE page = Some m2
           /\ server_id video = group_of 1 m1
           /\ context_id video = group_of 1 m2
           /\ secret video = group_of 2 m2
  | (Raise e, st') =>
      events st' = events st
      \/ events st' = (events st ++ [Get MainThread req])%list
  | (Hang, _) => False
  end.
Proof.
  cbv zeta. unfold __init__.
  destruct (negb (truthy (referer cfg)) || negb (truthy (embed_url cfg)));
    [cbn; auto|].
  destruct (identity_error env) as [[cls bad]|]; [cbn; auto|].
  destruct (urlparse_error (embed_url cfg)); [cbn; auto|].
  unfold _parse_embed_page, bind, try_except, session_get, raise_for_status.
  fold (error_status).
  destruct (net env (events st) _) as [status page|msg] eqn:En;
    [|cbn; auto].
  cbn [fst snd].
  change ((400 <=? status)%Z && (status <? 600)%Z) with (error_status status).
  destruct (error_status status) eqn:Es; [cbn; auto|].
  cbn [ret is_RequestException].
  unfold extract_server_id, extract_context, extract_file_name, try_except.
  destruct (search SERVER_ID_RE page) as [m1|] eqn:E1; [|cbn; auto].
  cbn [ret].
  destruct (search CONTEXT_RE page) as [m2|] eqn:E2; [|cbn; auto].
  cbn [ret].
  destruct (truthy_opt (Config.name cfg)).
  - cbn [fst snd].
    destruct (path_error env cfg); [cbn; auto|].
    cbn. repeat split. exists status, page, m1, m2. now repeat split.
  - destruct (search TITLE_RE page) as [m3|]; [|cbn; auto].
    cbn [fst snd ret].
    destruct (path_error env cfg); [cbn; auto|].
    cbn. repeat split. exists status, page, m1, m2. now repeat split.
Qed.

(** C4. In every run of [download] the main thread issues, in this order:
    the priming ping (time 0, paused true, resolution token 0), activate, the
    manifest fetch, whatever print and input events selection needs, and
    then, when a rendition came out, the confirmation for that rendition,
    the start of the ping thread, the hand-over to yt-dlp and the cleanup;
    when the manifest fetch raises, the run ends there with that exception.
    No event of the ping thread comes before its start.  In the flow of
    [main], [download] runs only on an object that construction returned,
    which it does only after the embed page was fetched and server id,
    context id and secret were found in it; before that the only request is
    the GET of the embed page. *)
Theorem protocol_order (self : BunnyVideoDRM) (args : DownloadConfig)
        (st : State) :
  let ping0 := Get MainThread (ping_request self (PyInt 0) "true" "0") in
  let act := Get MainThread (activate_request self) in
  let fetch := Get MainThread (playlist_request self) in
  params (ping_request self (PyInt 0) "true" "0")
  = [ ("hash", MD5.hexdigest (secret self ++ "_" ++ context_id self
                                ++ "_0_true_0"));
      ("time", "0"); ("paused", "true"); ("chosen_res", "0") ]
  /\ (exists console : trace,
        forallb is_console_event console = true
        /\ match fst (_get_main_playlist env self (log act (log ping0 st))) with
           | Ok res =>
               exists (r : option exn) (ticks : trace),
                 fst (download env self st) = outcome_of r
                 /\ main_events (events (snd (download env self st)))
                    = (main_events (events st)
                         ++ [ping0; act; fetch] ++ console
                         ++ [Get MainThread (video_playlist_request self res);
                             ThreadStart res;
                             YdlDownload [download_url self res]
                                         (download_opts self);
                             YdlDone r; StopSet; Join; SessionClose])%list
                 /\ events (snd (download env self st))
                    = (events st ++ [ping0; act; fetch] ++ console
                         ++ [Get MainThread (video_playlist_request self res);
                             ThreadStart res] ++ ticks)%list
           | Raise e =>
               fst (download env self st) = Raise e
               /\ events (snd (download env self st))
                  = (events st ++ [ping0; act; fetch] ++ console)%list
           | Hang => False
           end)
  /\ match Config.__post_init__ args with
     | inl e => main_flow env args st = (Raise e, st)
     | inr cfg =>
         let req := embed_request cfg (new_headers env cfg) in
         match __init__ env cfg st with
         | (Ok video, st1) =>
             main_flow env args st = download env video st1
             /\ events st1 = (events st ++ [Get MainThread req])%list
             /\ exists (status : Z) (page : string) (m1 m2 : result),
                  net env (events st) req = Response status page
                  /\ error_status status = false
                  /\ search SERVER_ID_RE page = Some m1
                  /\ search CONTEXT_RE page = Some m2
                  /\ server_id video = group_of 1 m1
                  /\ context_id video = group_of 1 m2
                  /\ secret video = group_of 2 m2
         | (Raise e, st1) =>
             main_flow env args st = (Raise e, st1)
             /\ (events st1 = events st
                 \/ events st1 = (events st ++ [Get MainThread req])%list)
         | (Hang, _) => False
         end
     end.
Proof.
  cbv zeta. split; [reflexivity|]. split.
  - pose proof (download_run env self st) as Hrun. cbv zeta in Hrun.
    set (st2 := log (Get MainThread (activate_request self))
                    (log (Get MainThread
                            (ping_request self (PyInt 0) "true" "0")) st))
      in *.
    destruct (get_main_playlist_events self st2) as (console & E3 & Fc & Hh).
    exists console. split; [exact Fc|].
    destruct (_get_main_playlist env self st2) as [[res|e|] st3];
      cbn [fst snd] in *.
    + destruct Hrun as (d1 & d2 & d3 & T & r & st' & Ed & _ & Ev & Ft & _).
      apply Forall_app in Ft as [F1 Ft].
      apply Forall_app in Ft as [F2 Ft].
      apply Forall_app in Ft as [F3 F4].
      exists r. eexists. rewrite Ed. cbn [fst snd].
      split; [reflexivity|].
      rewrite Ev, E3. cbn [st2 events log].
      split.
      * rewrite !main_events_app.
        rewrite (main_events_ticks _ _ _ F1), (main_events_ticks _ _ _ F2),
          (main_events_ticks _ _ _ F3), (main_events_ticks _ _ _ F4).
        change (main_events (Get MainThread (playlist_request self) :: console))
          with (Get MainThread (playlist_request self) :: main_events console).
        rewrite (main_events_console _ Fc).
        cbn. rewrite <- !app_assoc. reflexivity.
      * rewrite <- !app_assoc. cbn. reflexivity.
    + rewrite Hrun. cbn [fst snd]. split; [reflexivity|].
      rewrite E3. cbn [st2 events log]. rewrite <- !app_assoc. reflexivity.
    + now apply Hh.
  - unfold main_flow.
    destruct (Config.__post_init__ args) as [e|cfg]; [reflexivity|].
    unfold bind.
    pose proof (init_cases cfg st) as Hi. cbv zeta in Hi.
    destruct (__init__ env cfg st) as [[video|e|] st1].
    + destruct Hi as (Ev & _ & Hx). auto.
    + auto.
    + exact Hi.
Qed.

End Protocol.

(* ================================================================== *)
(** * The heartbeat: parameters and shutdown *)
(* ================================================================== *)

Lemma split_last_aux_spec (sep : ascii) (s : string) :
  forall acc : string,
    (str_existsb (Ascii.eqb sep) s = false
     /\ split_last_aux sep s acc = acc)
    \/ exists a : string,
         s = a ++ String sep (split_last_aux sep s acc)
         /\ str_existsb (Ascii.eqb sep) (split_last_aux sep s acc) = false.
Proof.
  unfold str_existsb.
  induction s as [|c s IH]; intro acc;
    cbn [split_last_aux list_ascii_of_string existsb].
  - now left.
  - rewrite (Ascii.eqb_sym sep c).
    destruct (Ascii.eqb_spec c sep) as [->|Hne]; cbn [orb].
    + right. destruct (IH s) as [[Hno Heq]|(a & Ha & Hn)].
      * rewrite Heq. exists "". split; [reflexivity | exact Hno].
      * exists (String sep a). split; [|exact Hn].
        cbn [String.append]. now rewrite <- Ha.
    + destruct (IH acc) as [[Hno Heq]|(a & Ha & Hn)].
      * left. now split.
      * right. exists (String c a).
        split; [|exact Hn]. cbn [String.append]. now rewrite <- Ha.
Qed.

(** The token [resolution.split(x)[-1]] holds no x, and the label is either
    the token itself or some text, an x, and the token: it is what follows
    the last x, and the whole label when there is none. *)
Lemma split_last_spec (s : string) :
  str_existsb (Ascii.eqb "x") (split_last "x" s) = false
  /\ (s = split_last "x" s
      \/ exists a : string, s = a ++ String "x" (split_last "x" s)).
Proof.
  unfold split_last.
  destruct (split_last_aux_spec "x" s s) as [[Hno Heq]|(a & Ha & Hn)].
  - rewrite Heq. split; [exact Hno | now left].
  - split; [exact Hn | right; now exists a].
Qed.

Section Heartbeat.

Context {L : PyLib}.
Variable env : Env.
Variable self : BunnyVideoDRM.

Lemma ticks_no_stop (res_val : string) (d : trace) :
  Forall (tick_event self res_val) d -> existsb saw_stop d = false.
Proof.
  induction 1 as [|e d He _ IH]; [reflexivity|].
  cbn [existsb]. rewrite IH.
  destruct e as [[] ?| | | |[]| | | | | |]; cbn in *;
    try contradiction; reflexivity.
Qed.

Lemma ticks_ping_ok (res_val : string) (d : trace) :
  Forall (tick_event self res_val) d ->
  Forall (heartbeat_ping_ok self res_val) d.
Proof.
  induction 1 as [|e d He _ IH]; constructor; auto.
  destruct e as [[] ?| | | |[]| | | | | |]; cbn in *; auto.
Qed.

Lemma console_quiet (res_val : string) (c : trace) :
  forallb is_console_event c = true ->
  existsb saw_stop c = false
  /\ existsb is_thread_start c = false
  /\ Forall (heartbeat_ping_ok self res_val) c
  /\ Forall (fun e => is_ping_thread_event e = false) c.
Proof.
  induction c as [|e c IH]; cbn [forallb existsb]; intro H;
    [repeat split; constructor|].
  apply andb_true_iff in H as [He Hc].
  destruct (IH Hc) as (H1 & H2 & H3 & H4).
  destruct e; try discriminate; cbn; repeat split; auto;
    constructor; cbn; auto.
Qed.

(** C5. When [download] has started the ping thread and handed over to
    yt-dlp, then however yt-dlp ends, normally or with an exception, the run
    ends with: the flag set, the rest of the turn of the loop in flight (at
    most a ping and a sleep), the loop test that reads the flag set, the
    return of [join], and the close of the session; only then does
    [download] return, or raise what yt-dlp raised.  The loop test that
    reads the flag set is the last event of the ping thread, so no ping
    follows it, and before it the thread never read the flag set.  A run
    that ends before the thread is started ends with the exception of the
    manifest fetch. *)
Theorem heartbeat_stopped_on_exit (st : State) :
  let ping0 := Get MainThread (ping_request self (PyInt 0) "true" "0") in
  let st2 := log (Get MainThread (activate_request self)) (log ping0 st) in
  match _get_main_playlist env self st2 with
  | (Ok res, _) =>
      exists (before d T : trace) (r : option exn) (final : State),
        download env self st = (outcome_of r, final)
        /\ r = ydl env (events st ++ before)%list
        /\ events final
           = (events st ++ before ++ [YdlDone r] ++ d ++ [StopSet] ++ T
                ++ [IsSet true; Join; SessionClose])%list
        /\ existsb is_thread_start before = true
        /\ existsb saw_stop (before ++ d ++ T)%list = false
        /\ Forall (tick_event self (split_last "x" res)) (d ++ T)%list
        /\ (List.length T <= 2)%nat
        /\ stop_event final = true
        /\ ping_thread final = Finished
        /\ session_closed final = true
  | (Raise e, st3) =>
      download env self st = (Raise e, st3)
      /\ exists new : trace,
           events st3 = (events st ++ new)%list
           /\ existsb is_thread_start new = false
  | (Hang, _) => False
  end.
Proof.
  cbv zeta.
  pose proof (download_run env self st) as Hrun. cbv zeta in Hrun.
  set (st2 := log (Get MainThread (activate_request self))
                  (log (Get MainThread
                          (ping_request self (PyInt 0) "true" "0")) st))
    in *.
  destruct (get_main_playlist_events env self st2) as (console & E3 & Fc & Hh).
  destruct (_get_main_playlist env self st2) as [[res|e|] st3];
    cbn [fst snd] in *.
  - destruct Hrun
      as (d1 & d2 & d3 & T & r & final & Ed & Er & Ev & Ft & Hlen & Hfin).
    apply Forall_app in Ft as [F1 Ft].
    apply Forall_app in Ft as [F2 Ft].
    pose proof Ft as F34.
    apply Forall_app in Ft as [F3 F4].
    destruct (console_quiet (split_last "x" res) console Fc)
      as (Hc1 & Hc2 & _ & _).
    exists ([Get MainThread (ping_request self (PyInt 0) "true" "0");
             Get MainThread (activate_request self);
             Get MainThread (playlist_request self)] ++ console
            ++ [Get MainThread (video_playlist_request self res);
                ThreadStart res] ++ d1
            ++ [YdlDownload [download_url self res] (download_opts self)]
            ++ d2)%list, d3, T, r, final.
    split; [exact Ed|].
    split.
    { rewrite Er, E3. cbn [st2 events log]. rewrite <- !app_assoc.
      reflexivity. }
    split.
    { rewrite Ev, E3. cbn [st2 events log]. rewrite <- !app_assoc.
      reflexivity. }
    split.
    { rewrite !existsb_app. cbn [existsb is_thread_start orb].
      rewrite Hc2. reflexivity. }
    split.
    { rewrite !existsb_app.
      rewrite Hc1, (ticks_no_stop _ _ F1), (ticks_no_stop _ _ F2),
        (ticks_no_stop _ _ F3), (ticks_no_stop _ _ F4).
      reflexivity. }
    split; [exact F34|]. split; [exact Hlen | exact Hfin].
  - split; [exact Hrun|].
    destruct (console_quiet "" console Fc) as (_ & Hc2 & _ & _).
    eexists. rewrite E3. cbn [st2 events log]. rewrite <- !app_assoc.
    split; [reflexivity|]. cbn. exact Hc2.
  - now apply Hh.
Qed.

(** C10. Every request the ping thread issues in a run of [download] is a
    ping with paused [false] whose resolution token is what follows the last
    x of the selected label (the whole label when it has no x), so 1080 for
    1920x1080; the hash of the ping is computed over that token. *)
Theorem heartbeat_ping_parameters (st : State) :
  let ping0 := Get MainThread (ping_request self (PyInt 0) "true" "0") in
  let st2 := log (Get MainThread (activate_request self)) (log ping0 st) in
  (exists new : trace,
     events (snd (download env self st)) = (events st ++ new)%list
     /\ match fst (_get_main_playlist env self st2) with
        | Ok res => Forall (heartbeat_ping_ok self (split_last "x" res)) new
        | Raise _ | Hang =>
            Forall (fun e => is_ping_thread_event e = false) new
        end)
  /\ (forall (x : pyfloat) (res : string),
        let token := split_last "x" res in
        let r := ping_request self (PyFloat x) "false" token in
        Headers.get "paused" (params r) = Some "false"
        /\ Headers.get "chosen_res" (params r) = Some token
        /\ Headers.get "hash" (params r)
           = Some (MD5.hexdigest
                     (secret self ++ "_" ++ context_id self ++ "_"
                        ++ float_str x ++ "_false_" ++ token))
        /\ str_existsb (Ascii.eqb "x") token = false
        /\ (res = token \/ exists a : string, res = a ++ String "x" token))
  /\ split_last "x" "1920x1080" = "1080"
  /\ split_last "x" "720p" = "720p".
Proof.
  cbv zeta. split; [|split; [|split; reflexivity]].
  - pose proof (download_run env self st) as Hrun. cbv zeta in Hrun.
    set (st2 := log (Get MainThread (activate_request self))
                    (log (Get MainThread
                            (ping_request self (PyInt 0) "true" "0")) st))
      in *.
    destruct (get_main_playlist_events env self st2)
      as (console & E3 & Fc & Hh).
    destruct (_get_main_playlist env self st2) as [[res|e|] st3];
      cbn [fst snd] in *.
    + destruct Hrun
        as (d1 & d2 & d3 & T & r & final & Ed & _ & Ev & Ft & _).
      destruct (console_quiet (split_last "x" res) console Fc)
        as (_ & _ & Hc & _).
      apply ticks_ping_ok in Ft.
      apply Forall_app in Ft as [F1 Ft].
      apply Forall_app in Ft as [F2 Ft].
      apply Forall_app in Ft as [F3 F4].
      rewrite Ed. cbn [snd]. eexists. split.
      * rewrite Ev, E3. cbn [st2 events log]. rewrite <- !app_assoc.
        reflexivity.
      * repeat (apply Forall_app; split); auto;
          repeat constructor; cbn; auto.
    + rewrite Hrun. cbn [snd].
      destruct (console_quiet "" console Fc) as (_ & _ & _ & Hc).
      eexists. split.
      * rewrite E3. cbn [st2 events log]. rewrite <- !app_assoc.
        reflexivity.
      * repeat (apply Forall_app; split); auto; repeat constructor.
    + exfalso. now apply Hh.
  - intros x res. do 3 (split; [reflexivity|]).
    apply split_last_spec.
Qed.

End Heartbeat.

(* ================================================================== *)
(** * Validation of the configuration *)
(* ================================================================== *)

Section Validation.

Context {L : PyLib}.
Variable env : Env.

(** C9. [DownloadConfig.__post_init__] raises [ConfigurationError] exactly
    when the referer or the embed URL is missing or the referer, with a
    slash appended when it does not end with one, does not match the
    pattern, that is, does not begin with a word of its language; [main]
    then ends with that exception and not a single event, so no network
    call.  Otherwise the configuration is accepted with the
    referer so normalized: https://example.com becomes
    https://example.com/, and not-a-url is refused.  The constructor of the
    downloader repeats the test for missing fields before its first
    request. *)
Theorem referer_validation (c : DownloadConfig) (st : State) :
  let r := normalized_referer (referer c) in
  let missing := negb (truthy (referer c)) || negb (truthy (embed_url c)) in
  let invalid := missing || negb (matches REFERER_RE r) in
  match Config.__post_init__ c with
  | inl e =>
      invalid = true
      /\ is_ConfigurationError e = true
      /\ main_flow env c st = (Raise e, st)
  | inr c' => invalid = false /\ c' = with_referer c r
  end
  /\ (matches REFERER_RE r = true
      <-> exists w rest : string, r = w ++ rest /\ lang REFERER_RE 0 w)
  /\ (if missing
      then __init__ env c st
           = (Raise (ConfigurationError "Referer and Embed URL are required."),
              st)
      else True)
  /\ Config.__post_init__ (with_referer c "https://example.com")
     = (if truthy (embed_url c)
        then inr (with_referer c "https://example.com/")
        else inl (ConfigurationError "Referer and Embed URL are required."))
  /\ Config.__post_init__ (with_referer c "not-a-url")
     = (if truthy (embed_url c)
        then inl (ConfigurationError
                    "Invalid referer URL: not-a-url/. Must be http(s)://domain.tld/")
        else inl (ConfigurationError "Referer and Embed URL are required.")).
Proof.
  cbv zeta. split; [|split; [apply matches_lang|split; [|split]]].
  - unfold main_flow, Config.__post_init__, normalized_referer, matches.
    destruct (negb (truthy (referer c)) || negb (truthy (embed_url c)));
      [now repeat split|].
    cbn [orb].
    destruct (endswith "/" (referer c)); cbn [negb].
    + destruct (re_match REFERER_RE (referer c)); [|now repeat split].
      split; [reflexivity|]. now destruct c.
    + cbn [referer with_referer].
      destruct (re_match REFERER_RE (referer c ++ "/")); now repeat split.
  - unfold __init__.
    destruct (negb (truthy (referer c)) || negb (truthy (embed_url c)));
      [reflexivity | exact I].
  - unfold Config.__post_init__. cbn [referer embed_url with_referer].
    destruct (truthy (embed_url c)); reflexivity.
  - unfold Config.__post_init__. cbn [referer embed_url with_referer].
    destruct (truthy (embed_url c)); reflexivity.
Qed.

End Validation.

(* ================================================================== *)
(** * The manifest fetch on concrete servers *)
(* ================================================================== *)

#[local] Existing Instance Example.lib.

Lemma manifest_order_and_default_witness :
  let env := Example.server "" Example.manifest3 None 0 in
  let self := Example.video None in
  truthy_opt (Config.resolution (config self)) = false
  /\ Config.interactive (config self) = false
  /\ net env (events initial) (playlist_request self)
     = Response 200 Example.manifest3
  /\ error_status 200 = false
  /\ fst (_get_main_playlist (L:=Example.lib) env self initial)
     = Ok "1920x1080".
Proof.
  cbv zeta. do 4 (split; [reflexivity|]).
  exact (proj1 (proj2 (proj2 (proj2
           (manifest_order_and_default (L:=Example.lib)
              (Example.server "" Example.manifest3 None 0)
              (Example.video None) initial 200 Example.manifest3
              eq_refl eq_refl eq_refl eq_refl))))).
Defined.

(** Characters from 128 on.  The no-break space (160) and the next line
    (133) are white space for the rendition pattern, e acute (233) is not;
    [repr] escapes the no-break space and the soft hyphen (173) and leaves
    e acute as it is; the digest is that of the UTF-8 bytes.  The values
    are those of Python. *)
Example characters_above_ascii :
  let c n := String (ascii_of_nat n) "" in
  parse_resolutions
    (c 160 ++ "A/video.drm" ++ c 10 ++ c 133 ++ "B" ++ c 233 ++ " /video.drm")
  = ["B" ++ c 233; "A"]
  /\ list_repr ["a" ++ c 160 ++ "b"; c 233; c 173]
     = "['a\xa0b', '" ++ c 233 ++ "', '\xad']"
  /\ MD5.hexdigest ("s3cr" ++ c 233 ++ "t_ctx_0_true_0")
     = "98148b4685a8dab04ddfe75367298c8b".
Proof. vm_compute. repeat split. Qed.

(** A manifest in the layout of HLS master playlists, with comment lines
    and a query string after each marker. *)
Example parse_hls_manifest :
  let nl := String newline "" in
  parse_resolutions
    ("#EXTM3U" ++ nl
     ++ "#EXT-X-STREAM-INF:BANDWIDTH=800000,RESOLUTION=640x360" ++ nl
     ++ "640x360/video.drm?contextId=ctx" ++ nl
     ++ "#EXT-X-STREAM-INF:BANDWIDTH=2500000,RESOLUTION=1280x720" ++ nl
     ++ "1280x720/video.drm?contextId=ctx" ++ nl)
  = ["1280x720"; "640x360"].
Proof. vm_compute. reflexivity. Qed.

(* ================================================================== *)
(** * Whole runs on a concrete server *)
(* ================================================================== *)

(** A whole run of the flow of [main], with two steps of the ping thread at each
    point where the main thread may lose the processor and yt-dlp raising:
    the exception leaves after the flag was set, the thread joined and the
    session closed. *)
Example run_with_failing_transfer :
  let args := mkConfig "https://example.com"
                "https://iframe.mediadelivery.net/embed/1234/abcd"
                None None false None None in
  let env := Example.server Example.embed_page Example.manifest3
               (Some (ExternalError "boom")) 2 in
  let run := main_flow env args initial in
  fst run = Raise (ExternalError "boom")
  /\ map Example.label_of (events (snd run))
     = [ "main GET https://iframe.mediadelivery.net/embed/1234/abcd";
         "main GET https://video-srv1.mediadelivery.net/.drm/ctx/ping";
         "main GET https://video-srv1.mediadelivery.net/.drm/ctx/activate";
         "main GET https://iframe.mediadelivery.net/abcd/playlist.drm";
         "main GET https://iframe.mediadelivery.net/abcd/1920x1080/video.drm";
         "start ping thread for 1920x1080";
         "ping thread reads flag: unset";
         "ping-thread GET https://video-srv1.mediadelivery.net/.drm/ctx/ping time=0.5";
         "yt-dlp starts";
         "ping thread sleeps";
         "ping thread reads flag: unset";
         "yt-dlp raises";
         "ping-thread GET https://video-srv1.mediadelivery.net/.drm/ctx/ping time=1.5";
         "ping thread sleeps";
         "set stop flag";
         "ping thread reads flag: set";
         "join returns";
         "close session" ]
  /\ stop_event (snd run) = true
  /\ is_finished (ping_thread (snd run)) = true
  /\ session_closed (snd run) = true.
Proof. vm_compute. repeat split. Qed.

(** The priming ping of that run: the token is the digest that hashlib
    gives for s3cr3t_ctx_0_true_0. *)
Example priming_ping_token :
  params (ping_request (Example.video None) (PyInt 0) "true" "0")
  = [ ("hash", "fc85b4d10ed746ecb92ee3c54248d45a"); ("time", "0");
      ("paused", "true"); ("chosen_res", "0") ].
Proof. vm_compute. reflexivity. Qed.

(** A malformed referer: the flow of [main] ends in [ConfigurationError]
    and the trace is empty, on a network that would have failed every
    call. *)
Example malformed_referer_no_call :
  let run := main_flow Example.offline
               (mkConfig "not-a-url"
                  "https://iframe.mediadelivery.net/embed/1234/abcd"
                  None None false None None)
               initial in
  fst run
  = Raise (ConfigurationError
             "Invalid referer URL: not-a-url/. Must be http(s)://domain.tld/")
  /\ events (snd run) = [].
Proof. vm_compute. split; reflexivity. Qed.

(** A target on which [re.search] raises [ValueError]: no handler of the
    manifest fetch catches it, and it leaves [download] before the ping
    thread is started. *)
Example pattern_exception_leaves_selection :
  let env := Example.server Example.embed_page Example.manifest3 None 0 in
  let run := download env (Example.video (Some "(?a)(?u)x")) initial in
  fst run = Raise (ValueError "ASCII and UNICODE flags are incompatible")
  /\ map Example.label_of (events (snd run))
     = [ "main GET https://video-srv1.mediadelivery.net/.drm/ctx/ping";
         "main GET https://video-srv1.mediadelivery.net/.drm/ctx/activate";
         "main GET https://iframe.mediadelivery.net/abcd/playlist.drm" ]
  /\ session_closed (snd run) = false.
Proof. vm_compute. repeat split. Qed.

(** An embed URL that [urlparse] refuses: [ValueError] before any request.
    A path on which [expanduser] finds no home: [RuntimeError] after the
    embed page was read. *)
Example construction_library_errors :
  let env := Example.server Example.embed_page Example.manifest3 None 0 in
  let bad_url := mkConfig "https://example.com/" "http://[abc"
                   None None false None None in
  let bad_path := mkConfig "https://example.com/"
                    "https://iframe.mediadelivery.net/embed/1234/abcd"
                    None (Some "~nosuchuser_xyz/x") false None None in
  Config.__post_init__ bad_url = inr bad_url
  /\ fst (main_flow env bad_url initial) = Raise (ValueError "Invalid IPv6 URL")
  /\ events (snd (main_flow env bad_url initial)) = []
  /\ fst (main_flow env bad_path initial)
     = Raise (RuntimeError "Could not determine home directory.")
  /\ map Example.label_of (events (snd (main_flow env bad_path initial)))
     = [ "main GET https://iframe.mediadelivery.net/embed/1234/abcd" ].
Proof. vm_compute. repeat split. Qed.

(** An embed page without the server fragment: [ExtractionError], and the
    manifest is never fetched. *)
Example missing_server_id :
  let args := mkConfig "https://example.com/"
                "https://iframe.mediadelivery.net/embed/1234/abcd"
                None None false None None in
  let env := Example.server "contextId=ctx&secret=s" Example.manifest3
               None 0 in
  let run := main_flow env args initial in
  fst run = Raise (ExtractionError "Could not extract server ID.")
  /\ map Example.label_of (events (snd run))
     = [ "main GET https://iframe.mediadelivery.net/embed/1234/abcd" ].
Proof. vm_compute. repeat split. Qed.

(* ================================================================== *)
(** * Further properties: what a run raises, and what it leaves behind *)
(* ================================================================== *)

Section Outcomes.

Context {L : PyLib}.
Variable env : Env.

Lemma print_resolutions_frame (rs : list string) :
  forall (idx : Z) (st : State), same_controls st (snd (print_resolutions idx rs st)).
Proof.
  induction rs as [|r rs IH]; intros idx st; [now repeat split|].
  cbn [print_resolutions]. unfold bind, print, emit.
  destruct (IH (idx + 1)%Z (log (Print (str_of_int idx ++ ". " ++ r)) st))
    as (H1 & H2 & H3).
  now repeat split.
Qed.

(** Selection touches nothing but the trace. *)
Lemma select_resolution_frame (cfg : DownloadConfig) (rs : list string)
      (st : State) :
  same_controls st (snd (select_resolution env cfg rs st)).
Proof.
  unfold select_resolution.
  destruct (truthy_opt (Config.resolution cfg)).
  - destruct (select_target _ rs); now repeat split.
  - destruct (Config.interactive cfg); [|now repeat split].
    unfold select_interactive, bind, print, emit.
    set (st0 := log (Print (String newline "Available resolutions:")) st).
    pose proof (print_resolutions_frame rs 1 st0) as Hf.
    pose proof (print_resolutions_ok rs 1 st0) as Hok.
    destruct (print_resolutions 1 rs st0) as [o st1].
    cbn [fst snd] in *. subst o.
    destruct Hf as (H1 & H2 & H3).
    unfold try_except, bind, input.
    destruct (stdin env (events st1)) as [choice|];
      [destruct (parse_int choice) as [n|];
       [destruct ((0 <=? n - 1)%Z
                  && (n - 1 <? Z.of_nat (List.length rs))%Z)|]
      |destruct (stdin_error env (events st1))];
      cbn; now repeat split.
Qed.

Lemma get_main_playlist_frame (self : BunnyVideoDRM) (st : State) :
  same_controls st (snd (_get_main_playlist env self st)).
Proof.
  rewrite get_main_playlist_cases. cbv zeta.
  destruct (net env (events st) (playlist_request self)) as [status text|msg];
    [|now repeat split].
  destruct (error_status status); [now repeat split|].
  destruct (parse_resolutions text) as [|r rs]; [now repeat split|].
  destruct (select_resolution_frame (config self) (r :: rs)
              (log (Get MainThread (playlist_request self)) st))
    as (H1 & H2 & H3).
  now repeat split.
Qed.

(** X1. [download] closes the session, sets the stop flag and leaves the
    ping thread finished exactly in the runs whose manifest fetch returned a
    rendition; when the manifest fetch raises, [download] passes the
    exception on and leaves flag, thread and session as they were, the
    session still open. *)
Theorem session_closed_only_after_thread_start (self : BunnyVideoDRM)
        (st : State) :
  let ping0 := Get MainThread (ping_request self (PyInt 0) "true" "0") in
  let st2 := log (Get MainThread (activate_request self)) (log ping0 st) in
  let final := snd (download env self st) in
  match fst (_get_main_playlist env self st2) with
  | Ok _ =>
      stop_event final = true
      /\ ping_thread final = Finished
      /\ session_closed final = true
  | Raise e =>
      fst (download env self st) = Raise e
      /\ stop_event final = stop_event st
      /\ ping_thread final = ping_thread st
      /\ session_closed final = session_closed st
  | Hang => False
  end.
Proof.
  cbv zeta.
  pose proof (download_run env self st) as Hrun. cbv zeta in Hrun.
  set (st2 := log (Get MainThread (activate_request self))
                  (log (Get MainThread
                          (ping_request self (PyInt 0) "true" "0")) st))
    in *.
  destruct (get_main_playlist_events env self st2) as (_ & _ & _ & Hh).
  pose proof (get_main_playlist_frame self st2) as Hf.
  destruct (_get_main_playlist env self st2) as [[res|e|] st3];
    cbn [fst snd] in *.
  - destruct Hrun as (d1 & d2 & d3 & T & r & final & Ed & _ & _ & _ & _ & Hfin).
    rewrite Ed. exact Hfin.
  - rewrite Hrun. split; [reflexivity | exact Hf].
  - now apply Hh.
Qed.

End Outcomes.

(* ================================================================== *)
(** * Further properties: interactive selection *)
(* ================================================================== *)

Section Interactive.

Context {L : PyLib}.
Variable env : Env.

Lemma print_resolutions_run (rs : list string) :
  forall (idx : Z) (st : State),
    print_resolutions idx rs st
    = (Ok tt, mkSt (events st ++ numbered_lines idx rs)%list (stop_event st)
                   (ping_thread st) (session_closed st)).
Proof.
  induction rs as [|r rs IH]; intros idx st.
  - cbn. rewrite app_nil_r. now destruct st.
  - cbn [print_resolutions numbered_lines]. unfold bind, print, emit.
    rewrite IH. cbn. now rewrite <- app_assoc.
Qed.

(** Interactive selection, case by case on what the user types. *)
Lemma select_interactive_cases (rs : list string) (st : State) :
  let shown := (events st ++ menu rs)%list in
  let n := Z.of_nat (List.length rs) in
  events (snd (select_interactive env rs st))
  = (shown ++ [Input (prompt rs)])%list
  /\ fst (select_interactive env rs st)
     = match stdin env shown with
       | None =>
           match stdin_error env shown with
           | Some msg =>
               Raise (PlaylistError ("Invalid resolution selection: " ++ msg))
           | None => Raise EOFError
           end
       | Some choice =>
           match parse_int choice with
           | None =>
               Raise (PlaylistError
                        ("Invalid resolution selection: " ++ int_error choice))
           | Some k =>
               if ((1 <=? k) && (k <=? n))%Z
               then Ok (nth (Z.to_nat (k - 1)) rs "")
               else Raise (PlaylistError
                             "Invalid resolution selection: Invalid selection index.")
           end
       end.
Proof.
  cbv zeta. unfold select_interactive, bind, print, emit.
  rewrite print_resolutions_run.
  unfold try_except, bind, input, menu.
  cbn [events log stop_event ping_thread session_closed].
  replace ((events st ++ [Print (String newline "Available resolutions:")])
             ++ numbered_lines 1 rs)%list
    with (events st ++ Print (String newline "Available resolutions:")
                    :: numbered_lines 1 rs)%list
    by (now rewrite <- app_assoc).
  fold (prompt rs).
  destruct (stdin env _) as [choice|];
    [|destruct (stdin_error env _); now split].
  destruct (parse_int choice) as [k|]; [|now split].
  replace ((1 <=? k)%Z && (k <=? Z.of_nat (List.length rs))%Z)
    with ((0 <=? k - 1)%Z && (k - 1 <? Z.of_nat (List.length rs))%Z).
  - destruct ((0 <=? k - 1)%Z && (k - 1 <? Z.of_nat (List.length rs))%Z);
      now split.
  - f_equal.
    + apply eq_true_iff_eq. rewrite !Z.leb_le. lia.
    + apply eq_true_iff_eq. rewrite Z.ltb_lt, Z.leb_le. lia.
Qed.

Lemma select_resolution_interactive (cfg : DownloadConfig)
      (rs : list string) (st : State) :
  truthy_opt (Config.resolution cfg) = false ->
  Config.interactive cfg = true ->
  select_resolution env cfg rs st = select_interactive env rs st.
Proof.
  intros H1 H2. unfold select_resolution. now rewrite H1, H2.
Qed.

Lemma numbered_lines_length (rs : list string) :
  forall idx : Z, List.length (numbered_lines idx rs) = List.length rs.
Proof.
  induction rs as [|r rs IH]; intro idx; [reflexivity|].
  cbn. now rewrite IH.
Qed.

(** X4. In interactive mode without a target, selection prints a header and
    one numbered line a rendition, asks once, and for an answer that [int]
    reads as a number k from 1 to the number of renditions it returns the
    k-th rendition of the list, counted from 1. *)
Theorem interactive_choice_is_one_based (cfg : DownloadConfig)
        (rs : list string) (st : State) (choice : string) (k : Z) :
  truthy_opt (Config.resolution cfg) = false ->
  Config.interactive cfg = true ->
  stdin env (events st ++ menu rs)%list = Some choice ->
  parse_int choice = Some k ->
  (1 <= k <= Z.of_nat (List.length rs))%Z ->
  exists r : string,
    fst (select_resolution env cfg rs st) = Ok r
    /\ nth_error rs (Z.to_nat k - 1) = Some r
    /\ events (snd (select_resolution env cfg rs st))
       = (events st ++ menu rs ++ [Input (prompt rs)])%list
    /\ List.length (menu rs) = S (List.length rs).
Proof.
  intros Hres Hint Hin Hparse Hk.
  rewrite (select_resolution_interactive _ _ _ Hres Hint).
  destruct (select_interactive_cases rs st) as [Ev Eo]. cbv zeta in Eo.
  rewrite Hin, Hparse in Eo.
  replace ((1 <=? k)%Z && (k <=? Z.of_nat (List.length rs))%Z) with true
    in Eo by (symmetry; apply andb_true_iff; rewrite !Z.leb_le; lia).
  exists (nth (Z.to_nat (k - 1)) rs "").
  split; [exact Eo|]. split.
  - replace (Z.to_nat k - 1)%nat with (Z.to_nat (k - 1)) by lia.
    apply nth_error_nth'. lia.
  - split.
    + rewrite Ev. now rewrite <- app_assoc.
    + unfold menu. cbn [List.length]. now rewrite numbered_lines_length.
Qed.

(** X5. In interactive mode without a target, selection never picks a
    rendition by itself: when it returns one, the user typed a number k
    within range and it is the k-th rendition.  An answer that [int] does
    not read ends in [PlaylistError] with the text of the [ValueError] of
    [int], whatever that text is, after [Invalid resolution selection: ];
    so does an input that cannot be decoded, with the text of its error; a
    number out of range ends in [PlaylistError] too; the end of the input
    ends in [EOFError], which no handler of the manifest fetch turns into an
    error of the package. *)
Theorem interactive_never_guesses (cfg : DownloadConfig)
        (rs : list string) (st : State) :
  truthy_opt (Config.resolution cfg) = false ->
  Config.interactive cfg = true ->
  match fst (select_resolution env cfg rs st) with
  | Ok r =>
      exists (choice : string) (k : Z),
        stdin env (events st ++ menu rs)%list = Some choice
        /\ parse_int choice = Some k
        /\ (1 <= k <= Z.of_nat (List.length rs))%Z
        /\ nth_error rs (Z.to_nat k - 1) = Some r
  | Raise e =>
      match stdin env (events st ++ menu rs)%list with
      | None =>
          match stdin_error env (events st ++ menu rs)%list with
          | Some msg =>
              e = PlaylistError ("Invalid resolution selection: " ++ msg)
          | None => e = EOFError
          end
      | Some choice =>
          match parse_int choice with
          | None =>
              e = PlaylistError
                    ("Invalid resolution selection: " ++ int_error choice)
          | Some k =>
              e = PlaylistError
                    "Invalid resolution selection: Invalid selection index."
              /\ (k < 1 \/ Z.of_nat (List.length rs) < k)%Z
          end
      end
  | Hang => False
  end.
Proof.
  intros Hres Hint.
  rewrite (select_resolution_interactive _ _ _ Hres Hint).
  destruct (select_interactive_cases rs st) as [_ Eo]. cbv zeta in Eo.
  rewrite Eo.
  destruct (stdin env (events st ++ menu rs)%list) as [choice|];
    [|destruct (stdin_error env _); reflexivity].
  destruct (parse_int choice) as [k|] eqn:Ek; [|reflexivity].
  destruct ((1 <=? k)%Z && (k <=? Z.of_nat (List.length rs))%Z) eqn:Er.
  - apply andb_true_iff in Er as [H1 H2].
    apply Z.leb_le in H1, H2.
    exists choice, k. repeat split; auto.
    replace (Z.to_nat k - 1)%nat with (Z.to_nat (k - 1)) by lia.
    apply nth_error_nth'. lia.
  - split; [reflexivity|].
    apply andb_false_iff in Er as [H|H]; apply Z.leb_gt in H; lia.
Qed.

End Interactive.

(* ================================================================== *)
(** * Further properties: the referer *)
(* ================================================================== *)

Lemma substring_all (p : string) : substring 0 (String.length p) p = p.
Proof. induction p as [|c p IH]; cbn; [reflexivity | now rewrite IH]. Qed.

Lemma substring_app_r (s p : string) :
  substring (String.length s) (String.length p) (s ++ p) = p.
Proof.
  induction s as [|c s IH]; cbn [String.length String.append substring].
  - apply substring_all.
  - exact IH.
Qed.

Lemma endswith_app (p s : string) : endswith p (s ++ p) = true.
Proof.
  unfold endswith. rewrite str_length_app.
  replace (String.length s + String.length p - String.length p)%nat
    with (String.length s) by lia.
  rewrite substring_app_r, String.eqb_refl.
  apply andb_true_iff. split; [apply Nat.leb_le; lia | reflexivity].
Qed.

Lemma normalized_referer_slash (r : string) :
  endswith "/" (normalized_referer r) = true.
Proof.
  unfold normalized_referer.
  destruct (endswith "/" r) eqn:E; [exact E | apply endswith_app].
Qed.

Lemma endswith_truthy (r : string) : endswith "/" r = true -> truthy r = true.
Proof. destruct r; [discriminate | reflexivity]. Qed.

(** X6. A configuration that validation accepts comes out with a referer
    that ends with a slash and with every other field unchanged, and
    validating it again changes nothing: validation is idempotent. *)
Theorem validation_idempotent (c c' : DownloadConfig) :
  Config.__post_init__ c = inr c' ->
  Config.__post_init__ c' = inr c'
  /\ endswith "/" (referer c') = true
  /\ referer c' = normalized_referer (referer c)
  /\ with_referer c' (referer c) = c.
Proof.
  unfold Config.__post_init__. intro H.
  destruct (negb (truthy (referer c)) || negb (truthy (embed_url c))) eqn:Em;
    [discriminate|].
  apply orb_false_iff in Em as [_ Ee].
  assert (Hc' : c' = with_referer c (normalized_referer (referer c))
                /\ re_match REFERER_RE (normalized_referer (referer c))
                   <> None).
  { unfold normalized_referer.
    destruct (endswith "/" (referer c)); cbn [negb] in H.
    - destruct (re_match REFERER_RE (referer c)) eqn:Er; [|discriminate].
      injection H as <-. split; [now destruct c | discriminate].
    - cbn [referer with_referer] in H.
      destruct (re_match REFERER_RE (referer c ++ "/")) eqn:Er;
        [|discriminate].
      injection H as <-. split; [reflexivity | discriminate]. }
  destruct Hc' as [-> Hm].
  pose proof (normalized_referer_slash (referer c)) as Hs.
  cbn [referer embed_url with_referer].
  rewrite (endswith_truthy _ Hs), Ee, Hs. cbn [negb orb].
  cbn [referer with_referer]. clear H.
  destruct (re_match REFERER_RE (normalized_referer (referer c)));
    [|contradiction].
  repeat split; auto. now destruct c.
Qed.

(** Words of the parts of a pattern. *)
Lemma lang_seq_inv (a b : regex) (pos : nat) (w : string) :
  lang (Seq a b) pos w ->
  exists w1 w2 : string,
    w = w1 ++ w2 /\ lang a pos w1 /\ lang b (String.length w1 + pos) w2.
Proof. inversion 1; subst. now exists w1, w2. Qed.

Lemma lang_chr_inv (c : ascii) (pos : nat) (w : string) :
  lang (Chr c) pos w -> w = String c "".
Proof. now inversion 1. Qed.

Lemma lang_cls_inv (p : ascii -> bool) (pos : nat) (w : string) :
  lang (Cls p) pos w -> exists c : ascii, w = String c "" /\ p c = true.
Proof. inversion 1; subst. now exists c. Qed.

Lemma lang_lit_inv (s : string) :
  forall (pos : nat) (w : string), lang (lit s) pos w -> w = s.
Proof.
  induction s as [|c s IH]; intros pos w H; cbn [lit] in H.
  - now inversion H.
  - apply lang_seq_inv in H as (w1 & w2 & -> & H1 & H2).
    apply lang_chr_inv in H1 as ->. apply IH in H2 as ->. reflexivity.
Qed.

Lemma lang_lit (s : string) : forall pos : nat, lang (lit s) pos s.
Proof.
  induction s as [|c s IH]; intro pos; cbn [lit]; [constructor|].
  change (String c s) with (String c "" ++ s).
  constructor; [constructor | apply IH].
Qed.

Lemma lang_star_cls_inv (g : bool) (p : ascii -> bool) (pos : nat)
      (w : string) :
  lang (Star g (Cls p)) pos w -> str_forallb p w = true.
Proof.
  intro H. remember (Star g (Cls p)) as r eqn:Er.
  induction H as [| | | | | | | |g' a pos w1 w2 Hne H1 _ H2 IH|];
    try discriminate Er; [reflexivity|].
  injection Er as -> ->.
  apply lang_cls_inv in H1 as (c & -> & Hc).
  rewrite str_forallb_app, (IH eq_refl), andb_true_r.
  unfold str_forallb. cbn. now rewrite Hc.
Qed.

Lemma lang_star_cls (g : bool) (p : ascii -> bool) (w : string) :
  forall pos : nat, str_forallb p w = true -> lang (Star g (Cls p)) pos w.
Proof.
  unfold str_forallb.
  induction w as [|c w IH]; intros pos H; [constructor|].
  cbn in H. apply andb_true_iff in H as [Hc Hw].
  change (String c w) with (String c "" ++ w).
  apply lang_star_more; [discriminate | now constructor | now apply IH].
Qed.

(** One or more characters of a class. *)
Lemma lang_plus_cls (p : ascii -> bool) (pos : nat) (w : string) :
  lang (Plus true (Cls p)) pos w
  <-> w <> "" /\ str_forallb p w = true.
Proof.
  unfold Plus. split.
  - intro H. apply lang_seq_inv in H as (w1 & w2 & -> & H1 & H2).
    apply lang_cls_inv in H1 as (c & -> & Hc).
    apply lang_star_cls_inv in H2.
    split; [discriminate|].
    unfold str_forallb in *. cbn. now rewrite Hc, H2.
  - intros [Hne H]. destruct w as [|c w]; [contradiction|].
    unfold str_forallb in H. cbn in H.
    apply andb_true_iff in H as [Hc Hw].
    change (String c w) with (String c "" ++ w).
    constructor; [now constructor | now apply lang_star_cls].
Qed.

Lemma lang_labels_inv (g : bool) (pos : nat) (w : string) :
  lang (Star g (Seq (Plus true (Cls alnum_dash)) (Chr "."))) pos w ->
  exists labels : list string,
    w = dotted labels /\ Forall host_label labels.
Proof.
  intro H.
  remember (Star g (Seq (Plus true (Cls alnum_dash)) (Chr "."))) as r eqn:Er.
  induction H as [| | | | | | | |g' a pos w1 w2 Hne H1 _ H2 IH|];
    try discriminate Er; [now exists []|].
  injection Er as -> ->.
  destruct (IH eq_refl) as (labels & -> & Hl).
  apply lang_seq_inv in H1 as (l & d & -> & Hlab & Hdot).
  apply lang_chr_inv in Hdot as ->.
  apply lang_plus_cls in Hlab.
  exists (l :: labels). split.
  - cbn [dotted]. now rewrite !str_app_assoc.
  - now constructor.
Qed.

Lemma lang_labels (g : bool) (labels : list string) :
  forall pos : nat,
    Forall host_label labels ->
    lang (Star g (Seq (Plus true (Cls alnum_dash)) (Chr "."))) pos
         (dotted labels).
Proof.
  induction labels as [|l labels IH]; intros pos H; [constructor|].
  inversion H as [|? ? Hl Hrest]; subst.
  cbn [dotted]. rewrite <- str_app_assoc.
  apply lang_star_more.
  - destruct l; discriminate.
  - constructor; [now apply lang_plus_cls | constructor].
  - now apply IH.
Qed.

Lemma lang_atleast2_cls (p : ascii -> bool) (pos : nat) (w : string) :
  lang (AtLeast2 (Cls p)) pos w
  <-> (2 <= String.length w)%nat /\ str_forallb p w = true.
Proof.
  unfold AtLeast2. split.
  - intro H. apply lang_seq_inv in H as (w1 & w' & -> & H1 & H).
    apply lang_seq_inv in H as (w2 & w3 & -> & H2 & H3).
    apply lang_cls_inv in H1 as (c1 & -> & Hc1).
    apply lang_cls_inv in H2 as (c2 & -> & Hc2).
    apply lang_star_cls_inv in H3.
    split; [cbn; lia|].
    unfold str_forallb in *. cbn. now rewrite Hc1, Hc2, H3.
  - intros [Hlen H]. destruct w as [|c1 [|c2 w]]; try (cbn in Hlen; lia).
    unfold str_forallb in H. cbn in H.
    apply andb_true_iff in H as [Hc1 H].
    apply andb_true_iff in H as [Hc2 Hw].
    change (String c1 (String c2 w))
      with (String c1 "" ++ (String c2 "" ++ w)).
    constructor; [now constructor|].
    constructor; [now constructor | now apply lang_star_cls].
Qed.

(** X7. The referers that validation accepts are exactly those that begin
    with http:// or https://, then one or more host labels of letters,
    digits and hyphens each followed by a dot, then a last label of two or
    more letters, then a slash; what follows the slash is free. *)
Theorem referer_pattern_shape (r : string) :
  matches REFERER_RE r = true <-> referer_shape r.
Proof.
  rewrite matches_lang. unfold REFERER_RE, referer_shape. split.
  - intros (w & s' & -> & H).
    apply lang_seq_inv in H as (w0 & w1 & -> & H0 & H).
    inversion H0; subst. clear H0. cbn [String.append String.length] in *.
    apply lang_seq_inv in H as (wh & w2 & -> & Hh & H).
    apply lang_lit_inv in Hh as ->.
    apply lang_seq_inv in H as (ws & w3 & -> & Hs & H).
    apply lang_seq_inv in H as (wc & w4 & -> & Hc & H).
    apply lang_lit_inv in Hc as ->.
    apply lang_seq_inv in H as (wl & w5 & -> & Hl & H).
    apply lang_seq_inv in H as (wt & wz & -> & Ht & Hz).
    apply lang_chr_inv in Hz as ->.
    apply lang_atleast2_cls in Ht as [Hlen Halpha].
    unfold Plus in Hl.
    apply lang_seq_inv in Hl as (wl1 & wl2 & -> & Hl1 & Hl2).
    apply lang_seq_inv in Hl1 as (l0 & wd & -> & Hl0 & Hd).
    apply lang_chr_inv in Hd as ->.
    apply lang_plus_cls in Hl0.
    apply lang_labels_inv in Hl2 as (labels & -> & Hlabels).
    exists ("http" ++ ws), (l0 :: labels), wt, s'.
    split.
    { cbn [dotted]. rewrite !str_app_assoc. reflexivity. }
    split.
    { unfold Opt in Hs. inversion Hs; subst.
      - match goal with Hx : lang (Chr _) _ _ |- _ =>
          apply lang_chr_inv in Hx as -> end. now right.
      - match goal with Hx : lang Eps _ _ |- _ => inversion Hx end.
        now left. }
    split; [discriminate|].
    split; [now constructor|]. now split.
  - intros (scheme & labels & tld & rest & -> & Hs & Hne & Hl & Hlen & Ha).
    destruct labels as [|l0 labels]; [contradiction|].
    inversion Hl as [|? ? Hl0 Hrest]; subst.
    exists (scheme ++ "://" ++ dotted (l0 :: labels) ++ tld ++ "/"), rest.
    split; [now rewrite !str_app_assoc|].
    change (scheme ++ "://" ++ dotted (l0 :: labels) ++ tld ++ "/")
      with ("" ++ (scheme ++ "://" ++ dotted (l0 :: labels) ++ tld ++ "/")).
    constructor; [constructor|].
    assert (Hscheme : exists ws, scheme = "http" ++ ws
                                 /\ lang (Opt (Chr "s")) 4 ws).
    { destruct Hs as [-> | ->].
      - exists "". split; [reflexivity|]. apply lang_alt_r. constructor.
      - exists "s". split; [reflexivity|]. apply lang_alt_l. constructor. }
    destruct Hscheme as (ws & -> & Hws).
    rewrite str_app_assoc.
    constructor; [apply lang_lit|].
    constructor; [exact Hws|].
    constructor; [apply lang_lit|].
    constructor.
    + unfold Plus. cbn [dotted]. rewrite <- str_app_assoc.
      constructor.
      * constructor; [now apply lang_plus_cls | constructor].
      * now apply lang_labels.
    + constructor; [now apply lang_atleast2_cls | constructor].
Qed.

(* ================================================================== *)
(** * Further properties: what construction reads in the embed page *)
(* ================================================================== *)

(** A literal matches the text that begins with it, and no other. *)
Lemma run_lit (l : string) :
  forall (fuel pos : nat) (t : string) (cs : caps) (k : cont),
    run fuel (lit l) pos (l ++ t) cs k = k (String.length l + pos)%nat t cs.
Proof.
  induction l as [|c l IH]; intros fuel pos t cs k; cbn [lit String.append].
  - now rewrite run_eps.
  - rewrite run_seq, run_chr, Ascii.eqb_refl, IH.
    cbn [String.length]. now rewrite Nat.add_succ_r.
Qed.

Lemma run_lit_fails (l : string) :
  forall (fuel pos : nat) (s : string) (cs : caps) (k : cont),
    startswith l s = false -> run fuel (lit l) pos s cs k = None.
Proof.
  induction l as [|c l IH]; intros fuel pos s cs k H; [discriminate|].
  cbn [lit]. rewrite run_seq.
  destruct s as [|d s]; [destruct fuel; reflexivity|].
  rewrite run_chr. cbn [startswith] in H.
  destruct (Ascii.eqb c d); [|reflexivity].
  apply IH. exact H.
Qed.

(** The search for a pattern that begins with a literal starts where the
    literal first occurs. *)
Lemma search_skips_to_literal (l : string) (r : regex) (pre : string) :
  forall (pos : nat) (s : string),
    find_sub l (pre ++ s) = Some (String.length pre) ->
    search_from (Seq (lit l) r) pos (pre ++ s)
    = search_from (Seq (lit l) r) (String.length pre + pos) s.
Proof.
  induction pre as [|c pre IH]; intros pos s H; [reflexivity|].
  cbn [String.append String.length] in *.
  cbn [find_sub] in H.
  destruct (startswith l (String c (pre ++ s))) eqn:E; [discriminate|].
  destruct (find_sub l (pre ++ s)) as [n|] eqn:En; [|discriminate].
  injection H as ->.
  rewrite search_from_eq. unfold match_at at 1.
  rewrite run_seq, (run_lit_fails _ _ _ _ _ _ E).
  rewrite (IH (S pos) s En). now rewrite Nat.add_succ_r.
Qed.

(** A continuation that refuses every text beginning with a character of
    [q] fails along a text made of such characters. *)
Lemma fails_along_head (k : cont) (q : ascii -> bool) (l : string) :
  (forall (pos : nat) (c : ascii) (s : string) (cs : caps),
      q c = true -> k pos (String c s) cs = None) ->
  str_forallb q l = true ->
  forall (p : nat) (t : string) (cs : caps), fails_along k p l t cs.
Proof.
  intro Hk. unfold str_forallb.
  induction l as [|c l IH]; intros Hl p t cs; cbn [fails_along]; [exact I|].
  cbn [list_ascii_of_string forallb] in Hl.
  apply andb_true_iff in Hl as [Hc Hl].
  split; [|now apply IH].
  cbn [String.append]. now apply Hk.
Qed.

Lemma free_of_facts (c : ascii) (s : string) :
  free_of c s = true ->
  str_forallb dot s = true
  /\ str_forallb (fun d => negb (Ascii.eqb c d)) s = true.
Proof.
  unfold free_of, str_forallb.
  induction (list_ascii_of_string s) as [|d l IH]; cbn [forallb]; intro H;
    [now split|].
  apply andb_true_iff in H as [Hd Hl].
  apply andb_true_iff in Hd as [H1 H2].
  destruct (IH Hl) as [I1 I2]. now rewrite H1, H2, I1, I2.
Qed.

Section Extraction.

Context {L : PyLib}.

(** X8. The server id is read back from the page: when the text
    [https://video-] first occurs in the page in front of a fragment
    [https://video-<sid>.mediadelivery.net], with an id that holds neither a
    dot nor a newline, [re.search] finds that fragment and its group 1 is the
    id, whatever stands before and after. *)
Theorem server_id_found (pre sid rest : string) (st : State) :
  let page := pre ++ "https://video-" ++ sid ++ ".mediadelivery.net" ++ rest in
  find_sub "https://video-" page = Some (String.length pre) ->
  free_of "." sid = true ->
  extract_server_id page st = (Ok sid, st).
Proof.
  cbv zeta. intros Hfirst Hsid.
  destruct (free_of_facts _ _ Hsid) as [Hdot Hfree].
  unfold extract_server_id, try_except, search, SERVER_ID_RE.
  rewrite (search_skips_to_literal _ _ _ 0 _ Hfirst).
  rewrite search_from_eq. unfold match_at.
  set (fuel := S (String.length _)).
  assert (Hfuel : (String.length sid < fuel)%nat).
  { unfold fuel. rewrite !str_length_app. lia. }
  rewrite run_seq, run_lit, run_seq, run_group.
  rewrite (lazy_star_first dot sid fuel _ _ _ _
             (String.length ".mediadelivery.net"
              + (String.length sid + (String.length "https://video-"
                                      + (String.length pre + 0))),
              rest,
              [(1%nat, sid)])%nat Hdot Hfuel).
  - reflexivity.
  - apply (fails_along_head _ (fun d => negb (Ascii.eqb "." d))); [|exact Hfree].
    intros pos c s cs Hc. cbn [lit]. rewrite run_seq, run_chr.
    now destruct (Ascii.eqb "." c).
  - rewrite run_lit. unfold accept. now rewrite take_app.
Qed.

(** X9. Context id and secret are read back from the page: when the text
    [contextId=] first occurs in the page in front of a fragment
    [contextId=<ctx>&secret=<sec>] closed by a double quote, where the
    context id holds no ampersand, the secret no double quote and neither a
    newline, the two groups of the search are the context id and the
    secret. *)
Theorem context_and_secret_found (pre ctx sec rest : string) (st : State) :
  let page := pre ++ "contextId=" ++ ctx ++ "&secret=" ++ sec
                  ++ String dquote rest in
  find_sub "contextId=" page = Some (String.length pre) ->
  free_of "&" ctx = true ->
  free_of dquote sec = true ->
  extract_context page st = (Ok (ctx, sec), st).
Proof.
  cbv zeta. intros Hfirst Hctx Hsec.
  destruct (free_of_facts _ _ Hctx) as [Hdot1 Hfree1].
  destruct (free_of_facts _ _ Hsec) as [Hdot2 Hfree2].
  unfold extract_context, try_except, search, CONTEXT_RE.
  rewrite (search_skips_to_literal _ _ _ 0 _ Hfirst).
  rewrite search_from_eq. unfold match_at.
  set (fuel := S (String.length _)).
  assert (Hfuel : (String.length ctx + String.length sec < fuel)%nat).
  { unfold fuel. rewrite !str_length_app. lia. }
  rewrite run_seq, run_lit, run_seq, run_group.
  set (p1 := (String.length "contextId=" + (String.length pre + 0))%nat).
  set (p2 := (String.length "&secret=" + (String.length ctx + p1))%nat).
  rewrite (lazy_star_first dot ctx fuel _ _ _ _
             (S (String.length sec + p2), rest,
              [(2%nat, sec); (1%nat, ctx)]) Hdot1).
  - reflexivity.
  - lia.
  - apply (fails_along_head _ (fun d => negb (Ascii.eqb "&" d))); [|exact Hfree1].
    intros pos c s cs Hc. rewrite run_seq. cbn [lit]. rewrite run_seq, run_chr.
    now destruct (Ascii.eqb "&" c).
  - rewrite run_seq, run_lit, run_seq, run_group. fold p2.
    rewrite (lazy_star_first dot sec fuel _ _ _ _
               (S (String.length sec + p2), rest,
                [(2%nat, sec); (1%nat, ctx)]) Hdot2).
    + reflexivity.
    + lia.
    + apply (fails_along_head _ (fun d => negb (Ascii.eqb dquote d)));
        [|exact Hfree2].
      intros pos c s cs Hc. rewrite run_chr.
      now destruct (Ascii.eqb dquote c).
    + change (String dquote rest) with (String dquote "" ++ rest)%string.
      cbn [String.append]. rewrite run_chr, Ascii.eqb_refl.
      unfold accept. now rewrite !take_app.
Qed.

End Extraction.

(* ================================================================== *)
(** * The further properties on concrete inputs *)
(* ================================================================== *)

Lemma interactive_choice_is_one_based_witness :
  let env := Example.typist Example.manifest3 "2" in
  truthy_opt (Config.resolution Example.ask) = false
  /\ Config.interactive Example.ask = true
  /\ stdin env (events initial ++ menu Example.three)%list = Some "2"
  /\ parse_int (PyLib:=Example.lib) "2" = Some 2%Z
  /\ exists r : string,
       fst (select_resolution (L:=Example.lib) env Example.ask Example.three
              initial) = Ok r
       /\ nth_error Example.three (Z.to_nat 2 - 1) = Some r
       /\ events (snd (select_resolution (L:=Example.lib) env Example.ask
                         Example.three initial))
          = (events initial ++ menu Example.three
               ++ [Input (prompt Example.three)])%list
       /\ List.length (menu Example.three)
          = S (List.length Example.three).
Proof.
  cbv zeta. do 4 (split; [reflexivity|]).
  apply (interactive_choice_is_one_based (L:=Example.lib)
           (Example.typist Example.manifest3 "2") Example.ask Example.three
           initial "2" 2%Z eq_refl eq_refl eq_refl eq_refl).
  cbn. lia.
Defined.

Lemma interactive_never_guesses_witness :
  let env := Example.typist Example.manifest3 "9" in
  truthy_opt (Config.resolution Example.ask) = false
  /\ Config.interactive Example.ask = true
  /\ match fst (select_resolution (L:=Example.lib) env Example.ask
                  Example.three initial) with
     | Ok r =>
         exists (choice : string) (k : Z),
           stdin env (events initial ++ menu Example.three)%list = Some choice
           /\ parse_int choice = Some k
           /\ (1 <= k <= Z.of_nat (List.length Example.three))%Z
           /\ nth_error Example.three (Z.to_nat k - 1) = Some r
     | Raise e =>
         match stdin env (events initial ++ menu Example.three)%list with
         | None =>
             match stdin_error env
                     (events initial ++ menu Example.three)%list with
             | Some msg =>
                 e = PlaylistError ("Invalid resolution selection: " ++ msg)
             | None => e = EOFError
             end
         | Some choice =>
             match parse_int choice with
             | None =>
                 e = PlaylistError
                       ("Invalid resolution selection: " ++ int_error choice)
             | Some k =>
                 e = PlaylistError
                       "Invalid resolution selection: Invalid selection index."
                 /\ (k < 1 \/ Z.of_nat (List.length Example.three) < k)%Z
             end
         end
     | Hang => False
     end.
Proof.
  cbv zeta. do 2 (split; [reflexivity|]).
  exact (interactive_never_guesses (L:=Example.lib)
           (Example.typist Example.manifest3 "9") Example.ask Example.three
           initial eq_refl eq_refl).
Defined.

Lemma validation_idempotent_witness :
  let c := mkConfig "https://example.com"
             "https://iframe.mediadelivery.net/embed/1234/abcd"
             (Some "lecture") None false None None in
  let c' := with_referer c "https://example.com/" in
  Config.__post_init__ c = inr c'
  /\ Config.__post_init__ c' = inr c'
  /\ endswith "/" (referer c') = true
  /\ referer c' = normalized_referer (referer c)
  /\ with_referer c' (referer c) = c.
Proof.
  cbv zeta. split; [vm_compute; reflexivity|].
  apply (validation_idempotent
           (mkConfig "https://example.com"
              "https://iframe.mediadelivery.net/embed/1234/abcd"
              (Some "lecture") None false None None)).
  vm_compute. reflexivity.
Defined.

Lemma server_id_found_witness :
  let page := "<link href=" ++ "https://video-" ++ "vz-7f3a" ++ ".mediadelivery.net"
                ++ "/style.css>" in
  find_sub "https://video-" page = Some (String.length "<link href=")
  /\ free_of "." "vz-7f3a" = true
  /\ fst (extract_server_id (L:=Example.lib) page initial) = Ok "vz-7f3a".
Proof.
  cbv zeta. do 2 (split; [reflexivity|]).
  exact (f_equal fst
           (server_id_found (L:=Example.lib) "<link href=" "vz-7f3a"
              "/style.css>" initial eq_refl eq_refl)).
Defined.

Lemma context_and_secret_found_witness :
  let page := "src=" ++ "contextId=" ++ "c0ffee-12" ++ "&secret=" ++ "s3cr3t"
                ++ String dquote "></script>" in
  find_sub "contextId=" page = Some (String.length "src=")
  /\ free_of "&" "c0ffee-12" = true
  /\ free_of dquote "s3cr3t" = true
  /\ fst (extract_context (L:=Example.lib) page initial)
     = Ok ("c0ffee-12", "s3cr3t").
Proof.
  cbv zeta. do 3 (split; [reflexivity|]).
  exact (f_equal fst
           (context_and_secret_found (L:=Example.lib) "src=" "c0ffee-12"
              "s3cr3t" "></script>" initial eq_refl eq_refl eq_refl)).
Defined.

(* ================================================================== *)
(** * Further properties: when the searches fail *)
(* ================================================================== *)

(** [re.search] finds a match exactly when some part of the text is in the
    language of the pattern. *)
Lemma search_from_lang (r : regex) (s : string) :
  forall pos : nat,
    search_from r pos s <> None
    <-> exists pre w rest : string,
          s = pre ++ w ++ rest /\ lang r (String.length pre + pos) w.
Proof.
  intro pos. split.
  - revert pos. induction s as [|c s IH]; intros pos H;
      rewrite search_from_eq in H;
      destruct (match_at r pos _) as [x|] eqn:E.
    + apply run_sound in E as (w & s' & _ & Es & Hl & _).
      exists "", w, s'. now split.
    + contradiction.
    + apply run_sound in E as (w & s' & _ & Es & Hl & _).
      exists "", w, s'. now split.
    + destruct (IH (S pos) H) as (pre & w & rest & -> & Hl).
      exists (String c pre), w, rest. split; [reflexivity|].
      cbn [String.length]. now rewrite Nat.add_succ_r in Hl.
  - intros (pre & w & rest & -> & Hl). revert pos Hl.
    induction pre as [|c pre IH]; intros pos Hl.
    + cbn [String.append String.length Nat.add] in *.
      rewrite search_from_eq. unfold match_at.
      destruct (run_complete r pos w Hl (S (String.length (w ++ rest))) rest
                  [] accept) as [y ->]; [lia | | discriminate].
      intro cs'. eexists. reflexivity.
    + cbn [String.append]. rewrite search_from_eq.
      destruct (match_at r pos _); [discriminate|].
      apply IH. cbn [String.length] in Hl. now rewrite Nat.add_succ_r.
Qed.

Lemma search_lang (r : regex) (s : string) :
  search r s <> None
  <-> exists pre w rest : string,
        s = pre ++ w ++ rest /\ lang r (String.length pre) w.
Proof.
  unfold search. split.
  - intro H.
    assert (H' : search_from r 0 s <> None)
      by (intro E; apply H; now rewrite E).
    apply search_from_lang in H' as (pre & w & rest & -> & Hl).
    exists pre, w, rest. split; [reflexivity|].
    now rewrite Nat.add_0_r in Hl.
  - intros (pre & w & rest & -> & Hl).
    assert (H' : search_from r 0 (pre ++ w ++ rest) <> None).
    { apply search_from_lang. exists pre, w, rest.
      split; [reflexivity | now rewrite Nat.add_0_r]. }
    destruct (search_from r 0 (pre ++ w ++ rest)); [discriminate|].
    contradiction.
Qed.

Lemma lang_group_inv (n : nat) (a : regex) (pos : nat) (w : string) :
  lang (Group n a) pos w -> lang a pos w.
Proof. now inversion 1. Qed.

Lemma lang_server_id (pos : nat) (w : string) :
  lang SERVER_ID_RE pos w
  <-> exists sid : string,
        w = "https://video-" ++ sid ++ ".mediadelivery.net"
        /\ str_forallb dot sid = true.
Proof.
  unfold SERVER_ID_RE. split.
  - intro H.
    apply lang_seq_inv in H as (w1 & w' & -> & H1 & H).
    apply lang_seq_inv in H as (w2 & w3 & -> & H2 & H3).
    apply lang_lit_inv in H1 as ->. apply lang_lit_inv in H3 as ->.
    apply lang_group_inv, lang_star_cls_inv in H2.
    now exists w2.
  - intros (sid & -> & Hs).
    apply lang_seq; [apply lang_lit|].
    apply lang_seq; [|apply lang_lit].
    apply lang_group. now apply lang_star_cls.
Qed.

Lemma lang_context (pos : nat) (w : string) :
  lang CONTEXT_RE pos w
  <-> exists ctx sec : string,
        w = "contextId=" ++ ctx ++ "&secret=" ++ sec ++ String dquote ""
        /\ str_forallb dot ctx = true /\ str_forallb dot sec = true.
Proof.
  unfold CONTEXT_RE. split.
  - intro H.
    apply lang_seq_inv in H as (w1 & w' & -> & H1 & H).
    apply lang_seq_inv in H as (w2 & w'' & -> & H2 & H).
    apply lang_seq_inv in H as (w3 & w''' & -> & H3 & H).
    apply lang_seq_inv in H as (w4 & w5 & -> & H4 & H5).
    apply lang_lit_inv in H1 as ->. apply lang_lit_inv in H3 as ->.
    apply lang_chr_inv in H5 as ->.
    apply lang_group_inv, lang_star_cls_inv in H2.
    apply lang_group_inv, lang_star_cls_inv in H4.
    now exists w2, w4.
  - intros (ctx & sec & -> & Hc & Hs).
    apply lang_seq; [apply lang_lit|].
    apply lang_seq; [apply lang_group; now apply lang_star_cls|].
    apply lang_seq; [apply lang_lit|].
    apply lang_seq; [apply lang_group; now apply lang_star_cls|].
    constructor.
Qed.

Lemma lang_title (pos : nat) (w : string) :
  lang TITLE_RE pos w
  <-> exists title : string,
        w = "og:title"
              ++ String dquote ""
              ++ " content=" ++ String dquote "" ++ title ++ String dquote ""
        /\ str_forallb dot title = true.
Proof.
  unfold TITLE_RE. split.
  - intro H.
    apply lang_seq_inv in H as (w1 & w' & -> & H1 & H).
    apply lang_seq_inv in H as (w2 & w'' & -> & H2 & H).
    apply lang_seq_inv in H as (w3 & w''' & -> & H3 & H).
    apply lang_seq_inv in H as (w4 & w'''' & -> & H4 & H).
    apply lang_seq_inv in H as (w5 & w6 & -> & H5 & H6).
    apply lang_lit_inv in H1 as ->. apply lang_lit_inv in H3 as ->.
    apply lang_chr_inv in H2 as ->. apply lang_chr_inv in H4 as ->.
    apply lang_chr_inv in H6 as ->.
    apply lang_group_inv, lang_star_cls_inv in H5.
    now exists w5.
  - intros (title & -> & Ht).
    apply lang_seq; [apply lang_lit|].
    apply lang_seq; [constructor|].
    apply lang_seq; [apply lang_lit|].
    apply lang_seq; [constructor|].
    apply lang_seq; [apply lang_group; now apply lang_star_cls|].
    constructor.
Qed.

Lemma server_fragment_search (page : string) :
  has_server_fragment page <-> search SERVER_ID_RE page <> None.
Proof.
  rewrite search_lang. unfold has_server_fragment. split.
  - intros (pre & sid & rest & -> & Hs).
    exists pre, ("https://video-" ++ sid ++ ".mediadelivery.net"), rest.
    split.
    + now rewrite !str_app_assoc.
    + apply lang_server_id. now exists sid.
  - intros (pre & w & rest & -> & Hl).
    apply lang_server_id in Hl as (sid & -> & Hs).
    exists pre, sid, rest. split; [|exact Hs].
    now rewrite !str_app_assoc.
Qed.

Lemma context_fragment_search (page : string) :
  has_context_fragment page <-> search CONTEXT_RE page <> None.
Proof.
  rewrite search_lang. unfold has_context_fragment. split.
  - intros (pre & ctx & sec & rest & -> & Hc & Hs).
    exists pre,
      ("contextId=" ++ ctx ++ "&secret=" ++ sec ++ String dquote ""), rest.
    split.
    + now rewrite !str_app_assoc.
    + apply lang_context. now exists ctx, sec.
  - intros (pre & w & rest & -> & Hl).
    apply lang_context in Hl as (ctx & sec & -> & Hc & Hs).
    exists pre, ctx, sec, rest. split; [|now split].
    now rewrite !str_app_assoc.
Qed.

Lemma title_fragment_search (page : string) :
  has_title_fragment page <-> search TITLE_RE page <> None.
Proof.
  rewrite search_lang. unfold has_title_fragment. split.
  - intros (pre & title & rest & -> & Ht).
    exists pre,
      ("og:title" ++ String dquote ""
         ++ " content=" ++ String dquote "" ++ title ++ String dquote ""),
      rest.
    split.
    + now rewrite !str_app_assoc.
    + apply lang_title. now exists title.
  - intros (pre & w & rest & -> & Hl).
    apply lang_title in Hl as (title & -> & Ht).
    exists pre, title, rest. split; [|exact Ht].
    now rewrite !str_app_assoc.
Qed.

Section Construction.

Context {L : PyLib}.
Variable env : Env.

(** Construction after a good answer to the embed request, when the
    generator of the identity and [urlparse] raised nothing: the three
    searches, in the order of the source, and then the directory. *)
Lemma init_after_fetch (cfg : DownloadConfig) (st : State) (status : Z)
      (page : string) :
  truthy (referer cfg) = true ->
  truthy (embed_url cfg) = true ->
  identity_error env = None ->
  urlparse_error (embed_url cfg) = None ->
  net env (events st) (embed_request cfg (new_headers env cfg))
  = Response status page ->
  error_status status = false ->
  fst (__init__ env cfg st)
  = match search SERVER_ID_RE page with
    | None => Raise (ExtractionError "Could not extract server ID.")
    | Some m1 =>
        match search CONTEXT_RE page with
        | None =>
            Raise (ExtractionError "Could not extract context ID and secret.")
        | Some m2 =>
            match extract_file_name cfg page st with
            | (Ok fname, _) =>
                match path_error env cfg with
                | Some e => Raise e
                | None =>
                    Ok (mkDRM cfg
                          (with_server_id (new_headers env cfg)
                             (group_of 1 m1))
                          (split_last "/" (urlparse_path (embed_url cfg)))
                          (group_of 1 m1) (group_of 1 m2) (group_of 2 m2)
                          fname
                          (if truthy_opt (Config.path cfg)
                           then expanduser env
                                  (match Config.path cfg with
                                   | Some p => p
                                   | None => ""
                                   end)
                           else cwd env))
                end
            | (Raise e, _) => Raise e
            | (Hang, _) => Hang
            end
        end
    end.
Proof.
  intros Hr He Hi Hu Hn Hs. unfold __init__.
  rewrite Hr, He, Hi, Hu. cbn [negb orb].
  unfold _parse_embed_page, bind, try_except, session_get, raise_for_status.
  rewrite Hn. cbn [fst snd].
  change ((400 <=? status)%Z && (status <? 600)%Z) with (error_status status).
  rewrite Hs. cbn [ret is_RequestException].
  unfold extract_server_id, extract_context, try_except.
  destruct (search SERVER_ID_RE page) as [m1|]; [|reflexivity]. cbn [ret].
  destruct (search CONTEXT_RE page) as [m2|]; [|reflexivity]. cbn [ret fst snd].
  unfold extract_file_name, try_except.
  destruct (truthy_opt (Config.name cfg)).
  - cbn [ret fst snd]. destruct (path_error env cfg); reflexivity.
  - destruct (search TITLE_RE page); [|reflexivity].
    cbn [ret fst snd]. destruct (path_error env cfg); reflexivity.
Qed.

Lemma path_error_class (cfg : DownloadConfig) (e : exn) :
  path_error env cfg = Some e ->
  (exists m : string, e = RuntimeError m)
  \/ (exists m : string, e = OtherError "FileNotFoundError" m).
Proof.
  unfold path_error.
  destruct (truthy_opt (Config.path cfg)).
  - destruct (expanduser_error env _) as [m|]; [|discriminate].
    intros [= <-]. left. now exists m.
  - destruct (cwd_error env) as [m|]; [|discriminate].
    intros [= <-]. right. now exists m.
Qed.

Ltac settle_outcomes :=
  repeat split; intros;
  repeat match goal with
         | H : exists _, _ |- _ => destruct H as [? H]
         | H : _ /\ _ |- _ => destruct H
         | H : _ \/ _ |- _ => destruct H
         end;
  subst;
  try discriminate; try contradiction; try congruence; try tauto; eauto.

(** X10. Where the generator of the identity and [urlparse] raised nothing
    and the embed request got a good answer, construction fails with the
    error of the first fragment that the page lacks, in the order server id,
    context id and secret, title; the title is looked for only when no name
    is configured.  When nothing is missing, the last statement decides: if
    [expanduser] raises on the configured path, or [Path.cwd()] without a
    configured path, that exception leaves construction; otherwise
    construction returns an object.  So it returns an object exactly when
    the page holds the server fragment and the context fragment, a name is
    configured or the page holds the title fragment, and the last statement
    does not raise. *)
Theorem construction_outcomes (cfg : DownloadConfig) (st : State)
        (status : Z) (page : string) :
  truthy (referer cfg) = true ->
  truthy (embed_url cfg) = true ->
  identity_error env = None ->
  urlparse_error (embed_url cfg) = None ->
  net env (events st) (embed_request cfg (new_headers env cfg))
  = Response status page ->
  error_status status = false ->
  let out := fst (__init__ env cfg st) in
  let complete :=
    has_server_fragment page /\ has_context_fragment page
    /\ (truthy_opt (Config.name cfg) = true \/ has_title_fragment page) in
  (out = Raise (ExtractionError "Could not extract server ID.")
   <-> ~ has_server_fragment page)
  /\ (out = Raise (ExtractionError "Could not extract context ID and secret.")
      <-> has_server_fragment page /\ ~ has_context_fragment page)
  /\ (out = Raise (ExtractionError "Could not extract video title.")
      <-> has_server_fragment page /\ has_context_fragment page
          /\ truthy_opt (Config.name cfg) = false
          /\ ~ has_title_fragment page)
  /\ (forall e : exn,
         path_error env cfg = Some e -> (out = Raise e <-> complete))
  /\ ((exists video : BunnyVideoDRM, out = Ok video)
      <-> complete /\ path_error env cfg = None).
Proof.
  intros Hr He Hi Hu Hn Hs. cbv zeta.
  rewrite (init_after_fetch cfg st status page Hr He Hi Hu Hn Hs).
  pose proof (server_fragment_search page) as F1.
  pose proof (context_fragment_search page) as F2.
  pose proof (title_fragment_search page) as F3.
  pose proof (path_error_class cfg) as Fp.
  unfold extract_file_name, try_except.
  destruct (search SERVER_ID_RE page) as [m1|].
  2:{ assert (N1 : ~ has_server_fragment page)
        by (intro H; apply F1 in H; now apply H).
      repeat split; intros;
        try (match goal with
             | H : path_error env cfg = Some ?e |- _ =>
                 destruct (Fp e H) as [[m ->]|[m ->]]
             end);
        settle_outcomes. }
  assert (Y1 : has_server_fragment page) by (apply F1; discriminate).
  destruct (search CONTEXT_RE page) as [m2|].
  2:{ assert (N2 : ~ has_context_fragment page)
        by (intro H; apply F2 in H; now apply H).
      repeat split; intros;
        try (match goal with
             | H : path_error env cfg = Some ?e |- _ =>
                 destruct (Fp e H) as [[m ->]|[m ->]]
             end);
        settle_outcomes. }
  assert (Y2 : has_context_fragment page) by (apply F2; discriminate).
  destruct (truthy_opt (Config.name cfg)) eqn:En; cbn [ret].
  - destruct (path_error env cfg) as [e0|] eqn:Ep;
      [destruct (Fp e0 eq_refl) as [[m ->]|[m ->]]|]; settle_outcomes.
  - destruct (search TITLE_RE page) as [m3|]; cbn [ret raise any_Exception].
    + assert (Y3 : has_title_fragment page) by (apply F3; discriminate).
      destruct (path_error env cfg) as [e0|] eqn:Ep;
      [destruct (Fp e0 eq_refl) as [[m ->]|[m ->]]|]; settle_outcomes.
    + assert (N3 : ~ has_title_fragment page)
        by (intro H; apply F3 in H; now apply H).
      repeat split; intros;
        try (match goal with
             | H : path_error env cfg = Some ?e |- _ =>
                 destruct (Fp e H) as [[m ->]|[m ->]]
             end);
        settle_outcomes.
Qed.

End Construction.

(* ================================================================== *)
(** * Further properties: the object that construction returns *)
(* ================================================================== *)

Lemma split_last_aux_clean (sep : ascii) (s : string) :
  forall acc : string,
    str_existsb (Ascii.eqb sep) s = false -> split_last_aux sep s acc = acc.
Proof.
  unfold str_existsb.
  induction s as [|c s IH]; intros acc H; [reflexivity|].
  cbn [list_ascii_of_string existsb] in H.
  apply orb_false_iff in H as [Hc Hs].
  cbn [split_last_aux]. rewrite Ascii.eqb_sym, Hc. now apply IH.
Qed.

(** What follows the last separator is what [split] gives last. *)
Lemma split_last_app (sep : ascii) (a g : string) :
  str_existsb (Ascii.eqb sep) g = false ->
  split_last sep (a ++ String sep g) = g.
Proof.
  intro Hg. unfold split_last.
  generalize (a ++ String sep g) at 2. 
  induction a as [|c a IH]; intro acc; cbn [String.append split_last_aux].
  - rewrite Ascii.eqb_refl. now apply split_last_aux_clean.
  - destruct (Ascii.eqb c sep); apply IH.
Qed.

Lemma split_last_suffix (sep : ascii) (s : string) :
  endswith (split_last sep s) s = true
  /\ str_existsb (Ascii.eqb sep) (split_last sep s) = false.
Proof.
  unfold split_last.
  destruct (split_last_aux_spec sep s s) as [[Hno Heq]|(a & Ha & Hn)].
  - rewrite Heq. split; [|exact Hno].
    exact (endswith_app s "").
  - split; [|exact Hn].
    remember (split_last_aux sep s s) as g eqn:Eg. clear Eg. subst s.
    change (a ++ String sep g) with (a ++ (String sep "" ++ g)).
    rewrite <- str_app_assoc. apply endswith_app.
Qed.

Section Constructed.

Context {L : PyLib}.
Variable env : Env.

(** X11. An object that construction returns: it holds the configuration
    it was given, whose referer and embed URL are not empty; the headers
    manager carries the server id of the object; the guid is the end of the
    path of the embed URL and holds no slash, and it is the last segment
    when the path ends in a slash and a segment; the file name ends in
    [.mp4], and it is the configured name followed by [.mp4] when a name is
    configured; the directory is the working directory when no path is
    configured; and construction made one request, the GET of the embed
    page. *)
Theorem constructed_object (cfg : DownloadConfig) (st : State)
        (video : BunnyVideoDRM) :
  fst (__init__ env cfg st) = Ok video ->
  config video = cfg
  /\ referer cfg <> "" /\ embed_url cfg <> ""
  /\ h_server_id (headers_manager video) = server_id video
  /\ endswith (guid video) (urlparse_path (embed_url cfg)) = true
  /\ str_existsb (Ascii.eqb "/") (guid video) = false
  /\ (forall a g : string,
         urlparse_path (embed_url cfg) = a ++ String "/" g ->
         str_existsb (Ascii.eqb "/") g = false -> guid video = g)
  /\ endswith ".mp4" (file_name video) = true
  /\ (forall n : string,
         Config.name cfg = Some n -> n <> "" ->
         file_name video = n ++ ".mp4")
  /\ (Config.path cfg = None -> path video = cwd env)
  /\ events (snd (__init__ env cfg st))
     = (events st
          ++ [Get MainThread (embed_request cfg (new_headers env cfg))])%list.
Proof.
  unfold __init__.
  destruct (truthy (referer cfg)) eqn:Hr; [|discriminate].
  destruct (truthy (embed_url cfg)) eqn:He; [|discriminate].
  cbn [negb orb].
  destruct (identity_error env) as [[cls bad]|]; [discriminate|].
  destruct (urlparse_error (embed_url cfg)); [discriminate|].
  unfold _parse_embed_page, bind, try_except, session_get, raise_for_status.
  destruct (net env (events st) _) as [status page|msg]; [|discriminate].
  cbn [fst snd].
  destruct ((400 <=? status)%Z && (status <? 600)%Z); [discriminate|].
  cbn [ret is_RequestException].
  unfold extract_server_id, extract_context, try_except.
  destruct (search SERVER_ID_RE page) as [m1|]; [|discriminate]. cbn [ret].
  destruct (search CONTEXT_RE page) as [m2|]; [|discriminate].
  cbn [ret fst snd].
  assert (Hname :
            forall fname st1,
              extract_file_name cfg page
                (log (Get MainThread (embed_request cfg (new_headers env cfg)))
                     st)
              = (Ok fname, st1) ->
              endswith ".mp4" fname = true
              /\ (forall n, Config.name cfg = Some n -> n <> "" ->
                            fname = n ++ ".mp4")
              /\ st1 = log (Get MainThread
                              (embed_request cfg (new_headers env cfg))) st).
  { intros fname st1. unfold extract_file_name, try_except.
    destruct (Config.name cfg) as [n|] eqn:En; cbn [truthy_opt].
    - destruct (truthy n) eqn:Tn.
      + intros [= <- <-]. split; [apply endswith_app|].
        split; [|reflexivity]. now intros n' [= <-] _.
      + destruct (search TITLE_RE page) as [m3|]; [|discriminate].
        intros [= <- <-]. split.
        * destruct (endswith ".mp4" (unescape (group_of 1 m3))) eqn:E;
            [exact E | apply endswith_app].
        * split; [|reflexivity]. intros n' [= <-] Hn.
          unfold truthy in Tn. apply negb_false_iff, String.eqb_eq in Tn.
          contradiction.
    - destruct (search TITLE_RE page) as [m3|]; [|discriminate].
      intros [= <- <-]. split.
      + destruct (endswith ".mp4" (unescape (group_of 1 m3))) eqn:E;
          [exact E | apply endswith_app].
      + split; [|reflexivity]. discriminate. }
  destruct (extract_file_name cfg page _) as [[fname|e|] st1] eqn:Ef;
    [|discriminate|discriminate].
  destruct (Hname fname st1 eq_refl) as (H1 & H2 & ->).
  cbn [fst snd ret].
  destruct (path_error env cfg); [discriminate|].
  cbn [fst snd ret]. intros [= <-].
  cbn [config headers_manager guid server_id file_name path with_server_id
       h_server_id log events].
  destruct (split_last_suffix "/" (urlparse_path (embed_url cfg)))
    as [Hsuf Hclean].
  split; [reflexivity|].
  split; [intro E; rewrite E in Hr; discriminate|].
  split; [intro E; rewrite E in He; discriminate|].
  split; [reflexivity|].
  split; [exact Hsuf|].
  split; [exact Hclean|].
  split; [intros a g -> Hg; now apply split_last_app|].
  split; [exact H1|].
  split; [exact H2|].
  split; [now intros ->|reflexivity].
Qed.

End Constructed.

(* ================================================================== *)
(** * Further properties: a manifest without renditions *)
(* ================================================================== *)

Lemma startswith_split (p s : string) :
  startswith p s = true <-> exists b : string, s = p ++ b.
Proof.
  split.
  - revert s. induction p as [|c p IH]; intros s H; [now exists s|].
    destruct s as [|d s]; [discriminate|].
    cbn [startswith] in H. apply andb_true_iff in H as [Hc Hs].
    apply Ascii.eqb_eq in Hc as ->.
    destruct (IH s Hs) as [b ->]. now exists b.
  - intros [b ->]. apply startswith_app.
Qed.

Lemma contains_split (p s : string) :
  contains p s = true <-> exists a b : string, s = a ++ p ++ b.
Proof.
  split.
  - induction s as [|c s IH]; cbn [contains]; intro H;
      apply orb_true_iff in H as [H|H]; try discriminate.
    + apply startswith_split in H as [b ->]. now exists "", b.
    + apply startswith_split in H as [b ->]. now exists "", b.
    + destruct (IH H) as (a & b & ->). now exists (String c a), b.
  - intros (a & b & ->).
    apply contains_app_r, contains_app_l, contains_refl.
Qed.

(** The rendition pattern matches somewhere exactly when the text holds the
    marker. *)
Lemma resolution_search_marker (text : string) :
  search RESOLUTION_RE text <> None <-> contains "/video.drm" text = true.
Proof.
  rewrite search_lang, contains_split. unfold RESOLUTION_RE. split.
  - intros (pre & w & rest & -> & H).
    apply lang_seq_inv in H as (w1 & w' & -> & _ & H).
    apply lang_seq_inv in H as (w2 & w'' & -> & _ & H).
    apply lang_seq_inv in H as (w3 & w4 & -> & _ & H4).
    apply lang_lit_inv in H4 as ->.
    exists (pre ++ w1 ++ w2 ++ w3), rest.
    now rewrite !str_app_assoc.
  - intros (a & b & ->). exists a, "/video.drm", b.
    split; [reflexivity|].
    change "/video.drm" with ("" ++ "" ++ "" ++ "/video.drm").
    apply lang_seq; [apply lang_star_stop|].
    apply lang_seq; [apply lang_group, lang_star_stop|].
    apply lang_seq; [apply lang_star_stop | apply lang_lit].
Qed.

Lemma findall_nil (r : regex) (s : string) :
  findall r s = [] <-> search r s = None.
Proof.
  unfold findall, search. cbn [findall_from].
  destruct (search_from r 0 s) as [[start [[stop rest] cs]]|];
    cbn [option_map].
  - split; [|discriminate].
    destruct (start <? stop)%nat; [discriminate|].
    destruct rest; discriminate.
  - now split.
Qed.

Lemma parse_resolutions_nil (text : string) :
  parse_resolutions text = [] <-> contains "/video.drm" text = false.
Proof.
  unfold parse_resolutions.
  pose proof (findall_nil RESOLUTION_RE text) as F.
  pose proof (resolution_search_marker text) as S.
  split.
  - intro H.
    assert (Hf : findall RESOLUTION_RE text = []).
    { destruct (findall RESOLUTION_RE text) as [|x l]; [reflexivity|].
      cbn [rev] in H. now apply app_eq_nil in H as [_ H]. }
    apply F in Hf.
    destruct (contains "/video.drm" text); [|reflexivity].
    exfalso. now apply (proj2 S).
  - intro H.
    assert (Hs : search RESOLUTION_RE text = None).
    { destruct (search RESOLUTION_RE text) eqn:E; [|reflexivity].
      assert (Hc : contains "/video.drm" text = true)
        by (apply S; discriminate).
      rewrite Hc in H. discriminate. }
    apply F in Hs. now rewrite Hs.
Qed.

Section NoRenditions.

Context {L : PyLib}.
Variable env : Env.

Lemma select_target_escaped (target : string) (rs : list string) (e : exn) :
  select_target target rs = Escaped e ->
  exists r : re_raised, e = exn_of_re r.
Proof.
  induction rs as [|x rs IH]; [discriminate|].
  cbn [select_target].
  destruct (String.eqb target x); [discriminate|].
  destruct (re_search target x) as [| | |r]; try discriminate; auto.
  intros [= <-]. now exists r.
Qed.

Lemma select_resolution_message (cfg : DownloadConfig) (rs : list string)
      (st : State) :
  fst (select_resolution env cfg rs st)
  <> Raise (PlaylistError "No resolutions found.").
Proof.
  unfold select_resolution.
  destruct (truthy_opt (Config.resolution cfg)).
  - destruct (select_target _ rs) as [res|e|] eqn:E; try discriminate.
    apply select_target_escaped in E as [[m|c m] ->]; discriminate.
  - destruct (Config.interactive cfg); [|discriminate].
    destruct (select_interactive_cases env rs st) as [_ Eo].
    cbv zeta in Eo. rewrite Eo.
    destruct (stdin env _) as [choice|];
      [|destruct (stdin_error env _); discriminate].
    destruct (parse_int choice) as [k|]; [|discriminate].
    destruct ((1 <=? k)%Z && (k <=? Z.of_nat (List.length rs))%Z);
      discriminate.
Qed.

(** X12. A manifest that answers with a good status yields no rendition
    exactly when its text does not hold the marker [/video.drm], and
    exactly then the manifest fetch raises [PlaylistError] with the message
    [No resolutions found.]; nothing is printed or asked in that case. *)
Theorem no_renditions_without_marker (self : BunnyVideoDRM) (st : State)
        (status : Z) (text : string) :
  net env (events st) (playlist_request self) = Response status text ->
  error_status status = false ->
  (parse_resolutions text = [] <-> contains "/video.drm" text = false)
  /\ (fst (_get_main_playlist env self st)
      = Raise (PlaylistError "No resolutions found.")
      <-> contains "/video.drm" text = false)
  /\ (contains "/video.drm" text = false ->
      events (snd (_get_main_playlist env self st))
      = (events st ++ [Get MainThread (playlist_request self)])%list).
Proof.
  intros Hn Hs.
  pose proof (parse_resolutions_nil text) as P.
  rewrite get_main_playlist_cases. cbv zeta. rewrite Hn, Hs.
  split; [exact P|].
  destruct (parse_resolutions text) as [|r rs] eqn:E.
  - assert (Hc : contains "/video.drm" text = false) by now apply P.
    split; [now split|]. reflexivity.
  - assert (Hc : contains "/video.drm" text = true).
    { destruct (contains "/video.drm" text); [reflexivity|].
      assert (H : r :: rs = []) by now apply P. discriminate. }
    rewrite Hc. split; [|discriminate].
    split; [|discriminate].
    intro H. exfalso. revert H. apply select_resolution_message.
Qed.

End NoRenditions.

(* ================================================================== *)
(** * Further properties: the loop of the ping thread *)
(* ================================================================== *)

Section PingLoop.

Context {L : PyLib}.
Variable env : Env.
Variable self : BunnyVideoDRM.

(** X13. While nothing sets the stop flag, the loop of [_background_ping]
    does not return, however many turns it is given and whatever the network
    answers to its pings.  Each turn leaves three events: the read of the
    flag, a ping with paused [false] and the resolution token, whose time
    position is the number of the turn, counted from 0 in steps of one,
    plus the random jitter rounded to six places, and a sleep. *)
Theorem heartbeat_runs_until_stopped (n : nat) (res_val : string) :
  forall (time_pos : pyfloat) (st : State),
    stop_event st = false ->
    let run := _background_ping_loop env n self res_val time_pos st in
    fst run = Hang
    /\ stop_event (snd run) = false
    /\ exists d : trace,
         events (snd run) = (events st ++ d)%list
         /\ List.length d = (3 * n)%nat
         /\ forall i : nat,
              (i < n)%nat ->
              nth_error d (3 * i) = Some (IsSet false)
              /\ nth_error d (3 * i + 1)
                 = Some (Get PingThread
                           (ping_request self
                              (PyFloat
                                 (float_add (time_after i time_pos)
                                    (float_round6
                                       (random env
                                          (events st
                                             ++ firstn (3 * i + 1) d)%list))))
                              "false" res_val))
              /\ nth_error d (3 * i + 2) = Some Sleep.
Proof.
  induction n as [|n IH]; intros t st Hflag; cbv zeta.
  - cbn [_background_ping_loop]. rewrite Hflag. cbn [fst snd].
    split; [reflexivity|]. split; [exact Hflag|].
    exists []. rewrite app_nil_r. repeat split; lia.
  - destruct st as [tr flag p closed]. cbn [stop_event] in Hflag. subst flag.
    cbn [_background_ping_loop stop_event]. unfold bind, emit.
    rewrite ping_run.
    cbn [log events stop_event ping_thread session_closed].
    set (jitter := float_round6 (random env (tr ++ [IsSet false])%list)).
    set (ping := Get PingThread
                   (ping_request self (PyFloat (float_add t jitter)) "false"
                      res_val)).
    set (st3 := log Sleep (log ping (log (IsSet false)
                                         (mkSt tr false p closed)))).
    assert (E3 : events st3 = (tr ++ [IsSet false; ping; Sleep])%list).
    { unfold st3, log. cbn [events]. now rewrite <- !app_assoc. }
    destruct (IH (float_add t float_one) st3 eq_refl) as (Hh & Hf & d & Ed & Ld & Hd).
    cbv zeta in Hh, Hf, Ed.
    split; [exact Hh|]. split; [exact Hf|].
    exists (IsSet false :: ping :: Sleep :: d).
    split.
    { rewrite Ed, E3, <- app_assoc. reflexivity. }
    split; [cbn [List.length]; lia|].
    intros [|i] Hi.
    + cbn [Nat.mul Nat.add nth_error firstn time_after].
      repeat split.
    + replace (3 * S i)%nat with (S (S (S (3 * i)))) by lia.
      cbn [Nat.add nth_error firstn time_after].
      destruct (Hd i ltac:(lia)) as (H0 & H1 & H2).
      split; [exact H0|]. split; [|exact H2].
      rewrite H1, E3, <- app_assoc. reflexivity.
Qed.

End PingLoop.

(* ================================================================== *)
(** * Further properties: headers and the options of yt-dlp *)
(* ================================================================== *)

Lemma get_set (k v k' : string) (d : dict) :
  Headers.get k' (Headers.set k v d)
  = if String.eqb k' k then Some v else Headers.get k' d.
Proof.
  induction d as [|[k0 v0] d IH]; cbn [Headers.set Headers.get].
  - destruct (String.eqb k' k); reflexivity.
  - destruct (String.eqb_spec k k0) as [->|Hne]; cbn [Headers.get].
    + destruct (String.eqb k' k0); reflexivity.
    + rewrite IH.
      destruct (String.eqb_spec k' k0) as [->|Hne'].
      * destruct (String.eqb_spec k0 k) as [E|_]; [|reflexivity].
        now symmetry in E.
      * reflexivity.
Qed.

Lemma set_keys (k v : string) (d : dict) :
  map fst (Headers.set k v d)
  = if existsb (String.eqb k) (map fst d) then map fst d
    else (map fst d ++ [k])%list.
Proof.
  induction d as [|[k0 v0] d IH]; cbn [Headers.set map fst existsb app];
    [reflexivity|].
  destruct (String.eqb_spec k k0) as [->|Hne]; cbn [map fst orb].
  - reflexivity.
  - rewrite IH. destruct (existsb (String.eqb k) (map fst d)); reflexivity.
Qed.

Section Options.

Context {L : PyLib}.

(** X14. The headers that yt-dlp is given are the browser headers of the
    object with the key [Referer] set to the embed URL: a lookup of
    [Referer] gives the embed URL, a lookup of any other key gives what the
    browser headers give, a [Referer] that the browser headers held is
    replaced where it stood and a new one goes last, so no key is listed
    twice that was not before.  The output template is the file name and
    the temporary directory is the file name between a dot and a slash. *)
Theorem ydl_options (self : BunnyVideoDRM) (k : string) :
  let opts := download_opts self in
  let ua := user_agent (headers_manager self) in
  Headers.get k (http_headers opts)
  = (if String.eqb k "Referer" then Some (embed_url (config self))
     else Headers.get k ua)
  /\ map fst (http_headers opts)
     = (if existsb (String.eqb "Referer") (map fst ua) then map fst ua
        else (map fst ua ++ ["Referer"])%list)
  /\ outtmpl opts = file_name self
  /\ paths_home opts = path self
  /\ paths_temp opts = "." ++ file_name self ++ "/".
Proof.
  cbv zeta. unfold download_opts. cbn [http_headers outtmpl paths_home paths_temp].
  split; [apply get_set|].
  split; [apply set_keys|].
  now repeat split.
Qed.

(** X15. The ping and the activate request name, in their [authority]
    header, the host of their own URL: when the headers manager carries the
    server id of the object, as it does after construction, and the id is
    not empty, the header is [video-<id>.mediadelivery.net] and the URL is
    [https://] followed by it and the path; with an empty server id the
    requests carry no [authority] header.  Both requests carry the player
    origin, and the player page as referer. *)
Theorem handshake_authority (self : BunnyVideoDRM) (time_pos : pynum)
        (paused res : string) (r : request) :
  h_server_id (headers_manager self) = server_id self ->
  r = ping_request self time_pos paused res \/ r = activate_request self ->
  match Headers.get "authority" (headers r) with
  | Some host =>
      server_id self <> ""
      /\ host = "video-" ++ server_id self ++ ".mediadelivery.net"
      /\ startswith ("https://" ++ host ++ "/.drm/" ++ context_id self ++ "/")
                    (url r) = true
  | None => server_id self = ""
  end
  /\ Headers.get "origin" (headers r) = Some "https://iframe.mediadelivery.net"
  /\ Headers.get "referer" (headers r)
     = Some "https://iframe.mediadelivery.net/".
Proof.
  intros Hsid Hr.
  assert (Hh : headers r = ping_activate (headers_manager self))
    by (destruct Hr as [-> | ->]; reflexivity).
  assert (Hu : exists tail : string,
             url r = ("https://"
                        ++ ("video-" ++ server_id self ++ ".mediadelivery.net")
                        ++ "/.drm/" ++ context_id self ++ "/") ++ tail).
  { destruct Hr as [-> | ->]; cbn [url ping_request activate_request];
      unfold ping_url, activate_url;
      [exists "ping" | exists "activate"];
      cbn [String.append]; rewrite !str_app_assoc; cbn [String.append];
      rewrite !str_app_assoc; reflexivity. }
  rewrite Hh. unfold ping_activate. rewrite Hsid.
  destruct (truthy (server_id self)) eqn:T.
  - cbn [app Headers.get String.eqb Ascii.eqb Bool.eqb andb].
    split; [|split; reflexivity].
    split.
    + intro E. rewrite E in T. discriminate.
    + split; [reflexivity|].
      destruct Hu as [tail ->]. apply startswith_app.
  - cbn [app Headers.get String.eqb Ascii.eqb Bool.eqb andb].
    split; [|split; reflexivity].
    unfold truthy in T. now apply negb_false_iff, String.eqb_eq in T.
Qed.

End Options.

(* ================================================================== *)
(** * The further properties on concrete inputs, continued *)
(* ================================================================== *)

Lemma construction_outcomes_witness :
  let env := Example.server Example.embed_page Example.manifest3 None 0 in
  let cfg := Example.cfg None in
  let page := Example.embed_page in
  let out := fst (__init__ (L:=Example.lib) env cfg initial) in
  let complete :=
    has_server_fragment page /\ has_context_fragment page
    /\ (truthy_opt (Config.name cfg) = true \/ has_title_fragment page) in
  truthy (referer cfg) = true
  /\ truthy (embed_url cfg) = true
  /\ identity_error env = None
  /\ urlparse_error (PyLib:=Example.lib) (embed_url cfg) = None
  /\ net env (events initial) (embed_request cfg (new_headers env cfg))
     = Response 200 page
  /\ error_status 200 = false
  /\ (out = Raise (ExtractionError "Could not extract server ID.")
      <-> ~ has_server_fragment page)
  /\ (out = Raise (ExtractionError "Could not extract context ID and secret.")
      <-> has_server_fragment page /\ ~ has_context_fragment page)
  /\ (out = Raise (ExtractionError "Could not extract video title.")
      <-> has_server_fragment page /\ has_context_fragment page
          /\ truthy_opt (Config.name cfg) = false
          /\ ~ has_title_fragment page)
  /\ (forall e : exn,
         path_error env cfg = Some e -> (out = Raise e <-> complete))
  /\ ((exists video : BunnyVideoDRM, out = Ok video)
      <-> complete /\ path_error env cfg = None).
Proof.
  cbv zeta. do 6 (split; [reflexivity|]).
  exact (construction_outcomes (L:=Example.lib)
           (Example.server Example.embed_page Example.manifest3 None 0)
           (Example.cfg None) initial 200 Example.embed_page
           eq_refl eq_refl eq_refl eq_refl eq_refl eq_refl).
Defined.

Lemma constructed_object_witness :
  let env := Example.server Example.embed_page Example.manifest3 None 0 in
  let cfg := Example.cfg None in
  let video :=
    mkDRM cfg
      (mkHeaders "https://example.com/"
         "https://iframe.mediadelivery.net/embed/1234/abcd" "srv1"
         [("user-agent", "Mozilla/5.0")] "en-US,en;q=0.9")
      "abcd" "srv1" "ctx" "s3cr3t" "My Video.mp4" "/tmp" in
  fst (__init__ (L:=Example.lib) env cfg initial) = Ok video
  /\ config video = cfg
  /\ h_server_id (headers_manager video) = server_id video
  /\ endswith (guid video)
       (urlparse_path (PyLib:=Example.lib) (embed_url cfg)) = true
  /\ str_existsb (Ascii.eqb "/") (guid video) = false
  /\ endswith ".mp4" (file_name video) = true
  /\ events (snd (__init__ (L:=Example.lib) env cfg initial))
     = (events initial
          ++ [Get MainThread (embed_request cfg (new_headers env cfg))])%list.
Proof.
  cbv zeta.
  assert (H : fst (__init__ (L:=Example.lib)
                     (Example.server Example.embed_page Example.manifest3
                        None 0)
                     (Example.cfg None) initial)
              = Ok (mkDRM (Example.cfg None)
                      (mkHeaders "https://example.com/"
                         "https://iframe.mediadelivery.net/embed/1234/abcd"
                         "srv1" [("user-agent", "Mozilla/5.0")]
                         "en-US,en;q=0.9")
                      "abcd" "srv1" "ctx" "s3cr3t" "My Video.mp4" "/tmp"))
    by (vm_compute; reflexivity).
  split; [exact H|].
  destruct (constructed_object (L:=Example.lib) _ _ _ _ H)
    as (H1 & _ & _ & H4 & H5 & H6 & _ & H8 & _ & _ & H11).
  repeat split; assumption.
Defined.

Lemma no_renditions_without_marker_witness :
  let env := Example.server "" "#EXTM3U" None 0 in
  let self := Example.video None in
  net env (events initial) (playlist_request self) = Response 200 "#EXTM3U"
  /\ error_status 200 = false
  /\ (parse_resolutions "#EXTM3U" = []
      <-> contains "/video.drm" "#EXTM3U" = false)
  /\ (fst (_get_main_playlist (L:=Example.lib) env self initial)
      = Raise (PlaylistError "No resolutions found.")
      <-> contains "/video.drm" "#EXTM3U" = false)
  /\ (contains "/video.drm" "#EXTM3U" = false ->
      events (snd (_get_main_playlist (L:=Example.lib) env self initial))
      = (events initial ++ [Get MainThread (playlist_request self)])%list).
Proof.
  cbv zeta. do 2 (split; [reflexivity|]).
  exact (no_renditions_without_marker (L:=Example.lib)
           (Example.server "" "#EXTM3U" None 0) (Example.video None) initial
           200 "#EXTM3U" eq_refl eq_refl).
Defined.

Lemma heartbeat_runs_until_stopped_witness :
  let run := _background_ping_loop (L:=Example.lib) Example.offline 2
               (Example.video None) "1080" 0%Z initial in
  stop_event (L:=Example.lib) initial = false
  /\ fst run = Hang
  /\ stop_event (snd run) = false.
Proof.
  cbv zeta. split; [reflexivity|].
  destruct (heartbeat_runs_until_stopped (L:=Example.lib) Example.offline
              (Example.video None) 2 "1080" 0%Z initial eq_refl)
    as (H1 & H2 & _).
  split; assumption.
Defined.

Lemma handshake_authority_witness :
  let self := Example.video None in
  let r := activate_request self in
  h_server_id (headers_manager self) = server_id self
  /\ Headers.get "authority" (headers r) = Some "video-srv1.mediadelivery.net"
  /\ match Headers.get "authority" (headers r) with
     | Some host =>
         server_id self <> ""
         /\ host = "video-" ++ server_id self ++ ".mediadelivery.net"
         /\ startswith
              ("https://" ++ host ++ "/.drm/" ++ context_id self ++ "/")
              (url r) = true
     | None => server_id self = ""
     end.
Proof.
  cbv zeta. split; [reflexivity|]. split; [reflexivity|].
  exact (proj1 (handshake_authority (L:=Example.lib) (Example.video None)
                  (PyInt 0) "true" "0" (activate_request (Example.video None))
                  eq_refl (or_intror eq_refl))).
Defined.

(* ================================================================== *)
(** * Further properties: the modes of selection and empty options *)
(* ================================================================== *)

Section Modes.

Context {L : PyLib}.
Variable env : Env.

(** X16. A target that is not empty takes precedence over interactive
    mode: selection then neither prints nor asks, it leaves the state as it
    found it, and what it does is the same with the interactive flag on or
    off and with any console. *)
Theorem target_precedes_prompt (cfg : DownloadConfig) (target : string)
        (rs : list string) (st : State) :
  Config.resolution cfg = Some target ->
  target <> "" ->
  snd (select_resolution env cfg rs st) = st
  /\ fst (select_resolution env cfg rs st) <> Raise EOFError
  /\ forall (env' : Env) (b : bool),
       select_resolution env' (with_interactive cfg b) rs st
       = select_resolution env cfg rs st.
Proof.
  intros Hres Hne.
  assert (T : truthy_opt (Config.resolution cfg) = true).
  { rewrite Hres. cbn [truthy_opt]. unfold truthy.
    destruct (String.eqb_spec target ""); [contradiction | reflexivity]. }
  unfold select_resolution. cbn [with_interactive Config.resolution].
  rewrite T, Hres.
  destruct (select_target target rs) as [res|e|] eqn:E;
    cbn [ret raise fst snd]; repeat split; try discriminate.
  apply select_target_escaped in E as [[m|c m] ->]; discriminate.
Qed.

End Modes.

Lemma target_precedes_prompt_witness :
  let env := Example.typist Example.manifest3 "3" in
  let cfg := with_interactive (Example.cfg (Some "720")) true in
  Config.resolution cfg = Some "720"
  /\ "720" <> ""
  /\ Config.interactive cfg = true
  /\ snd (select_resolution (L:=Example.lib) env cfg Example.three initial)
     = initial
  /\ fst (select_resolution (L:=Example.lib) env cfg Example.three initial)
     <> Raise EOFError.
Proof.
  cbv zeta. split; [reflexivity|]. split; [discriminate|].
  split; [reflexivity|].
  destruct (target_precedes_prompt (L:=Example.lib)
              (Example.typist Example.manifest3 "3")
              (with_interactive (Example.cfg (Some "720")) true) "720"
              Example.three initial eq_refl ltac:(discriminate))
    as (H1 & H2 & _).
  split; assumption.
Defined.

Lemma absent_if_empty_truthy (o : option string) :
  truthy_opt (absent_if_empty o) = truthy_opt o.
Proof.
  unfold absent_if_empty. now destruct (truthy_opt o) eqn:E.
Qed.

Lemma absent_if_empty_value (o : option string) :
  truthy_opt o = true -> absent_if_empty o = o.
Proof. unfold absent_if_empty. now intros ->. Qed.

Section EmptyOptions.

Context {L : PyLib}.
Variable env : Env.

(** X17. An optional text of the configuration that is empty counts as
    absent: with an empty target, name or path, selection and construction
    do what they do without it.  Selection runs the same; construction ends
    the same way, with the same events, and the objects differ in nothing
    but the configuration they hold: an empty name gives the file name of
    the page title, an empty path the working directory. *)
Theorem empty_options_are_absent (cfg : DownloadConfig) (st : State) :
  let cfg' := without_empty_options cfg in
  (forall rs : list string,
      select_resolution env cfg' rs st = select_resolution env cfg rs st)
  /\ events (snd (__init__ env cfg' st)) = events (snd (__init__ env cfg st))
  /\ match fst (__init__ env cfg st), fst (__init__ env cfg' st) with
     | Ok v, Ok v' =>
         config v = cfg /\ config v' = cfg'
         /\ headers_manager v' = headers_manager v
         /\ guid v' = guid v
         /\ server_id v' = server_id v
         /\ context_id v' = context_id v
         /\ secret v' = secret v
         /\ file_name v' = file_name v
         /\ path v' = path v
     | Raise e, Raise e' => e = e'
     | _, _ => False
     end.
Proof.
  cbv zeta. split; [|].
  - intro rs. unfold select_resolution, without_empty_options.
    cbn [Config.resolution Config.interactive].
    rewrite absent_if_empty_truthy.
    destruct (truthy_opt (Config.resolution cfg)) eqn:T; [|reflexivity].
    now rewrite (absent_if_empty_value _ T).
  - unfold __init__, without_empty_options.
    cbn [referer embed_url Config.path Config.name].
    destruct (negb (truthy (referer cfg)) || negb (truthy (embed_url cfg)));
      [now split|].
    destruct (identity_error env) as [[cls bad]|]; [now split|].
    destruct (urlparse_error (embed_url cfg)); [now split|].
    unfold _parse_embed_page, bind, try_except, session_get, raise_for_status.
    unfold embed_request, new_headers, path_error.
    cbn [referer embed_url Config.path].
    destruct (net env (events st) _) as [status page|msg]; [|now split].
    cbn [fst snd].
    destruct ((400 <=? status)%Z && (status <? 600)%Z); [now split|].
    cbn [ret is_RequestException].
    unfold extract_server_id, extract_context, extract_file_name, try_except.
    destruct (search SERVER_ID_RE page) as [m1|]; [|now split]. cbn [ret].
    destruct (search CONTEXT_RE page) as [m2|]; [|now split].
    cbn [ret fst snd Config.name].
    rewrite !absent_if_empty_truthy.
    destruct (truthy_opt (Config.name cfg)) eqn:Tn;
      destruct (truthy_opt (Config.path cfg)) eqn:Tp;
      rewrite ?(absent_if_empty_value _ Tn), ?(absent_if_empty_value _ Tp).
    + cbn [fst snd ret]. destruct (expanduser_error env _); cbn;
        now repeat split.
    + cbn [fst snd ret]. destruct (cwd_error env); cbn; now repeat split.
    + destruct (search TITLE_RE page); cbn [fst snd ret raise any_Exception];
        [|cbn; now repeat split].
      destruct (expanduser_error env _); cbn; now repeat split.
    + destruct (search TITLE_RE page); cbn [fst snd ret raise any_Exception];
        [|cbn; now repeat split].
      destruct (cwd_error env); cbn; now repeat split.
Qed.

End EmptyOptions.

(* ================================================================== *)
(** * Further properties: a target that is no pattern; the embed fetch *)
(* ================================================================== *)

Section TargetsAndFetch.

Context {L : PyLib}.
Variable env : Env.

Lemma select_target_exact (target : string) (rs : list string) :
  (forall r : string, In r rs -> re_search target r = ReError) ->
  select_target target rs
  = if existsb (String.eqb target) rs then Returned target else RanOut.
Proof.
  induction rs as [|r rs IH]; intro H; [reflexivity|].
  cbn [select_target existsb].
  destruct (String.eqb_spec target r) as [->|Hne]; [reflexivity|].
  rewrite (H r (or_introl eq_refl)). cbn [orb].
  apply IH. intros r' Hr'. apply H. now right.
Qed.

(** X18. A target that [re] refuses as a pattern still works as a label:
    selection returns the target when it is one of the renditions, and
    otherwise raises [PlaylistError] with the message of a target not
    found; the error of the pattern itself never leaves selection. *)
Theorem invalid_pattern_means_exact (cfg : DownloadConfig) (target : string)
        (rs : list string) (st : State) :
  Config.resolution cfg = Some target ->
  target <> "" ->
  (forall r : string, In r rs -> re_search target r = ReError) ->
  select_resolution env cfg rs st
  = (if existsb (String.eqb target) rs then Ok target
     else Raise (PlaylistError (not_found_message target rs)), st).
Proof.
  intros Hres Hne Herr.
  unfold select_resolution. rewrite Hres. cbn [truthy_opt].
  rewrite (truthy_neq _ Hne), (select_target_exact _ _ Herr).
  now destruct (existsb (String.eqb target) rs).
Qed.

Ltac settle_fetch :=
  repeat split; intros;
  repeat match goal with
         | H : exists _, _ |- _ => destruct H as [? H]
         | H : _ /\ _ |- _ => destruct H
         | H : _ \/ _ |- _ => destruct H
         end;
  try discriminate; try contradiction; try tauto; eauto.

(** X19. The errors of construction before the page is read.  It raises
    [ConfigurationError] exactly when the referer or the embed URL is empty,
    and then without any request.  With both in place, an exception of the
    generator of the identity, or else the [ValueError] of [urlparse] on the
    embed URL, leaves construction, again without any request; otherwise
    construction makes one request, the GET of the embed page, and raises
    [NetworkError] exactly when that GET fails or answers with a status from
    400 to 599: its message is [Error fetching embed page: ] followed by the
    text of the failure, or by the text of the [HTTPError] of
    [raise_for_status]. *)
Theorem embed_fetch_errors (cfg : DownloadConfig) (st : State) :
  let req := embed_request cfg (new_headers env cfg) in
  let out := fst (__init__ env cfg st) in
  let after := events (snd (__init__ env cfg st)) in
  ((exists m : string, out = Raise (ConfigurationError m))
   <-> referer cfg = "" \/ embed_url cfg = "")
  /\ (if negb (truthy (referer cfg)) || negb (truthy (embed_url cfg))
      then after = events st
           /\ out = Raise (ConfigurationError
                             "Referer and Embed URL are required.")
      else
        match identity_error env, urlparse_error (embed_url cfg) with
        | Some (cls, msg), _ =>
            after = events st /\ out = Raise (OtherError cls msg)
        | None, Some msg => after = events st /\ out = Raise (ValueError msg)
        | None, None => after = (events st ++ [Get MainThread req])%list
        end)
  /\ ((exists m : string, out = Raise (NetworkError m))
      <-> referer cfg <> "" /\ embed_url cfg <> ""
          /\ identity_error env = None
          /\ urlparse_error (embed_url cfg) = None
          /\ match net env (events st) req with
             | Failure _ => True
             | Response status _ => error_status status = true
             end)
  /\ (referer cfg <> "" -> embed_url cfg <> "" ->
      identity_error env = None ->
      urlparse_error (embed_url cfg) = None ->
      match net env (events st) req with
      | Failure msg =>
          out = Raise (NetworkError ("Error fetching embed page: " ++ msg))
      | Response status _ =>
          error_status status = true ->
          out = Raise (NetworkError
                         ("Error fetching embed page: "
                            ++ http_error env
                                 (events st ++ [Get MainThread req])%list
                                 req))
      end).
Proof.
  cbv zeta. unfold __init__.
  assert (Tr : truthy (referer cfg) = false <-> referer cfg = "").
  { unfold truthy. rewrite negb_false_iff. apply String.eqb_eq. }
  assert (Te : truthy (embed_url cfg) = false <-> embed_url cfg = "").
  { unfold truthy. rewrite negb_false_iff. apply String.eqb_eq. }
  pose proof (path_error_class env cfg) as Fp.
  destruct (truthy (referer cfg)) eqn:Hr; cbn [negb orb].
  2:{ assert (E : referer cfg = "") by now apply Tr.
      cbn [raise fst snd].
      destruct (net env (events st) _); settle_fetch. }
  assert (Nr : referer cfg <> "")
    by (intro E; apply Tr in E; discriminate).
  destruct (truthy (embed_url cfg)) eqn:He; cbn [negb].
  2:{ assert (E : embed_url cfg = "") by now apply Te.
      cbn [raise fst snd].
      destruct (net env (events st) _); settle_fetch. }
  assert (Ne : embed_url cfg <> "")
    by (intro E; apply Te in E; discriminate).
  destruct (identity_error env) as [[cls bad]|] eqn:Ei.
  { cbn [raise fst snd]. destruct (net env (events st) _); settle_fetch. }
  destruct (urlparse_error (embed_url cfg)) as [bad|] eqn:Eu.
  { cbn [raise fst snd]. destruct (net env (events st) _); settle_fetch. }
  unfold _parse_embed_page, bind, try_except, session_get, raise_for_status.
  destruct (net env (events st) _) as [status page|msg];
    [|cbn; settle_fetch].
  cbn [fst snd].
  change ((400 <=? status)%Z && (status <? 600)%Z) with (error_status status).
  destruct (error_status status) eqn:Es; [cbn; settle_fetch|].
  cbn [ret is_RequestException].
  unfold extract_server_id, extract_context, extract_file_name, try_except.
  destruct (search SERVER_ID_RE page) as [m1|]; [|cbn; settle_fetch].
  cbn [ret].
  destruct (search CONTEXT_RE page) as [m2|]; [|cbn; settle_fetch].
  cbn [ret].
  destruct (truthy_opt (Config.name cfg)).
  - cbn [fst snd].
    destruct (path_error env cfg) as [e0|];
      [destruct (Fp e0 eq_refl) as [[m ->]|[m ->]]|]; cbn; settle_fetch.
  - destruct (search TITLE_RE page); [|cbn; settle_fetch].
    cbn [fst snd ret].
    destruct (path_error env cfg) as [e0|];
      [destruct (Fp e0 eq_refl) as [[m ->]|[m ->]]|]; cbn; settle_fetch.
Qed.

(** With referer and embed URL in place, construction does not raise
    [ConfigurationError]; it makes no request when the generator of the
    identity or [urlparse] raises, and one request otherwise. *)
Lemma init_one_request (cfg : DownloadConfig) (st : State) :
  truthy (referer cfg) = true ->
  truthy (embed_url cfg) = true ->
  (forall m : string,
      fst (__init__ env cfg st) <> Raise (ConfigurationError m))
  /\ match identity_error env, urlparse_error (embed_url cfg) with
     | Some (cls, msg), _ =>
         __init__ env cfg st = (Raise (OtherError cls msg), st)
     | None, Some msg => __init__ env cfg st = (Raise (ValueError msg), st)
     | None, None =>
         events (snd (__init__ env cfg st))
         = (events st
              ++ [Get MainThread (embed_request cfg (new_headers env cfg))])%list
     end.
Proof.
  intros Hr He. unfold __init__. rewrite Hr, He. cbn [negb orb].
  pose proof (path_error_class env cfg) as Fp.
  destruct (identity_error env) as [[cls bad]|];
    [split; [discriminate | reflexivity]|].
  destruct (urlparse_error (embed_url cfg));
    [split; [discriminate | reflexivity]|].
  unfold _parse_embed_page, bind, try_except, session_get, raise_for_status.
  destruct (net env (events st) _) as [status page|msg];
    [|cbn; split; [discriminate | reflexivity]].
  cbn [fst snd].
  destruct ((400 <=? status)%Z && (status <? 600)%Z);
    [cbn; split; [discriminate | reflexivity]|].
  cbn [ret is_RequestException].
  unfold extract_server_id, extract_context, extract_file_name, try_except.
  destruct (search SERVER_ID_RE page) as [m1|];
    [|cbn; split; [discriminate | reflexivity]].
  cbn [ret].
  destruct (search CONTEXT_RE page) as [m2|];
    [|cbn; split; [discriminate | reflexivity]].
  cbn [ret].
  destruct (truthy_opt (Config.name cfg)).
  - cbn [fst snd].
    destruct (path_error env cfg) as [e0|];
      [destruct (Fp e0 eq_refl) as [[m ->]|[m ->]]|];
      cbn; split; reflexivity || discriminate.
  - destruct (search TITLE_RE page);
      [|cbn; split; [discriminate | reflexivity]].
    cbn [fst snd ret].
    destruct (path_error env cfg) as [e0|];
      [destruct (Fp e0 eq_refl) as [[m ->]|[m ->]]|];
      cbn; split; reflexivity || discriminate.
Qed.

(** X20. A configuration that validation returned passes the check of the
    constructor on referer and embed URL, so construction never raises
    [ConfigurationError] on it.  Validation looks at the referer only: when
    the generator of the identity raises, or [urlparse] refuses the embed
    URL, construction ends in that exception without any request;
    otherwise it makes exactly one request, the GET of the embed URL, whose
    [referer] header is the referer of the configuration, which ends in a
    slash. *)
Theorem validated_config_in_constructor (args cfg : DownloadConfig)
        (st : State) :
  Config.__post_init__ args = inr cfg ->
  let req := embed_request cfg (new_headers env cfg) in
  (forall m : string,
      fst (__init__ env cfg st) <> Raise (ConfigurationError m))
  /\ match identity_error env, urlparse_error (embed_url cfg) with
     | Some (cls, msg), _ =>
         __init__ env cfg st = (Raise (OtherError cls msg), st)
     | None, Some msg => __init__ env cfg st = (Raise (ValueError msg), st)
     | None, None =>
         events (snd (__init__ env cfg st))
         = (events st ++ [Get MainThread req])%list
     end
  /\ url req = embed_url args
  /\ Headers.get "referer" (headers req) = Some (referer cfg)
  /\ endswith "/" (referer cfg) = true.
Proof.
  intro Hv. cbv zeta.
  assert (Hc : truthy (referer cfg) = true /\ truthy (embed_url cfg) = true
               /\ embed_url cfg = embed_url args
               /\ endswith "/" (referer cfg) = true).
  { unfold Config.__post_init__ in Hv.
    destruct (negb (truthy (referer args)) || negb (truthy (embed_url args)))
      eqn:Em; [discriminate|].
    apply orb_false_iff in Em as [_ Ee]. apply negb_false_iff in Ee.
    pose proof (normalized_referer_slash (referer args)) as Hs.
    unfold normalized_referer in Hs.
    destruct (endswith "/" (referer args)) eqn:Es; cbn [negb] in Hv.
    - destruct (re_match REFERER_RE (referer args)); [|discriminate].
      injection Hv as <-.
      repeat split; auto. now apply endswith_truthy.
    - cbn [referer with_referer] in Hv.
      destruct (re_match REFERER_RE (referer args ++ "/")); [|discriminate].
      injection Hv as <-. cbn [referer embed_url with_referer].
      repeat split; auto. now apply endswith_truthy. }
  destruct Hc as (Hr & He & Hu & Hs).
  destruct (init_one_request cfg st Hr He) as [Hcfg Hev].
  split; [exact Hcfg|].
  split; [exact Hev|].
  split; [exact Hu|]. split; [reflexivity | exact Hs].
Qed.

End TargetsAndFetch.

Lemma invalid_pattern_means_exact_witness :
  let env := Example.server "" Example.manifest3 None 0 in
  let cfg := Example.cfg (Some "1080(p") in
  let rs := ["1920x1080"; "1080(p"; "720"] in
  Config.resolution cfg = Some "1080(p"
  /\ "1080(p" <> ""
  /\ (forall r : string,
         In r rs -> re_search (PyLib:=Example.lib) "1080(p" r = ReError)
  /\ select_resolution (L:=Example.lib) env cfg rs initial
     = (if existsb (String.eqb "1080(p") rs then Ok "1080(p"
        else Raise (PlaylistError (not_found_message "1080(p" rs)), initial).
Proof.
  cbv zeta. split; [reflexivity|]. split; [discriminate|].
  assert (H : forall r : string,
             In r ["1920x1080"; "1080(p"; "720"] ->
             re_search (PyLib:=Example.lib) "1080(p" r = ReError)
    by (intros r _; reflexivity).
  split; [exact H|].
  exact (invalid_pattern_means_exact (L:=Example.lib)
           (Example.server "" Example.manifest3 None 0)
           (Example.cfg (Some "1080(p")) "1080(p"
           ["1920x1080"; "1080(p"; "720"] initial eq_refl
           ltac:(discriminate) H).
Defined.

Lemma validated_config_in_constructor_witness :
  let env := Example.offline in
  let args := mkConfig "https://example.com"
                "https://iframe.mediadelivery.net/embed/1234/abcd"
                None None false None None in
  let cfg := with_referer args "https://example.com/" in
  let req := embed_request cfg (new_headers env cfg) in
  Config.__post_init__ args = inr cfg
  /\ identity_error env = None
  /\ urlparse_error (PyLib:=Example.lib) (embed_url cfg) = None
  /\ (forall m : string,
         fst (__init__ (L:=Example.lib) env cfg initial)
         <> Raise (ConfigurationError m))
  /\ events (snd (__init__ (L:=Example.lib) env cfg initial))
     = (events initial ++ [Get MainThread req])%list
  /\ url req = embed_url args
  /\ Headers.get "referer" (headers req) = Some (referer cfg)
  /\ endswith "/" (referer cfg) = true.
Proof.
  cbv zeta.
  assert (H : Config.__post_init__
                (mkConfig "https://example.com"
                   "https://iframe.mediadelivery.net/embed/1234/abcd"
                   None None false None None)
              = inr (with_referer
                       (mkConfig "https://example.com"
                          "https://iframe.mediadelivery.net/embed/1234/abcd"
                          None None false None None)
                       "https://example.com/"))
    by (vm_compute; reflexivity).
  split; [exact H|].
  do 2 (split; [reflexivity|]).
  exact (validated_config_in_constructor (L:=Example.lib) Example.offline
           _ _ initial H).
Defined.
